(** * speech-analysis: [utils/file_utils.py]

    A shallow embedding of the archive extractor
    ([extract_validated_and_clips_from_tar]), of the metadata loader
    ([load_validated_data]), of the two directory helpers
    ([ensure_directory_exists], [delete_directory_if_exists]) and of the
    downloader ([download_file]), with their properties.

    The Python functions are transcribed as Rocq functions over an explicit
    file system.  The library calls they make ([os.path], [tarfile], [os],
    [shutil], [requests], [pandas]) are modelled in the modules [os_path],
    [tarfile], [os], [shutil], [requests] and [pd]; what each model leaves
    out is said where it is defined. *)

From Stdlib Require Import Ascii String Sorted.
From stdpp Require Import base option list gmap strings fin_maps fin_sets.

Open Scope string_scope.

Set Warnings "-clear-no-such-hyp".

(** ** Python [str] operations *)

Module Str.

(** [s.startswith(t)] *)
Definition startswith (s t : string) : bool := String.prefix t s.

(** [s.endswith(t)] *)
Fixpoint endswith (s t : string) : bool :=
  if String.eqb s t then true
  else match s with
       | "" => false
       | String _ s' => endswith s' t
       end.

(** [t in s] *)
Fixpoint contains (t s : string) : bool :=
  if String.prefix t s then true
  else match s with
       | "" => false
       | String _ s' => contains t s'
       end.

(** [s.rstrip("/")] *)
Fixpoint rstrip_slash (s : string) : string :=
  match s with
  | "" => ""
  | String c s' =>
      match rstrip_slash s' with
      | "" => if Ascii.eqb c "/" then "" else String c ""
      | r => String c r
      end
  end.

(** [s.lstrip("/")] *)
Fixpoint lstrip_slash (s : string) : string :=
  match s with
  | String c s' => if Ascii.eqb c "/" then lstrip_slash s' else s
  | "" => ""
  end.

(** [s.split(sep)] for a one-character separator. *)
Fixpoint split (sep : ascii) (s : string) : list string :=
  match s with
  | "" => [""]
  | String c s' =>
      if Ascii.eqb c sep then "" :: split sep s'
      else match split sep s' with
           | w :: ws => String c w :: ws
           | [] => [String c ""]
           end
  end.

(** [ "/" not in s ] *)
Definition slash_free (s : string) : Prop := contains "/" s = false.

End Str.

(** ** [os.path] (posixpath) *)

Module os_path.

(** [(p[:i], p[i:])] for [i = p.rfind("/") + 1]: the part up to and
    including the last slash, and the rest. *)
Fixpoint rpartition (p : string) : string * string :=
  match p with
  | "" => ("", "")
  | String c p' =>
      match rpartition p' with
      | ("", _) => if Ascii.eqb c "/" then ("/", p') else ("", p)
      | (h, t) => (String c h, t)
      end
  end.

Definition basename (p : string) : string := snd (rpartition p).

Definition dirname (p : string) : string :=
  let head := fst (rpartition p) in
  match Str.rstrip_slash head with
  | "" => head                     (* empty, or nothing but slashes *)
  | stripped => stripped
  end.

(** [os.path.join(a, b)] *)
Definition join (a b : string) : string :=
  if Str.startswith b "/" then b
  else if String.eqb a "" || Str.endswith a "/" then a +:+ b
  else a +:+ "/" +:+ b.

End os_path.


(** ** Lexical path containment

    [norm p] is the stack of components of [p] (innermost first) once empty
    and [.] components are dropped and [..] cancels the component before
    it; a [..] with nothing to cancel is dropped at the root of an absolute
    path and kept in a relative one.  [within dest p] says that [p] lies at
    or below [dest].  The file system of this development follows no
    link, so this is what [os.path.realpath] and [os.path.commonpath]
    decide in tarfile's filters. *)

Module Lexical.

Definition isabs (p : string) : bool := Str.startswith p "/".

Definition push (abs : bool) (stack : list string) (c : string) : list string :=
  if String.eqb c "" || String.eqb c "." then stack
  else if String.eqb c ".." then
    match stack with
    | [] => if abs then [] else [".."]
    | top :: rest => if String.eqb top ".." then ".." :: stack else rest
    end
  else c :: stack.

Definition resolve (abs : bool) (stack : list string) (cs : list string)
  : list string := fold_left (push abs) cs stack.

Definition norm (p : string) : list string :=
  resolve (isabs p) [] (Str.split "/" p).

Definition within (dest p : string) : bool :=
  let nd := norm dest in
  let np := norm p in
  let extra := length np - length nd in
  Bool.eqb (isabs dest) (isabs p)
  && bool_decide (drop extra np = nd)
  && bool_decide (".." ∉ take extra np).

End Lexical.

(** ** Archive members

    A [tarfile.TarInfo] as the extractor uses it: the recorded name, the
    type flag, the bytes stored for the member, and the permission bits
    recorded for it. *)

Inductive member_type :=
  | REGTYPE | AREGTYPE | LNKTYPE | SYMTYPE | CHRTYPE | BLKTYPE
  | DIRTYPE | FIFOTYPE | CONTTYPE | GNUTYPE_SPARSE.

Global Instance member_type_eq_dec : EqDecision member_type.
Proof. solve_decision. Defined.

Record TarInfo := mkTarInfoWithMode {
  name : string;
  type : member_type;
  payload : string;
  mode : N;
}.

Global Instance TarInfo_eq_dec : EqDecision TarInfo.
Proof. solve_decision. Defined.

(** A member with the bits of an ordinary file, [0o644]. *)
Definition mkTarInfo (n : string) (t : member_type) (bytes : string)
    : TarInfo :=
  mkTarInfoWithMode n t bytes 420.

(** [member.name = n] *)
Definition set_name (member : TarInfo) (n : string) : TarInfo :=
  {| name := n; type := type member; payload := payload member;
     mode := mode member |}.

(** [REGULAR_TYPES = (REGTYPE, AREGTYPE, CONTTYPE, GNUTYPE_SPARSE)] *)
Definition isreg (member : TarInfo) : bool :=
  match type member with
  | REGTYPE | AREGTYPE | CONTTYPE | GNUTYPE_SPARSE => true
  | _ => false
  end.

Definition isfile (member : TarInfo) : bool := isreg member.

Definition isdir (member : TarInfo) : bool :=
  match type member with DIRTYPE => true | _ => false end.

(** ** The file system

    A finite map from the path strings the program hands to the operating
    system to what is stored there.  A regular file holds plain bytes or,
    when its bytes form a tar container, the member list tarfile reads
    from it.  [Special] stands for links, devices and pipes.  Paths are
    compared as written: two spellings of one location are two keys, and
    there is no current directory.  Links are entries like the others and
    are not followed, and every regular file has one name: what the
    program does through a link is outside the model, and the statements
    for which that matters are made for file systems without [Special]
    entries.  The file system keeps no permission bits either; they are
    added in [Modes] below. *)

Inductive content :=
  | Bytes (bytes : string)
  | TarArchive (members : list TarInfo).

Inductive node :=
  | Dir
  | File (c : content)
  | Special.

Global Instance content_eq_dec : EqDecision content.
Proof. solve_decision. Defined.
Global Instance node_eq_dec : EqDecision node.
Proof. solve_decision. Defined.

Abbreviation filesystem := (gmap string node).

(** ** Exceptions and effects

    A computation runs on a file system and either returns a value or raises
    an exception; both outcomes carry the file system reached, since nothing
    is rolled back when an exception propagates. *)

Inductive exn :=
  | FileNotFoundError | IsADirectoryError | NotADirectoryError
  | FileExistsError | PermissionError | ReadError
  | AbsolutePathError | OutsideDestinationError | SpecialFileError
  | ValueError | EmptyDataError | ParserError | KeyError.

Global Instance exn_eq_dec : EqDecision exn.
Proof. solve_decision. Defined.

Inductive outcome (A : Type) :=
  | Return (a : A) (fs : filesystem)
  | Raise (e : exn) (fs : filesystem).
Arguments Return {A} a fs.
Arguments Raise {A} e fs.

Definition io (A : Type) : Type := filesystem → outcome A.

Definition ret {A} (a : A) : io A := fun fs => Return a fs.
Definition raise {A} (e : exn) : io A := fun fs => Raise e fs.
Definition bind {A B} (c : io A) (k : A → io B) : io B :=
  fun fs => match c fs with
            | Return a fs' => k a fs'
            | Raise e fs' => Raise e fs'
            end.

Notation "x <- c ;; k" := (bind c (fun x => k))
  (at level 100, c at next level, right associativity).
Notation "c ;; k" := (bind c (fun _ => k))
  (at level 100, right associativity).

(** [for x in xs: body(x)] *)
Fixpoint for_each {A} (xs : list A) (body : A → io unit) : io unit :=
  match xs with
  | [] => ret tt
  | x :: xs' => body x ;; for_each xs' body
  end.

(** The file system an outcome leaves behind. *)
Definition final_fs {A} (o : outcome A) : filesystem :=
  match o with Return _ fs => fs | Raise _ fs => fs end.

Definition returns {A} (o : outcome A) : bool :=
  match o with Return _ _ => true | Raise _ _ => false end.

(** ** [os] *)

Module os.

(** The root directory, spelled with any number of slashes. *)
Definition is_root (p : string) : bool :=
  negb (String.eqb p "") && String.eqb (Str.rstrip_slash p) "".

(** [os.path.exists(p)], for a path looked up as it is spelled: a
    directory [data] is not found as [data/]. *)
Definition path_exists (fs : filesystem) (p : string) : bool :=
  is_root p || bool_decide (is_Some (fs !! p)).

(** [os.path.isdir(p)] *)
Definition path_isdir (fs : filesystem) (p : string) : bool :=
  is_root p || bool_decide (fs !! p = Some Dir).

(** What stands where the directory containing [p] should be. *)
Inductive parent_status := ParentIsDir | ParentIsNotDir | ParentMissing.

Definition parent (fs : filesystem) (p : string) : parent_status :=
  let d := os_path.dirname p in
  if String.eqb d "" || is_root d then ParentIsDir
  else match fs !! d with
       | Some Dir => ParentIsDir
       | Some _ => ParentIsNotDir
       | None => ParentMissing
       end.

(** [os.mkdir(p)] *)
Definition mkdir (p : string) : io unit := fun fs =>
  if String.eqb p "" then Raise FileNotFoundError fs
  else if path_exists fs p then Raise FileExistsError fs
  else match parent fs p with
       | ParentIsDir => Return tt (<[p := Dir]> fs)
       | ParentIsNotDir => Raise NotADirectoryError fs
       | ParentMissing => Raise FileNotFoundError fs
       end.

(** [os.makedirs(name, exist_ok=True)]: the missing ancestors first, then
    the directory itself.  [fuel] bounds the number of ancestors. *)
Fixpoint makedirs_from (fuel : nat) (name : string) : io unit :=
  fun fs =>
    let head := os_path.dirname name in
    let tail := os_path.basename name in
    let make_leaf : io unit := fun fs1 =>
      match mkdir name fs1 with
      | Raise e fs2 =>
          if path_isdir fs2 name then Return tt fs2 else Raise e fs2
      | o => o
      end in
    match fuel with
    | S fuel' =>
        if negb (String.eqb head "") && negb (String.eqb tail "")
           && negb (path_exists fs head)
        then match makedirs_from fuel' head fs with
             | Return _ fs1 | Raise FileExistsError fs1 =>
                 if String.eqb tail "." then Return tt fs1
                 else make_leaf fs1
             | Raise e fs1 => Raise e fs1
             end
        else make_leaf fs
    | O => make_leaf fs
    end.

Definition makedirs (name : string) : io unit :=
  makedirs_from (String.length name) name.

(** [open(target, "wb")] followed by writing [bytes] and closing, by a
    process that may write the files it meets.  A name whose last component
    is empty, [.] or [..] designates a directory.  A regular file at
    [target] is replaced; so is, here, a [Special] entry, through which the
    real call would write. *)
Definition write_file (target bytes : string) : io unit := fun fs =>
  let last := os_path.basename target in
  if String.eqb target "" then Raise FileNotFoundError fs
  else if String.eqb last "" || String.eqb last "." || String.eqb last ".."
  then Raise IsADirectoryError fs
  else match fs !! target with
       | Some Dir => Raise IsADirectoryError fs
       | _ =>
           match parent fs target with
           | ParentIsDir => Return tt (<[target := File (Bytes bytes)]> fs)
           | ParentIsNotDir => Raise NotADirectoryError fs
           | ParentMissing => Raise FileNotFoundError fs
           end
       end.

(** The last step of [os.makedirs(name, exist_ok=exist_ok)]: [mkdir],
    whose error is kept unless [exist_ok] is set and the directory is
    there. *)
Definition make_leaf (exist_ok : bool) (name : string) : io unit := fun fs =>
  match mkdir name fs with
  | Raise e fs' =>
      if negb exist_ok || negb (path_isdir fs' name)
      then Raise e fs' else Return tt fs'
  | o => o
  end.

(** [os.makedirs(name, exist_ok=exist_ok)] for any [name], as the library
    writes it: a name that ends with a slash is split once more, and of
    the errors of the ancestors only [FileExistsError] is passed over. *)
Fixpoint makedirs_with_from (exist_ok : bool) (fuel : nat) (name : string)
    : io unit :=
  fun fs =>
    let head := os_path.dirname name in
    let tail := os_path.basename name in
    let head' := if String.eqb tail "" then os_path.dirname head else head in
    let tail' := if String.eqb tail "" then os_path.basename head else tail in
    match fuel with
    | S fuel' =>
        if negb (String.eqb head' "") && negb (String.eqb tail' "")
           && negb (path_exists fs head')
        then match makedirs_with_from exist_ok fuel' head' fs with
             | Return _ fs1 | Raise FileExistsError fs1 =>
                 if String.eqb tail' "." then Return tt fs1
                 else make_leaf exist_ok name fs1
             | Raise e fs1 => Raise e fs1
             end
        else make_leaf exist_ok name fs
    | O => make_leaf exist_ok name fs
    end.

Definition makedirs_with (exist_ok : bool) (name : string) : io unit :=
  makedirs_with_from exist_ok (String.length name) name.

(** [file.write(data)] on the file opened for writing at [target]: the
    bytes go to its end.  Without a file there the handle is closed. *)
Definition write_more (target data : string) : io unit := fun fs =>
  match fs !! target with
  | Some (File (Bytes old)) =>
      Return tt (<[target := File (Bytes (old +:+ data))]> fs)
  | _ => Raise ValueError fs
  end.

(** [os.remove(p)] *)
Definition remove (p : string) : io unit := fun fs =>
  match fs !! p with
  | None => Raise FileNotFoundError fs
  | Some Dir => Raise IsADirectoryError fs
  | Some _ => Return tt (delete p fs)
  end.

End os.

(** ** [tarfile] *)

Module tarfile.

(** The named extraction filters of the library, from the one that
    changes and refuses nothing to the strictest. *)
Inductive extraction_filter :=
  | fully_trusted      (* [filter="fully_trusted"] *)
  | tar                (* [filter="tar"] *)
  | data.              (* [filter="data"] *)

(** What a filter makes of a member about to be extracted below
    [dest_path]: the member to extract (possibly renamed), or a refusal.
    [fully_trusted] returns the member as it is.  [tar] strips leading
    slashes from the name and refuses a name that leads out of
    [dest_path]; [data] refuses devices and pipes as well.  Permission
    bits and link targets are not part of the model. *)
Definition apply_filter (f : extraction_filter) (member : TarInfo)
    (dest_path : string) : exn + TarInfo :=
  match f with
  | fully_trusted => inr member
  | tar | data =>
      let n := name member in
      let n := if Str.startswith n "/" then Str.lstrip_slash n else n in
      if negb (Lexical.within dest_path (os_path.join dest_path n))
      then inl OutsideDestinationError
      else
        match f, type member with
        | data, (CHRTYPE | BLKTYPE | FIFOTYPE) => inl SpecialFileError
        | _, _ => inr (set_name member n)
        end
  end.

(** [tarfile.open(file_path)] followed by [tar.getmembers()].  The members
    come with their bytes, which the library reads from the container only
    when a member is extracted: a container that the extraction itself
    overwrites is not seen to lose them. *)
Definition open (file_path : string) : io (list TarInfo) := fun fs =>
  match fs !! file_path with
  | Some (File (TarArchive members)) => Return members fs
  | Some (File (Bytes _)) | Some Special => Raise ReadError fs
  | Some Dir => Raise IsADirectoryError fs
  | None => Raise FileNotFoundError fs
  end.

(** The path at which a member named [n] is materialised below [path]:
    [os.path.join(path, n)] with trailing slashes removed. *)
Definition target_path (path n : string) : string :=
  Str.rstrip_slash (os_path.join path n).

(** [TarFile._extract_member]: create the missing upper directories, then
    make the file, the directory, or the special file. *)
Definition extract_member (tarinfo : TarInfo) (targetpath : string)
    : io unit :=
  let targetpath := Str.rstrip_slash targetpath in
  let upperdirs := os_path.dirname targetpath in
  (fun fs =>
     if negb (String.eqb upperdirs "") && negb (os.path_exists fs upperdirs)
     then os.makedirs upperdirs fs else Return tt fs) ;;
  if isreg tarinfo then os.write_file targetpath (payload tarinfo)
  else if isdir tarinfo then
    (fun fs => match os.mkdir targetpath fs with
               | Raise FileExistsError fs' =>
                   if os.path_isdir fs' targetpath
                   then Return tt fs' else Raise FileExistsError fs'
               | o => o
               end)
  else
    (fun fs => match fs !! targetpath, os.parent fs targetpath with
               | None, os.ParentIsDir =>
                   Return tt (<[targetpath := Special]> fs)
               | Some _, _ => Raise FileExistsError fs
               | None, os.ParentIsNotDir => Raise NotADirectoryError fs
               | None, os.ParentMissing => Raise FileNotFoundError fs
               end).

(** [tar.extract(member, path=path, filter=f)] *)
Definition extract (member : TarInfo) (path : string)
    (f : extraction_filter) : io unit :=
  match apply_filter f member path with
  | inl e => raise e
  | inr tarinfo => extract_member tarinfo (os_path.join path (name tarinfo))
  end.

End tarfile.

(** ** [pandas]

    A [DataFrame] is its column labels and its rows, each row carrying its
    index label and one cell per column; [None] is a missing value (NaN, or
    Python's [None]).

    [read_csv] is modelled on the tokenizer of the C parser
    ([pandas/_libs/src/parser/tokenizer.c]), with the settings the loader
    leaves at their defaults: fields may be quoted with the double quote,
    a quote is doubled inside a quoted field, a line ends with a line feed,
    a carriage return or both, and lines with nothing on them but spaces
    are skipped.  Left out:
    - types: cells are kept as the bytes of the file; that a column of
      numerals is read as numbers does not change which cells are missing;
    - decoding: the bytes are not checked to be UTF-8, and a byte zero does
      not cut a field short;
    - the index taken from the file: when the header has more names than
      [usecols] and the first record has more fields than the header,
      pandas takes the surplus leading fields as index labels and shifts
      the names; here the rows are always labelled by position;
    - repeated header names are not renamed (a repeated name counts at its
      first position only);
    - where the tokenizer goes back to the start of a line that began with
      spaces, it is taken to reach the start of that line, also when the
      line before ended with a bare carriage return.
    Cells being bytes, a statement about a cell is about the text of the
    field; the statements that depend on the decoding, on the index or on
    the line ends say so in their hypotheses. *)

Module pd.

Definition cell := option string.

Record DataFrame := mkDataFrame {
  columns : list string;
  rows : list (nat * list cell);
}.

(** A column of a frame: one value per row. *)
Definition Series := list cell.

(** The strings [read_csv] reads as missing by default. *)
Definition na_values : list string :=
  [""; "#N/A"; "#N/A N/A"; "#NA"; "-1.#IND"; "-1.#QNAN"; "-NaN"; "-nan";
   "1.#IND"; "1.#QNAN"; "<NA>"; "N/A"; "NA"; "NULL"; "NaN"; "None"; "n/a";
   "nan"; "null"].

Definition parse_cell (field : option string) : cell :=
  match field with
  | Some s => if bool_decide (s ∈ na_values) then None else Some s
  | None => None                  (* a short line reads as empty fields *)
  end.

Definition newline : ascii := ascii_of_nat 10.
Definition carriage_return : ascii := ascii_of_nat 13.
Definition quotechar : ascii := ascii_of_nat 34.

(** Position of the first occurrence of [x]. *)
Fixpoint index_of (x : string) (l : list string) : option nat :=
  match l with
  | [] => None
  | y :: l' => if String.eqb x y then Some 0 else S <$> index_of x l'
  end.

(** [enumerate(l)] *)
Definition enumerate {A} (l : list A) : list (nat * A) :=
  zip (seq 0 (length l)) l.

(** *** The tokenizer *)

Inductive tokenizer_state :=
  | START_RECORD
  | WHITESPACE_LINE (spaces : string)   (* the spaces read on this line *)
  | START_FIELD
  | IN_FIELD
  | IN_QUOTED_FIELD
  | QUOTE_IN_QUOTED_FIELD
  | EAT_CRNL
  | EAT_CRNL_NOP.

Record parser := mkParser {
  state : tokenizer_state;
  word : string;                 (* the field being read *)
  words : list string;           (* the fields of the line being read *)
  lines : list (list string);    (* the lines that are complete *)
}.

Definition parser_new : parser :=
  {| state := START_RECORD; word := ""; words := []; lines := [] |}.

Definition set_state (s : tokenizer_state) (p : parser) : parser :=
  {| state := s; word := word p; words := words p; lines := lines p |}.

(** [PUSH_CHAR(c)] *)
Definition push_char (c : ascii) (p : parser) : parser :=
  {| state := state p; word := word p +:+ String c "";
     words := words p; lines := lines p |}.

(** [END_FIELD()] *)
Definition end_field (p : parser) : parser :=
  {| state := state p; word := "";
     words := (words p ++ [word p])%list; lines := lines p |}.

(** [END_LINE()].  With [usecols] a line may have more fields than the
    header; the fields a line lacks are read as empty ones later, which is
    what the tokenizer's padding of a short line comes to. *)
Definition end_line (p : parser) : parser :=
  {| state := START_RECORD; word := word p;
     words := []; lines := (lines p ++ [words p])%list |}.

(** [IS_WHITESPACE(c) && c != self->delimiter] *)
Definition is_whitespace (sep c : ascii) : bool :=
  (Ascii.eqb c " " || Ascii.eqb c (ascii_of_nat 9)) && negb (Ascii.eqb c sep).

Definition start_field (sep c : ascii) (p : parser) : parser :=
  if Ascii.eqb c newline then end_line (end_field p)
  else if Ascii.eqb c carriage_return then set_state EAT_CRNL (end_field p)
  else if Ascii.eqb c quotechar then set_state IN_QUOTED_FIELD p
  else if Ascii.eqb c sep then set_state START_FIELD (end_field p)
  else set_state IN_FIELD (push_char c p).

Definition in_field (sep c : ascii) (p : parser) : parser :=
  if Ascii.eqb c newline then end_line (end_field p)
  else if Ascii.eqb c carriage_return then set_state EAT_CRNL (end_field p)
  else if Ascii.eqb c sep then set_state START_FIELD (end_field p)
  else push_char c p.

(** An empty line is skipped ([skip_blank_lines=True]). *)
Definition start_record (sep c : ascii) (p : parser) : parser :=
  if Ascii.eqb c newline then set_state START_RECORD p
  else if Ascii.eqb c carriage_return then set_state EAT_CRNL_NOP p
  else if is_whitespace sep c then set_state (WHITESPACE_LINE (String c "")) p
  else start_field sep c (set_state START_FIELD p).

(** One step of the loop of [tokenize_bytes].  Where the C code steps back
    to read a character again in another state, that state's step is
    applied to it here. *)
Definition tokenize_byte (sep : ascii) (p : parser) (c : ascii) : parser :=
  match state p with
  | START_RECORD => start_record sep c p
  | WHITESPACE_LINE spaces =>
      if Ascii.eqb c newline then set_state START_RECORD p
      else if Ascii.eqb c carriage_return then set_state EAT_CRNL_NOP p
      else if is_whitespace sep c
      then set_state (WHITESPACE_LINE (spaces +:+ String c "")) p
      else
        (* back to the start of the line: the spaces begin its first
           field *)
        in_field sep c
          {| state := IN_FIELD; word := spaces;
             words := words p; lines := lines p |}
  | START_FIELD => start_field sep c p
  | IN_FIELD => in_field sep c p
  | IN_QUOTED_FIELD =>
      if Ascii.eqb c quotechar then set_state QUOTE_IN_QUOTED_FIELD p
      else push_char c p
  | QUOTE_IN_QUOTED_FIELD =>
      if Ascii.eqb c quotechar
      then set_state IN_QUOTED_FIELD (push_char c p)
      else if Ascii.eqb c sep then set_state START_FIELD (end_field p)
      else if Ascii.eqb c newline then end_line (end_field p)
      else if Ascii.eqb c carriage_return
      then set_state EAT_CRNL (end_field p)
      else set_state IN_FIELD (push_char c p)
  | EAT_CRNL =>
      if Ascii.eqb c newline then end_line p
      else start_record sep c (end_line p)
  | EAT_CRNL_NOP =>
      if Ascii.eqb c newline || Ascii.eqb c sep then set_state START_RECORD p
      else start_record sep c (set_state START_RECORD p)
  end.

Fixpoint tokenize_bytes (sep : ascii) (p : parser) (buf : string) : parser :=
  match buf with
  | "" => p
  | String c buf' => tokenize_bytes sep (tokenize_byte sep p c) buf'
  end.

(** [parser_handle_eof]: the lines of the text, or [None] when the text
    ends inside a quoted field. *)
Definition handle_eof (p : parser) : option (list (list string)) :=
  match state p with
  | START_RECORD | WHITESPACE_LINE _ | EAT_CRNL_NOP => Some (lines p)
  | IN_QUOTED_FIELD => None
  | START_FIELD | IN_FIELD | QUOTE_IN_QUOTED_FIELD =>
      Some (lines (end_line (end_field p)))
  | EAT_CRNL => Some (lines (end_line p))
  end.

(** A byte order mark at the start of the text is passed over. *)
Definition byte_order_mark : string :=
  String (ascii_of_nat 239) (String (ascii_of_nat 187)
    (String (ascii_of_nat 191) "")).

Definition skip_bom (text : string) : string :=
  match text with
  | String b1 (String b2 (String b3 rest)) =>
      if String.eqb (String b1 (String b2 (String b3 ""))) byte_order_mark
      then rest else text
  | _ => text
  end.

(** The columns [usecols] keeps, each with its position, in file order. *)
Definition kept_columns (header usecols : list string)
    : list (nat * string) :=
  filter (λ ic, ic.2 ∈ usecols ∧ index_of ic.2 header = Some ic.1)
         (enumerate header).

(** The cells of a line in the kept columns. *)
Definition parse_fields (kept : list (nat * string)) (fields : list string)
    : list cell :=
  (λ ic, parse_cell (fields !! ic.1)) <$> kept.

(** [pd.read_csv(file_path, sep=sep, usecols=usecols)]: the first line that
    is not skipped is the header; every name of [usecols] must be in it.
    The header is looked at when two lines have been read, and the rest of
    the text after that: a text that ends inside a quoted field raises
    [ParserError] then, unless a name was found missing before. *)
Definition read_csv (file_path : string) (sep : ascii)
    (usecols : list string) : io DataFrame := fun fs =>
  match fs !! file_path with
  | None => Raise FileNotFoundError fs
  | Some Dir => Raise IsADirectoryError fs
  | Some Special | Some (File (TarArchive _)) => Raise ParserError fs
  | Some (File (Bytes text)) =>
      let p := tokenize_bytes sep parser_new (skip_bom text) in
      match handle_eof p with
      | None =>
          match lines p with
          | header :: _ :: _ =>
              if bool_decide (Forall (λ c, c ∈ header) usecols)
              then Raise ParserError fs
              else Raise ValueError fs
          | _ => Raise ParserError fs
          end
      | Some [] => Raise EmptyDataError fs
      | Some (header :: records) =>
          if bool_decide (Forall (λ c, c ∈ header) usecols) then
            let kept := kept_columns header usecols in
            Return {| columns := snd <$> kept;
                      rows := (λ kr, (kr.1, parse_fields kept kr.2))
                                <$> enumerate records |}
                   fs
          else Raise ValueError fs
      end
  end.

(** [df[label]] *)
Definition getitem (df : DataFrame) (label : string) : io Series :=
  match index_of label (columns df) with
  | Some j => ret ((λ r, mjoin (snd r !! j)) <$> rows df)
  | None => raise KeyError
  end.

(** [series.notna()] *)
Definition notna (s : Series) : list bool := (λ v, bool_decide (is_Some v)) <$> s.

(** [df[mask]]: the rows at which the mask is true, index labels kept. *)
Definition select (df : DataFrame) (mask : list bool) : DataFrame :=
  {| columns := columns df;
     rows := fst <$> filter (λ rb, snd rb = true) (zip (rows df) mask) |}.

(** [series.apply(f)] *)
Definition apply (s : Series) (f : cell → cell) : Series := f <$> s.

(** [df[label] = series] for a column the frame already has. *)
Definition setitem (df : DataFrame) (label : string) (s : Series)
    : io DataFrame :=
  match index_of label (columns df) with
  | Some j =>
      ret {| columns := columns df;
             rows := zip_with (λ r v, (fst r, <[j := v]> (snd r))) (rows df) s |}
  | None => raise KeyError
  end.

End pd.

(** ** [utils/file_utils.py]

    The functions of the source file, statement by statement.  The
    [logging.info] calls do not touch the file system and are left out; a
    Python exception is a [Raise] outcome, which [bind] passes on. *)

(** The body of the loop over [tar.getmembers()]. *)
Definition extract_member_if_wanted (extract_path : string) (member : TarInfo)
    : io unit :=
  if isfile member then
    if Str.endswith (name member) "validated.tsv" then
      let member := set_name member "validated.tsv" in
      tarfile.extract member extract_path tarfile.fully_trusted
    else if Str.contains "clips/" (name member) then
      let member :=
        set_name member
          (os_path.join "clips" (os_path.basename (name member))) in
      tarfile.extract member extract_path tarfile.fully_trusted
    else ret tt
  else ret tt.

(** The [with tarfile.open(file_path) as tar:] block. *)
Definition extract_members (file_path extract_path : string) : io unit :=
  members <- tarfile.open file_path ;;
  for_each members (extract_member_if_wanted extract_path).

Definition extract_validated_and_clips_from_tar
    (file_path extract_path : string) : io unit :=
  extract_members file_path extract_path ;;
  os.remove file_path.

(** [lambda x: 'male' if x in ['male_masculine', 'male'] else 'female'
    if x in ['female_feminine', 'female'] else None] *)
Definition simplify_gender (x : pd.cell) : pd.cell :=
  if bool_decide (x ∈ [Some "male_masculine"; Some "male"]) then Some "male"
  else if bool_decide (x ∈ [Some "female_feminine"; Some "female"])
  then Some "female"
  else None.

Definition tab : ascii := ascii_of_nat 9.

Definition load_validated_data (file_path : string) : io pd.DataFrame :=
  df <- pd.read_csv file_path tab ["path"; "gender"] ;;
  gender <- pd.getitem df "gender" ;;
  let df := pd.select df (pd.notna gender) in
  gender <- pd.getitem df "gender" ;;
  df <- pd.setitem df "gender" (pd.apply gender simplify_gender) ;;
  ret df.

(** ** Vocabulary of the statements *)

(** What [os.path.join(a, _)] puts in front of a relative second part. *)
Definition join_prefix (a : string) : string :=
  if String.eqb a "" || Str.endswith a "/" then a else a +:+ "/".

(** Where the extractor puts the metadata file and a clip below
    [extract_path]. *)
Definition validated_target (extract_path : string) : string :=
  tarfile.target_path extract_path "validated.tsv".

Definition clip_target (extract_path basename : string) : string :=
  tarfile.target_path extract_path (os_path.join "clips" basename).

(** [p] lies below the directory [dir]: it starts with [dir] and a slash. *)
Definition under (dir p : string) : bool :=
  String.prefix (os_path.join dir "") p.

Definition clips_dir (extract_path : string) : string :=
  os_path.join extract_path "clips".

(** The two tests of the loop body, as the source writes them: the first
    branch, and the [elif] branch (reached only when the first test fails). *)
Definition is_metadata (member : TarInfo) : bool :=
  isfile member && Str.endswith (name member) "validated.tsv".

Definition is_clip (member : TarInfo) : bool :=
  isfile member && negb (Str.endswith (name member) "validated.tsv")
  && Str.contains "clips/" (name member).

(** The path a member is written to, if it is extracted at all. *)
Definition destination (extract_path : string) (member : TarInfo)
    : option string :=
  if is_metadata member then Some (validated_target extract_path)
  else if is_clip member
  then Some (clip_target extract_path (os_path.basename (name member)))
  else None.

(** [clips] is one of the directories on the way to the member: a component
    of its name other than the last. *)
Definition has_clips_segment (n : string) : bool :=
  match reverse (Str.split "/" n) with
  | _ :: dirs => bool_decide ("clips" ∈ dirs)
  | [] => false
  end.

(** At [p], [fs'] has what [fs] has, or a new directory; [fs'] grows from
    [fs] when that holds at every path. *)
Definition kept (fs fs' : filesystem) (p : string) : Prop :=
  fs' !! p = fs !! p ∨ (fs !! p = None ∧ fs' !! p = Some Dir).

Definition grows (fs fs' : filesystem) : Prop := ∀ p, kept fs fs' p.

(** A regular file can be opened for writing at [t]. *)
Definition writable (fs : filesystem) (t : string) : Prop :=
  t ≠ "" ∧ (os_path.basename t ∉ [""; "."; ".."])
  ∧ fs !! t ≠ Some Dir ∧ os.parent fs t = os.ParentIsDir.

(** The last member of the archive written to [p]. *)
Definition last_written (extract_path : string) (members : list TarInfo)
    (p : string) : option TarInfo :=
  last (filter (λ m, destination extract_path m = Some p) members).

(** The files of [fs'] that [fs] did not have with the same content. *)
Definition is_file (x : node) : bool :=
  match x with File _ => true | _ => false end.

Definition new_files (fs fs' : filesystem) : gset string :=
  dom (filter (λ kv, is_file kv.2 = true ∧ fs !! kv.1 ≠ Some kv.2) fs').

(** A file system without links, devices and pipes. *)
Definition link_free (fs : filesystem) : Prop := ∀ q, fs !! q ≠ Some Special.

(** ** Vocabulary of the statements about the loader *)

(** The value a row of a frame has in the column [label]. *)
Definition field (df : pd.DataFrame) (row : nat * list pd.cell)
    (label : string) : pd.cell :=
  match pd.index_of label (pd.columns df) with
  | Some j => mjoin (row.2 !! j)
  | None => None
  end.

(** The records of a tab-separated text, in the words of the
    specification: one record per line, a line ending with a line feed that
    a carriage return may precede; lines with nothing on them but spaces do
    not count; the fields of a record are what stands between its tabs. *)
Fixpoint chomp (line : string) : string :=
  match line with
  | "" => ""
  | String c rest =>
      if Ascii.eqb c pd.carriage_return && String.eqb rest "" then ""
      else String c (chomp rest)
  end.

Fixpoint is_blank (line : string) : bool :=
  match line with
  | "" => true
  | String c line' => Ascii.eqb c " " && is_blank line'
  end.

Definition tsv_lines (text : string) : list string :=
  filter (λ l, is_blank l = false) (chomp <$> Str.split pd.newline text).

Definition tsv_records (text : string) : list (list string) :=
  Str.split tab <$> tsv_lines text.

(** The texts for which the records above are all there is to say: ASCII
    text without a byte zero, in which no field begins with a double quote
    (a double quote further on in a field is a character like another) and
    no carriage return stands elsewhere than before a line feed.
    [at_start] says that a field begins here. *)
Definition plain_byte (c : ascii) : bool :=
  bool_decide (0 < nat_of_ascii c < 128)%nat.

Fixpoint plain_from (at_start : bool) (text : string) : bool :=
  match text with
  | "" => true
  | String c rest =>
      plain_byte c
      && negb (at_start && Ascii.eqb c pd.quotechar)
      && (if Ascii.eqb c pd.carriage_return
          then Str.startswith rest (String pd.newline "") else true)
      && plain_from (Ascii.eqb c tab || Ascii.eqb c pd.newline) rest
  end.

Definition plain_text (text : string) : bool := plain_from true text.

(** The value that a record has under the column [label] of the header. *)
Definition raw_field (header fields : list string) (label : string)
    : pd.cell :=
  match pd.index_of label header with
  | Some i => pd.parse_cell (fields !! i)
  | None => None
  end.

(** The first record is no longer than the header, or the header has two
    names only: the rows are then labelled by position. *)
Definition labelled_by_position (header : list string)
    (records : list (list string)) : Prop :=
  length header = 2%nat
  ∨ ∀ fields, head records = Some fields →
              (length fields ≤ length header)%nat.

(** The category the specification assigns to a raw gender label. *)
Definition category (raw : string) : pd.cell :=
  if bool_decide (raw = "male" ∨ raw = "male_masculine") then Some "male"
  else if bool_decide (raw = "female" ∨ raw = "female_feminine")
  then Some "female"
  else None.

(** ** Notions for the proofs about the tokenizer *)

(** The inside of a line: no line feed, no carriage return, and no double
    quote where a field begins. *)
Fixpoint line_body (at_start : bool) (b : string) : bool :=
  match b with
  | "" => true
  | String c b' =>
      negb (Ascii.eqb c pd.newline) && negb (Ascii.eqb c pd.carriage_return)
      && negb (at_start && Ascii.eqb c pd.quotechar)
      && line_body (Ascii.eqb c tab) b'
  end.

(** The pieces of a text cut at its line feeds: each but the last is a line
    with or without a carriage return at its end, the last one is what
    follows the last line feed.  [at_start] is for the first piece. *)
Fixpoint pieces_of_plain_text (at_start : bool) (pieces : list string)
    : Prop :=
  match pieces with
  | [] => False
  | [s] => line_body at_start s = true
  | s :: rest =>
      line_body at_start (chomp s) = true ∧ pieces_of_plain_text true rest
  end.

(** The pieces put together again. *)
Fixpoint unlines (pieces : list string) : string :=
  match pieces with
  | [] => ""
  | [s] => s
  | s :: rest => s +:+ String pd.newline (unlines rest)
  end.

(** The fields of a line of which [w] was read before: [w] begins the
    first of them. *)
Definition attach (w : string) (fields : list string) : list string :=
  match fields with
  | f :: fields' => (w +:+ f) :: fields'
  | [] => [w]
  end.

(** The tokenizer between two lines, and inside an unquoted line. *)
Definition at_record (L : list (list string)) : pd.parser :=
  {| pd.state := pd.START_RECORD; pd.word := ""; pd.words := [];
     pd.lines := L |}.

Definition idle (p : pd.parser) (L : list (list string)) : Prop :=
  (pd.state p = pd.START_RECORD ∨ ∃ sp, pd.state p = pd.WHITESPACE_LINE sp)
  ∧ pd.word p = "" ∧ pd.words p = [] ∧ pd.lines p = L.

Definition in_line (p : pd.parser) : Prop :=
  pd.state p = pd.START_FIELD ∨ pd.state p = pd.IN_FIELD.

Definition at_field_start (p : pd.parser) : bool :=
  match pd.state p with pd.START_FIELD => true | _ => false end.

(** ** Sample inputs *)

(** A regular-file member. *)
Definition regular (n bytes : string) : TarInfo := mkTarInfo n REGTYPE bytes.

(** The container [cv.tar] downloaded next to an empty directory [out]. *)
Definition staged (members : list TarInfo) : filesystem :=
  <["cv.tar" := File (TarArchive members)]> (<["out" := Dir]> ∅).

(** The same, with a directory standing where the metadata file should go. *)
Definition staged_blocked (members : list TarInfo) : filesystem :=
  <["out/validated.tsv" := Dir]> (staged members).

(** ** Extraction policies *)

Definition refuses (f : tarfile.extraction_filter) (member : TarInfo)
    (dest_path : string) : bool :=
  match tarfile.apply_filter f member dest_path with
  | inl _ => true
  | inr _ => false
  end.

(** [f] refuses whatever any filter of the library refuses. *)
Definition most_restrictive (f : tarfile.extraction_filter) : Prop :=
  ∀ g member dest_path,
    refuses g member dest_path = true → refuses f member dest_path = true.

(** A member [f] lets through has a name that stays within the
    destination. *)
Definition clamps_names (f : tarfile.extraction_filter) : Prop :=
  ∀ member dest_path member',
    tarfile.apply_filter f member dest_path = inr member' →
    Lexical.within dest_path (os_path.join dest_path (name member')) = true.

(** ** A sample metadata file *)

(** A line of three tab-separated fields. *)
Definition tsv_line (a b c : string) : string :=
  a +:+ String tab (b +:+ String tab (c +:+ String pd.newline "")).

Definition sample_tsv : string :=
  tsv_line "client_id" "path" "gender"
  +:+ tsv_line "c1" "a.mp3" "male"
  +:+ tsv_line "c2" "b.mp3" "female_feminine"
  +:+ tsv_line "c3" "c.mp3" ""
  +:+ tsv_line "c4" "d.mp3" "other".

(** The same file without its [gender] column. *)
Definition sample_tsv_no_gender : string :=
  tsv_line "client_id" "path" "age"
  +:+ tsv_line "c1" "a.mp3" "teens".

Definition only_file (file_path text : string) : filesystem :=
  {[ file_path := File (Bytes text) ]}.

(** The frame [read_csv] makes of the sample. *)
Definition sample_frame : pd.DataFrame :=
  {| pd.columns := ["path"; "gender"];
     pd.rows := [(0, [Some "a.mp3"; Some "male"]);
                 (1, [Some "b.mp3"; Some "female_feminine"]);
                 (2, [Some "c.mp3"; None]);
                 (3, [Some "d.mp3"; Some "other"])]%nat |}.

(** A metadata file as a spreadsheet program would write it: the lines end
    with a carriage return and a line feed, and the fields with a tab or a
    line end in them, or a double quote (then doubled), stand between
    double quotes. *)
Definition quoted (s : string) : string :=
  String pd.quotechar (s +:+ String pd.quotechar "").

Definition crlf_line (a b c : string) : string :=
  a +:+ String tab (b +:+ String tab
    (c +:+ String pd.carriage_return (String pd.newline ""))).

Definition sample_tsv_quoted : string :=
  crlf_line "gender" "sentence" "path"
  +:+ crlf_line "male" (quoted ("one" +:+ String tab "two")) "a.mp3"
  +:+ crlf_line "" "three" "b.mp3"
  +:+ crlf_line (quoted "other")
        (quoted ("four" +:+ String pd.newline "five")) "c.mp3"
  +:+ crlf_line "female"
        (quoted ("six " +:+ String pd.quotechar (String pd.quotechar "seven")))
        (quoted "d.mp3").

Definition sample_frame_quoted : pd.DataFrame :=
  {| pd.columns := ["gender"; "path"];
     pd.rows := [(0, [Some "male"; Some "a.mp3"]);
                 (1, [None; Some "b.mp3"]);
                 (2, [Some "other"; Some "c.mp3"]);
                 (3, [Some "female"; Some "d.mp3"])]%nat |}.

(** A plain text with double quotes inside a field. *)
Definition sample_tsv_inner_quote : string :=
  tsv_line "path" "sentence" "gender"
  +:+ tsv_line "a.mp3" ("say " +:+ quoted "hi") "male".

(** A text that ends inside a quoted field. *)
Definition sample_tsv_unterminated : string :=
  tsv_line "client_id" "path" "gender"
  +:+ tsv_line "c1" (String pd.quotechar "a.mp3") "male".

(** ** [shutil] *)

Module shutil.

(** [shutil.rmtree(path)]: the directory at [path] goes with everything
    below it.  Anything else at [path] is refused: a regular file, a device
    or a pipe with [NotADirectoryError]; a symbolic link with a plain
    [OSError], for which [exn] has no name, so that the statements say
    which error it is for regular files only.  The root directory is no
    entry of the file system, and removing it is outside the model. *)
Definition rmtree (path : string) : io unit := fun fs =>
  match fs !! path with
  | None => Raise FileNotFoundError fs
  | Some Dir =>
      Return tt (filter (λ kv, kv.1 ≠ path ∧ under path kv.1 = false) fs)
  | Some _ => Raise NotADirectoryError fs
  end.

End shutil.

(** ** [requests]

    The response to a streamed GET: the header fields under their
    lower-cased names, and what [iter_content] yields, which is the pieces
    of the body received and, when the transfer breaks off, the exception
    that ends the iteration (any exception will do: [exn] has no name of
    its own for the errors of the network). *)

Module requests.

Record Response := mkResponse {
  headers : gmap string string;
  iter_content : nat → list string * option exn;
}.

End requests.

(** ** [utils/file_utils.py], the other functions

    As before, the [logging.info] calls are left out. *)

Definition ensure_directory_exists (path : string) : io unit := fun fs =>
  if negb (os.path_exists fs path) then os.makedirs_with false path fs
  else Return tt fs.

Definition delete_directory_if_exists (path : string) : io unit := fun fs =>
  if os.path_exists fs path then shutil.rmtree path fs
  else Return tt fs.

(** [url.split("/")[-1].split("?")[0]], the name that [download_file]
    shows in its log lines and on its progress bar. *)
Definition download_file_name (url : string) : string :=
  default "" (head (Str.split "?" (default "" (last (Str.split "/" url))))).

(** [download_file], for a network that answers [requests.get(url,
    stream=True)] with [requests_get url] and an [int] that reads a header
    value as [int] does.  The log lines and the progress bar do not touch
    the file system and are left out. *)
Section download.

Context (requests_get : string → exn + requests.Response).
Context (int : string → option Z).

Definition content_length (response : requests.Response) : io Z :=
  match requests.headers response !! "content-length" with
  | Some value =>
      match int value with
      | Some n => ret n
      | None => raise ValueError
      end
  | None => ret 0%Z
  end.

Definition download_file (url save_path : string) : io unit :=
  response <- (match requests_get url with
               | inr response => ret response
               | inl e => raise e
               end) ;;
  total_size <- content_length response ;;
  let block_size := 1024 in
  os.write_file save_path "" ;;
  for_each (requests.iter_content response block_size).1
    (λ data, os.write_more save_path data) ;;
  match (requests.iter_content response block_size).2 with
  | Some e => raise e
  | None => ret tt
  end.

End download.

(** ** Vocabulary of the statements about directories *)

(** A path written without empty, [.] or [..] components: no doubled or
    trailing slash, not the empty path and not the root.  The empty first
    component of an absolute path does not count. *)
Definition plain (p : string) : bool :=
  forallb (λ c, bool_decide (c ∉ [""; "."; ".."]))
    (if Lexical.isabs p then tail (Str.split "/" p) else Str.split "/" p).

(** What [fs'] has more than [fs] is directories, at [p] or above it. *)
Definition created_towards (fs fs' : filesystem) (p : string) : Prop :=
  ∀ q, fs' !! q = fs !! q
       ∨ (fs !! q = None ∧ fs' !! q = Some Dir
          ∧ (q = p ∨ under q p = true)).

(** The bytes of a list of pieces, one after the other. *)
Definition concat_bytes (pieces : list string) : string :=
  foldr String.append "" pieces.

(** A sample tree: a directory [data] that holds a file and a
    subdirectory with a file, next to a file [notes]. *)
Definition sample_tree : filesystem :=
  <["data" := Dir]> (<["data/a.txt" := File (Bytes "a")]>
  (<["data/sub" := Dir]> (<["data/sub/b.txt" := File (Bytes "b")]>
  (<["notes" := File (Bytes "n")]> ∅)))).

(** Nothing stands in the way of extracting [members] below the directory
    [dest]: [dest] is a directory, no file stands where its [clips]
    directory goes, and no directory stands where a member is written. *)
Definition unobstructed (fs : filesystem) (dest : string)
    (members : list TarInfo) : Prop :=
  fs !! dest = Some Dir
  ∧ (fs !! clips_dir dest = None ∨ fs !! clips_dir dest = Some Dir)
  ∧ ∀ m t, m ∈ members → destination dest m = Some t → fs !! t ≠ Some Dir.

(** What an outcome gives back, without the file system. *)
Definition result_of {A} (o : outcome A) : exn + A :=
  match o with Return a _ => inr a | Raise e _ => inl e end.
(** ** Permission bits

    The file system above keeps no permission bits: its [os.write_file] is
    the open of a process that may write every regular file it meets, as
    the superuser may.  For another process it matters that [tar.extract]
    leaves each file with the mode recorded for its member (the
    [fully_trusted] filter passes the mode on, and [TarFile.chmod] applies
    it): a file left without write permission for its owner cannot be
    opened for writing again.  [Modes] adds that much: the functions of the
    extractor carry the set of the regular files that the process may not
    open for writing.  The files below the destination are taken to belong
    to the process; the bits of directories are not kept. *)

Module Modes.

(** [member.mode & 0o200] *)
Definition owner_may_write (member : TarInfo) : bool :=
  N.testbit (mode member) 7.

(** [tar.extract(member, path=path, filter="fully_trusted")] by a process
    that is the superuser ([privileged]) or is not.  The open of a locked
    regular file fails; a file that was written is then locked, or not, as
    the mode of its member says. *)
Definition extract (privileged : bool) (member : TarInfo) (path : string)
    (locked : gset string) : io (gset string) := fun fs =>
  let targetpath := tarfile.target_path path (name member) in
  let regular_there :=
    match fs !! targetpath with Some (File _) => true | _ => false end in
  if isreg member && negb privileged
     && bool_decide (targetpath ∈ locked) && regular_there
  then Raise PermissionError fs
  else
    match tarfile.extract member path tarfile.fully_trusted fs with
    | Return _ fs' =>
        Return (if isreg member
                then if owner_may_write member
                     then locked ∖ {[targetpath]}
                     else locked ∪ {[targetpath]}
                else locked)
               fs'
    | Raise e fs' => Raise e fs'
    end.

(** The body of the loop over [tar.getmembers()]. *)
Definition extract_member_if_wanted (privileged : bool)
    (extract_path : string) (member : TarInfo) (locked : gset string)
    : io (gset string) :=
  if isfile member then
    if Str.endswith (name member) "validated.tsv" then
      let member := set_name member "validated.tsv" in
      extract privileged member extract_path locked
    else if Str.contains "clips/" (name member) then
      let member :=
        set_name member
          (os_path.join "clips" (os_path.basename (name member))) in
      extract privileged member extract_path locked
    else ret locked
  else ret locked.

(** The loop. *)
Fixpoint extract_each (privileged : bool) (extract_path : string)
    (members : list TarInfo) (locked : gset string) : io (gset string) :=
  match members with
  | [] => ret locked
  | member :: members' =>
      locked' <- extract_member_if_wanted privileged extract_path member
                   locked ;;
      extract_each privileged extract_path members' locked'
  end.

Definition extract_validated_and_clips_from_tar (privileged : bool)
    (file_path extract_path : string) (locked : gset string)
    : io (gset string) :=
  members <- tarfile.open file_path ;;
  locked' <- extract_each privileged extract_path members locked ;;
  os.remove file_path ;;
  ret (locked' ∖ {[file_path]}).

End Modes.

(** A clip stored read-only, [0o444]. *)
Definition read_only (n bytes : string) : TarInfo :=
  mkTarInfoWithMode n REGTYPE bytes 292.
(** * Properties *)

(** ** The string and path operations on examples *)

Example endswith_ex1 : Str.endswith "en/validated.tsv" "validated.tsv" = true.
Proof. reflexivity. Qed.
Example endswith_ex2 : Str.endswith "en/invalidated.tsv" "validated.tsv" = true.
Proof. reflexivity. Qed.
Example endswith_ex3 : Str.endswith "tsv" "validated.tsv" = false.
Proof. reflexivity. Qed.
Example contains_ex1 : Str.contains "clips/" "en/clips/a.mp3" = true.
Proof. reflexivity. Qed.
Example contains_ex2 : Str.contains "clips/" "en/clips" = false.
Proof. reflexivity. Qed.
Example basename_ex1 : os_path.basename "en/clips/x/1.mp3" = "1.mp3".
Proof. reflexivity. Qed.
Example basename_ex2 : os_path.basename "en/clips/" = "".
Proof. reflexivity. Qed.
Example basename_ex3 : os_path.basename "a.mp3" = "a.mp3".
Proof. reflexivity. Qed.
Example dirname_ex1 : os_path.dirname "out/clips/1.mp3" = "out/clips".
Proof. reflexivity. Qed.
Example dirname_ex2 : os_path.dirname "/out" = "/".
Proof. reflexivity. Qed.
Example dirname_ex3 : os_path.dirname "out" = "".
Proof. reflexivity. Qed.
Example dirname_ex4 : os_path.dirname "a//b" = "a".
Proof. reflexivity. Qed.
Example join_ex1 : os_path.join "clips" "1.mp3" = "clips/1.mp3".
Proof. reflexivity. Qed.
Example join_ex2 : os_path.join "out/" "validated.tsv" = "out/validated.tsv".
Proof. reflexivity. Qed.
Example join_ex3 : os_path.join "out" "/etc/passwd" = "/etc/passwd".
Proof. reflexivity. Qed.
Example join_ex4 : os_path.join "clips" "" = "clips/".
Proof. reflexivity. Qed.
Example rstrip_ex1 : Str.rstrip_slash "out/clips/" = "out/clips".
Proof. reflexivity. Qed.
Example rstrip_ex2 : Str.rstrip_slash "//" = "".
Proof. reflexivity. Qed.
Example split_ex1 : Str.split "/" "a//b/" = ["a"; ""; "b"; ""].
Proof. reflexivity. Qed.
Example within_ex1 : Lexical.within "out" "out/clips/a.mp3" = true.
Proof. reflexivity. Qed.
Example within_ex2 : Lexical.within "out" "out/../etc/passwd" = false.
Proof. reflexivity. Qed.
Example within_ex3 : Lexical.within "out" "out/clips/.." = true.
Proof. reflexivity. Qed.
Example within_ex4 : Lexical.within ".." "../.." = false.
Proof. reflexivity. Qed.
Example within_ex5 : Lexical.within "/tmp/out" "/tmp/out/../out/b" = true.
Proof. reflexivity. Qed.
Example within_ex6 : Lexical.within "out" "/etc/passwd" = false.
Proof. reflexivity. Qed.
Example within_ex7 : Lexical.within "" "validated.tsv" = true.
Proof. reflexivity. Qed.
(** ** Facts about the string and path operations *)

Section string_facts.

Implicit Types s t u v p : string.

Local Arguments String.append !_ _ / : simpl nomatch.

Lemma append_nil_r s : s +:+ "" = s.
Proof. induction s as [|c s IH]; simpl; [done | by rewrite IH]. Qed.

Lemma append_assoc s t u : (s +:+ t) +:+ u = s +:+ t +:+ u.
Proof. induction s as [|c s IH]; simpl; [done | by rewrite IH]. Qed.

Lemma append_length s t :
  String.length (s +:+ t) = String.length s + String.length t.
Proof. induction s as [|c s IH]; simpl; [done | by rewrite IH]. Qed.

Lemma append_cancel_l s t u : s +:+ t = s +:+ u → t = u.
Proof. induction s as [|c s IH]; simpl; [done | intros [=]; auto]. Qed.

Lemma string_eqb_true s t : String.eqb s t = true ↔ s = t.
Proof. apply String.eqb_eq. Qed.

Lemma string_eqb_false s t : String.eqb s t = false ↔ s ≠ t.
Proof. apply String.eqb_neq. Qed.

Lemma ascii_eqb_true (a b : ascii) : Ascii.eqb a b = true ↔ a = b.
Proof. apply Ascii.eqb_eq. Qed.

Lemma prefix_spec t s : String.prefix t s = true ↔ ∃ v, s = t +:+ v.
Proof.
  revert s. induction t as [|a t IH]; intros s.
  - split; [intros _; by exists s | by destruct s].
  - destruct s as [|b s]; simpl; [split; [done | by intros [v [=]]]|].
    destruct (ascii_dec a b) as [->|Hne].
    + rewrite IH. split; intros [v Hv]; exists v; [by rewrite Hv | by injection Hv].
    + split; [done | intros [v [=]]; congruence].
Qed.

Lemma prefix_nil s : String.prefix "" s = true.
Proof. by destruct s. Qed.

Lemma prefix_app t u v : String.prefix (t +:+ u) (t +:+ v) = String.prefix u v.
Proof.
  induction t as [|a t IH]; simpl; [done|].
  by destruct (ascii_dec a a).
Qed.

Lemma endswith_spec s t : Str.endswith s t = true ↔ ∃ u, s = u +:+ t.
Proof.
  induction s as [|c s IH]; cbn [Str.endswith].
  - destruct (String.eqb_spec "" t) as [<-|Hne].
    + split; [by exists "" | done].
    + split; [done|].
      intros [[|? ?] Hu]; simpl in Hu; [done | discriminate].
  - destruct (String.eqb_spec (String c s) t) as [<-|Hne].
    + split; [by exists "" | done].
    + rewrite IH. split.
      * intros [u ->]. by exists (String c u).
      * intros [[|a u] Hu]; simpl in Hu; [done|].
        injection Hu as -> ->. by exists u.
Qed.

Lemma contains_spec t s :
  Str.contains t s = true ↔ ∃ u v, s = u +:+ t +:+ v.
Proof.
  induction s as [|c s IH]; cbn [Str.contains].
  - destruct (String.prefix t "") eqn:E.
    + apply prefix_spec in E as [v Hv]. split; [by exists "", v | done].
    + split; [done|]. intros ([|? ?] & v & Hv); simpl in Hv; [|done].
      assert (String.prefix t "" = true) by (apply prefix_spec; eauto).
      congruence.
  - destruct (String.prefix t (String c s)) eqn:E.
    + apply prefix_spec in E as [v Hv]. split; [by exists "", v | done].
    + rewrite IH. split.
      * intros (u & v & ->). by exists (String c u), v.
      * intros ([|a u] & v & Hv); simpl in Hv.
        -- assert (String.prefix t (String c s) = true)
             by (apply prefix_spec; eauto).
           congruence.
        -- injection Hv as -> ->. by exists u, v.
Qed.

Lemma contains_false_app t u v :
  Str.contains t (u +:+ v) = false → Str.contains t v = false.
Proof.
  intros H. destruct (Str.contains t v) eqn:E; [|done].
  apply contains_spec in E as (a & b & ->).
  assert (Str.contains t (u +:+ a +:+ t +:+ b) = true) as Hc; [|congruence].
  apply contains_spec. exists (u +:+ a), b. by rewrite append_assoc.
Qed.

Lemma slash_free_cons c s :
  Str.slash_free (String c s) ↔ c ≠ "/"%char ∧ Str.slash_free s.
Proof.
  unfold Str.slash_free. cbn [Str.contains String.prefix].
  destruct (ascii_dec "/" c) as [<-|Hne].
  - rewrite prefix_nil. split; [done | by intros [? _]].
  - split; [intros ?; split; [congruence | done] | by intros [_ ?]].
Qed.

Lemma slash_free_nil : Str.slash_free "".
Proof. done. Qed.

(** *** [rstrip] *)

Lemma rstrip_slash_free s : Str.slash_free s → Str.rstrip_slash s = s.
Proof.
  induction s as [|c s IH]; [done|].
  intros [Hc Hs]%slash_free_cons. simpl. rewrite (IH Hs).
  destruct s; [|done].
  destruct (Ascii.eqb c "/") eqn:E; [|done].
  by apply ascii_eqb_true in E.
Qed.

Lemma rstrip_app_nonempty s t :
  Str.rstrip_slash t ≠ "" → Str.rstrip_slash (s +:+ t) = s +:+ Str.rstrip_slash t.
Proof.
  intros Ht. induction s as [|c s IH]; simpl; [done|].
  rewrite IH. destruct (s +:+ Str.rstrip_slash t) eqn:E; [|done].
  destruct s; simpl in E; [done | discriminate].
Qed.

Lemma rstrip_idemp s : Str.rstrip_slash (Str.rstrip_slash s) = Str.rstrip_slash s.
Proof.
  induction s as [|c s IH]; simpl; [done|].
  destruct (Str.rstrip_slash s) as [|d r] eqn:E.
  - destruct (Ascii.eqb c "/") eqn:Ec; simpl; [done | by rewrite Ec].
  - simpl in *. rewrite IH. done.
Qed.

(** *** [basename] and [dirname] *)

Lemma rpartition_spec p :
  p = fst (os_path.rpartition p) +:+ snd (os_path.rpartition p)
  ∧ Str.slash_free (snd (os_path.rpartition p))
  ∧ (fst (os_path.rpartition p) = "" ∨
     ∃ h, fst (os_path.rpartition p) = h +:+ "/").
Proof.
  induction p as [|c p (Heq & Hfree & Hhead)]; simpl;
    [split_and!; [done | done | by left]|].
  destruct (os_path.rpartition p) as [h t]; simpl in *.
  destruct h as [|a h].
  - simpl in Heq; subst t.
    destruct (Ascii.eqb c "/") eqn:E; simpl.
    + apply ascii_eqb_true in E as ->. split_and!; [done..|]. right. by exists "".
    + split_and!; [done| |by left].
      apply slash_free_cons. split; [|done].
      intros ->. by rewrite Ascii.eqb_refl in E.
  - simpl. split_and!; [by rewrite Heq | done |].
    right. destruct Hhead as [?|[h' Hh']]; [done|].
    exists (String c h'). simpl. by rewrite Hh'.
Qed.

Lemma basename_slash_free p : Str.slash_free (os_path.basename p).
Proof. apply rpartition_spec. Qed.

Lemma rpartition_app_slash_free s t :
  Str.slash_free t →
  os_path.rpartition (s +:+ "/" +:+ t) = (s +:+ "/", t).
Proof.
  intros Ht. induction s as [|c s IH]; simpl in *.
  - assert (os_path.rpartition t = ("", t)) as ->; [|done].
    clear -Ht. induction t as [|c t IH]; [done|].
    apply slash_free_cons in Ht as [Hc Ht]. simpl. rewrite (IH Ht).
    destruct (Ascii.eqb c "/") eqn:E; [|done].
    by apply ascii_eqb_true in E.
  - rewrite IH. by destruct s.
Qed.

Lemma basename_app_slash_free s t :
  Str.slash_free t → os_path.basename (s +:+ "/" +:+ t) = t.
Proof.
  intros Ht. unfold os_path.basename. by rewrite rpartition_app_slash_free.
Qed.

Lemma basename_of_slash_free t : Str.slash_free t → os_path.basename t = t.
Proof.
  intros Ht. unfold os_path.basename.
  induction t as [|c t IH]; [done|].
  apply slash_free_cons in Ht as [Hc Ht]. simpl.
  specialize (IH Ht). destruct (os_path.rpartition t) as [h u] eqn:E.
  simpl in IH; subst u.
  pose proof (rpartition_spec t) as (Heq & _ & _). rewrite E in Heq; simpl in Heq.
  destruct h as [|a h].
  - destruct (Ascii.eqb c "/") eqn:Ec; [|done]. by apply ascii_eqb_true in Ec.
  - exfalso. assert (String.length t = String.length (String a h +:+ t)) as Hl
      by (by rewrite <-Heq).
    rewrite append_length in Hl. simpl in Hl. lia.
Qed.

(** *** [join] *)

Lemma join_relative a b :
  Str.startswith b "/" = false → os_path.join a b = join_prefix a +:+ b.
Proof.
  intros Hb. unfold os_path.join, join_prefix. rewrite Hb.
  destruct (String.eqb a "" || Str.endswith a "/"); [done|].
  by rewrite append_assoc.
Qed.

Lemma startswith_slash_free b : Str.slash_free b → Str.startswith b "/" = false.
Proof.
  destruct b as [|c b]; [done|].
  intros [Hc _]%slash_free_cons. unfold Str.startswith.
  cbn [String.prefix]. destruct (ascii_dec "/" c); [congruence | done].
Qed.

Lemma join_clips b :
  Str.slash_free b → os_path.join "clips" b = "clips/" +:+ b.
Proof. intros Hb. by rewrite join_relative by by apply startswith_slash_free. Qed.

(** *** Prefixes *)

Lemma prefix_refl s : String.prefix s s = true.
Proof. apply prefix_spec. exists "". by rewrite append_nil_r. Qed.

Lemma prefix_trans s t u :
  String.prefix s t = true → String.prefix t u = true →
  String.prefix s u = true.
Proof.
  intros [v ->]%prefix_spec [w ->]%prefix_spec. apply prefix_spec.
  exists (v +:+ w). by rewrite append_assoc.
Qed.

Lemma rstrip_prefix s : String.prefix (Str.rstrip_slash s) s = true.
Proof.
  induction s as [|c s IH]; [done|]. simpl.
  destruct (Str.rstrip_slash s) as [|d r] eqn:E.
  - destruct (Ascii.eqb c "/"); [done|]. simpl.
    destruct (ascii_dec c c); [|done]. apply prefix_nil.
  - simpl. by destruct (ascii_dec c c).
Qed.

Lemma dirname_prefix p : String.prefix (os_path.dirname p) p = true.
Proof.
  unfold os_path.dirname.
  pose proof (rpartition_spec p) as (Heq & _ & _).
  assert (String.prefix (fst (os_path.rpartition p)) p = true) as Hh.
  { apply prefix_spec. eauto. }
  pose proof (rstrip_prefix (fst (os_path.rpartition p))) as Hr.
  destruct (Str.rstrip_slash (fst (os_path.rpartition p))); [done|].
  by eapply prefix_trans.
Qed.

End string_facts.

(** ** The file-system operations *)

Section fs_facts.

Implicit Types fs : filesystem.
Implicit Types p t : string.

Lemma grows_refl fs : grows fs fs.
Proof. intros p. by left. Qed.

Lemma grows_trans fs1 fs2 fs3 : grows fs1 fs2 → grows fs2 fs3 → grows fs1 fs3.
Proof.
  intros H12 H23 p. destruct (H12 p) as [E12|[E1 E2]], (H23 p) as [E23|[E2' E3]].
  - left. congruence.
  - right. split; congruence.
  - right. split; congruence.
  - congruence.
Qed.

Lemma grows_insert_dir fs p : fs !! p = None → grows fs (<[p := Dir]> fs).
Proof.
  intros Hp q. destruct (decide (p = q)) as [<-|Hne].
  - right. by rewrite lookup_insert_eq.
  - left. by rewrite lookup_insert_ne.
Qed.

Lemma grows_lookup_Some fs fs' p x :
  grows fs fs' → fs !! p = Some x → fs' !! p = Some x.
Proof. intros H Hp. destruct (H p) as [E|[E _]]; congruence. Qed.

Lemma grows_lookup_file fs fs' p c :
  grows fs fs' → fs' !! p = Some (File c) → fs !! p = Some (File c).
Proof. intros H Hp. destruct (H p) as [E|[_ E]]; congruence. Qed.

Lemma path_exists_false fs p : os.path_exists fs p = false → fs !! p = None.
Proof.
  unfold os.path_exists. intros [_ H]%orb_false_elim.
  apply bool_decide_eq_false in H. by apply eq_None_not_Some.
Qed.

Lemma mkdir_grows p fs : grows fs (final_fs (os.mkdir p fs)).
Proof.
  unfold os.mkdir. destruct (String.eqb p ""); [apply grows_refl|].
  destruct (os.path_exists fs p) eqn:E; [apply grows_refl|].
  destruct (os.parent fs p); simpl; try apply grows_refl.
  by apply grows_insert_dir, path_exists_false.
Qed.

Lemma makedirs_from_grows n p fs : grows fs (final_fs (os.makedirs_from n p fs)).
Proof.
  assert (∀ fs1, grows fs1 (final_fs
    match os.mkdir p fs1 with
    | Raise e fs2 => if os.path_isdir fs2 p then Return tt fs2 else Raise e fs2
    | o => o
    end)) as Hleaf.
  { intros fs1. pose proof (mkdir_grows p fs1) as H.
    destruct (os.mkdir p fs1) as [[] fs2|e fs2]; simpl in *; [done|].
    by destruct (os.path_isdir fs2 p). }
  revert p fs Hleaf. induction n as [|n IH]; intros p fs Hleaf; simpl; [done|].
  destruct (_ && _); [|done].
  assert (grows fs (final_fs (os.makedirs_from n (os_path.dirname p) fs))) as H.
  { apply IH. intros fs1. pose proof (mkdir_grows (os_path.dirname p) fs1) as H.
    destruct (os.mkdir _ fs1) as [[] fs2|e fs2]; simpl in *; [done|].
    by destruct (os.path_isdir fs2 _). }
  destruct (os.makedirs_from n (os_path.dirname p) fs) as [[] fs1|e fs1];
    simpl in H.
  - destruct (String.eqb _ "."); [done|]. eapply grows_trans; [done|apply Hleaf].
  - destruct e; try done.
    destruct (String.eqb _ "."); [done|]. eapply grows_trans; [done|apply Hleaf].
Qed.

Lemma makedirs_grows p fs : grows fs (final_fs (os.makedirs p fs)).
Proof. apply makedirs_from_grows. Qed.

Lemma write_file_spec t b fs :
  (os.write_file t b fs = Return tt (<[t := File (Bytes b)]> fs) ∧ writable fs t)
  ∨ (∃ e, os.write_file t b fs = Raise e fs) ∧ ¬ writable fs t.
Proof.
  unfold os.write_file, writable.
  destruct (String.eqb_spec t "") as [->|Ht].
  { right. split; [eauto | naive_solver]. }
  destruct (String.eqb_spec (os_path.basename t) "") as [E1|E1]; simpl.
  { right. split; [eauto|]. intros (_ & H & _). apply H. rewrite E1. set_solver. }
  destruct (String.eqb_spec (os_path.basename t) ".") as [E2|E2]; simpl.
  { right. split; [eauto|]. intros (_ & H & _). apply H. rewrite E2. set_solver. }
  destruct (String.eqb_spec (os_path.basename t) "..") as [E3|E3]; simpl.
  { right. split; [eauto|]. intros (_ & H & _). apply H. rewrite E3. set_solver. }
  assert (os_path.basename t ∉ [""; "."; ".."]) as Hb by set_solver.
  destruct (fs !! t) as [[| |]|] eqn:Et.
  - right. split; [eauto | naive_solver].
  - destruct (os.parent fs t) eqn:Ep; [left | right..]; naive_solver.
  - destruct (os.parent fs t) eqn:Ep; [left | right..]; naive_solver.
  - destruct (os.parent fs t) eqn:Ep; [left | right..]; naive_solver.
Qed.

(** Creating directories touches the directory and its ancestors only: the
    paths that are prefixes of its name. *)
Lemma mkdir_changes p fs q :
  final_fs (os.mkdir p fs) !! q ≠ fs !! q → q = p.
Proof.
  unfold os.mkdir. destruct (String.eqb p ""); [done|].
  destruct (os.path_exists fs p); [done|].
  destruct (os.parent fs p); simpl; try done.
  intros H. destruct (decide (p = q)) as [->|Hne]; [done|].
  by rewrite lookup_insert_ne in H.
Qed.

Lemma makedirs_from_changes n p fs q :
  final_fs (os.makedirs_from n p fs) !! q ≠ fs !! q →
  String.prefix q p = true.
Proof.
  assert (∀ p fs1, (fs1 !! q ≠ fs !! q → String.prefix q p = true) →
    final_fs
      match os.mkdir p fs1 with
      | Raise e fs2 =>
          if os.path_isdir fs2 p then Return tt fs2 else Raise e fs2
      | o => o
      end !! q ≠ fs !! q → String.prefix q p = true) as Hleaf.
  { intros p' fs1 H1 H. pose proof (mkdir_changes p' fs1 q) as Hm.
    destruct (decide (fs1 !! q = fs !! q)) as [E|E]; [|by auto].
    assert (final_fs (os.mkdir p' fs1) !! q ≠ fs1 !! q) as Hc.
    { rewrite E. destruct (os.mkdir p' fs1) as [[] fs2|e fs2]; simpl in *;
        [done|]. by destruct (os.path_isdir fs2 p'). }
    rewrite (Hm Hc). apply prefix_refl. }
  revert p fs Hleaf. induction n as [|n IH]; intros p fs Hleaf; simpl.
  { by apply Hleaf. }
  destruct (_ && _); [|by apply Hleaf].
  assert (∀ fs1, fs1 = final_fs (os.makedirs_from n (os_path.dirname p) fs) →
            fs1 !! q ≠ fs !! q → String.prefix q p = true) as Hrec.
  { intros fs1 -> H. eapply prefix_trans; [|apply dirname_prefix].
    by apply (IH _ fs). }
  destruct (os.makedirs_from n (os_path.dirname p) fs) as [[] fs1|e fs1];
    simpl in Hrec.
  - destruct (String.eqb _ "."); simpl; [by apply Hrec|].
    apply Hleaf. by apply Hrec.
  - destruct e; simpl; try (by apply Hrec).
    destruct (String.eqb _ "."); simpl; [by apply Hrec|].
    apply Hleaf. by apply Hrec.
Qed.

End fs_facts.

(** ** One member at a time *)

Section step_facts.

Implicit Types fs : filesystem.
Implicit Types m : TarInfo.

Lemma kept_refl fs p : kept fs fs p.
Proof. by left. Qed.

Lemma kept_trans fs1 fs2 fs3 p : kept fs1 fs2 p → kept fs2 fs3 p → kept fs1 fs3 p.
Proof.
  intros [E12|[E1 E2]] [E23|[E2' E3]].
  - left. congruence.
  - right. split; congruence.
  - right. split; congruence.
  - congruence.
Qed.

(** Extracting a regular-file member with the [fully_trusted] filter: some
    directories may be created, then the file is written at the target
    path, or an exception leaves things there. *)
Lemma extract_regular m dest fs :
  isreg m = true →
  ∃ fs1, grows fs fs1 ∧
    ((tarfile.extract m dest tarfile.fully_trusted fs
        = Return tt (<[tarfile.target_path dest (name m)
                        := File (Bytes (payload m))]> fs1)
      ∧ writable fs1 (tarfile.target_path dest (name m)))
     ∨ ∃ e, tarfile.extract m dest tarfile.fully_trusted fs = Raise e fs1).
Proof.
  intros Hreg. unfold tarfile.extract, tarfile.apply_filter,
    tarfile.extract_member, bind.
  fold (tarfile.target_path dest (name m)).
  set (t := tarfile.target_path dest (name m)). rewrite Hreg.
  set (o := if _ && _ then _ else _).
  assert (grows fs (final_fs o)) as Hg.
  { subst o. destruct (_ && _); [apply makedirs_grows | apply grows_refl]. }
  destruct o as [[] fs1|e fs1]; simpl in Hg; exists fs1; (split; [done|]).
  - destruct (write_file_spec t (payload m) fs1) as [[-> ?]|[[e ->] _]]; eauto.
  - eauto.
Qed.

Lemma destination_metadata dest m :
  is_metadata m = true → destination dest m = Some (validated_target dest).
Proof. unfold destination. by intros ->. Qed.

Lemma destination_clip dest m :
  is_clip m = true →
  destination dest m = Some (clip_target dest (os_path.basename (name m))).
Proof.
  unfold destination. intros H. rewrite H.
  unfold is_clip, is_metadata in *.
  destruct (isfile m); [|done]. by destruct (Str.endswith _ _).
Qed.

Lemma destination_None dest m :
  destination dest m = None ↔ is_metadata m = false ∧ is_clip m = false.
Proof.
  unfold destination.
  destruct (is_metadata m), (is_clip m); naive_solver.
Qed.

(** A member that is not wanted is passed over. *)
Lemma step_skip dest m fs :
  destination dest m = None →
  extract_member_if_wanted dest m fs = Return tt fs.
Proof.
  intros [H1 H2]%destination_None. unfold extract_member_if_wanted.
  unfold is_metadata, is_clip in *.
  destruct (isfile m); [|done].
  destruct (Str.endswith (name m) "validated.tsv"); [done|].
  by destruct (Str.contains "clips/" (name m)).
Qed.

(** A wanted member is written at its destination, unless an exception
    stops it. *)
Lemma step_write dest m t fs :
  destination dest m = Some t →
  ∃ fs1, grows fs fs1 ∧
    ((extract_member_if_wanted dest m fs
        = Return tt (<[t := File (Bytes (payload m))]> fs1)
      ∧ writable fs1 t)
     ∨ ∃ e, extract_member_if_wanted dest m fs = Raise e fs1).
Proof.
  unfold destination, extract_member_if_wanted, is_metadata, is_clip.
  destruct (isfile m) eqn:Hf; [|done]. simpl.
  destruct (Str.endswith (name m) "validated.tsv"); simpl.
  - intros [= <-]. by apply (extract_regular (set_name m _)).
  - destruct (Str.contains "clips/" (name m)); [|done].
    intros [= <-]. by apply (extract_regular (set_name m _)).
Qed.

(** What one step leaves at a path. *)
Lemma step_at dest m fs p :
  let o := extract_member_if_wanted dest m fs in
  kept fs (final_fs o) p
  ∨ (o = Return tt (final_fs o) ∧ destination dest m = Some p
     ∧ final_fs o !! p = Some (File (Bytes (payload m)))).
Proof.
  simpl. destruct (destination dest m) as [t|] eqn:Hd.
  - destruct (step_write dest m t fs Hd) as (fs1 & Hg & [[-> _]|[e ->]]); simpl.
    + destruct (decide (t = p)) as [->|Hne].
      * right. by rewrite lookup_insert_eq.
      * left. unfold kept. rewrite lookup_insert_ne by done. apply Hg.
    + left. apply Hg.
  - rewrite step_skip by done. left. apply kept_refl.
Qed.

Lemma step_returns_written dest m t fs fs' :
  destination dest m = Some t →
  extract_member_if_wanted dest m fs = Return tt fs' →
  fs' !! t = Some (File (Bytes (payload m))).
Proof.
  intros Hd Hr.
  destruct (step_write dest m t fs Hd) as (fs1 & Hg & [[E _]|[e E]]);
    rewrite E in Hr; [|done].
  injection Hr as <-. by rewrite lookup_insert_eq.
Qed.

(** Extracting a regular member changes its target path and ancestors of
    it, nothing else. *)
Lemma extract_regular_changes m dest fs q :
  isreg m = true →
  final_fs (tarfile.extract m dest tarfile.fully_trusted fs) !! q ≠ fs !! q →
  String.prefix q (tarfile.target_path dest (name m)) = true.
Proof.
  intros Hreg. unfold tarfile.extract, tarfile.apply_filter,
    tarfile.extract_member, bind.
  fold (tarfile.target_path dest (name m)).
  set (t := tarfile.target_path dest (name m)). rewrite Hreg.
  set (o := if _ && _ then _ else _).
  assert (final_fs o !! q ≠ fs !! q → String.prefix q t = true) as Hdirs.
  { subst o. destruct (_ && _); [|done]. intros H.
    eapply prefix_trans; [|apply dirname_prefix].
    unfold os.makedirs in H. by apply makedirs_from_changes in H. }
  destruct o as [[] fs1|e fs1]; simpl in *; [|done].
  destruct (write_file_spec t (payload m) fs1) as [[-> _]|[[e ->] _]];
    simpl; [|done].
  intros H. destruct (decide (t = q)) as [<-|Hne]; [apply prefix_refl|].
  rewrite lookup_insert_ne in H by done. auto.
Qed.

Lemma step_changes dest m fs q :
  final_fs (extract_member_if_wanted dest m fs) !! q ≠ fs !! q →
  ∃ t, destination dest m = Some t ∧ String.prefix q t = true.
Proof.
  unfold destination, extract_member_if_wanted, is_metadata, is_clip, isfile.
  destruct (isreg m) eqn:Hreg; [|done]. simpl.
  destruct (Str.endswith (name m) "validated.tsv"); simpl.
  - intros H. eexists. split; [done|].
    by apply (extract_regular_changes (set_name m _)) in H.
  - destruct (Str.contains "clips/" (name m)); [|done].
    intros H. eexists. split; [done|].
    by apply (extract_regular_changes (set_name m _)) in H.
Qed.

End step_facts.

(** ** The loop over the members *)

Section loop_facts.

Implicit Types fs : filesystem.
Implicit Types m : TarInfo.

Lemma for_each_cons {A} (x : A) xs body fs :
  for_each (x :: xs) body fs =
  match body x fs with
  | Return _ fs1 => for_each xs body fs1
  | Raise e fs1 => Raise e fs1
  end.
Proof. done. Qed.

(** Whatever the outcome, each path holds what it held, a new directory, or
    the payload of a member that was sent there. *)
Lemma loop_at dest ms fs p :
  let fs' := final_fs (for_each ms (extract_member_if_wanted dest) fs) in
  kept fs fs' p
  ∨ ∃ m, m ∈ ms ∧ destination dest m = Some p
         ∧ fs' !! p = Some (File (Bytes (payload m))).
Proof.
  simpl. revert fs. induction ms as [|m ms IH]; intros fs.
  { left. apply kept_refl. }
  rewrite for_each_cons.
  pose proof (step_at dest m fs p) as Hstep. simpl in Hstep.
  destruct (extract_member_if_wanted dest m fs) as [[] fs1|e fs1]; simpl in *.
  - destruct (IH fs1) as [Hk|(m' & Hin & Hd & Hl)].
    + destruct Hstep as [Hk0|(_ & Hd & Hl)].
      * left. by eapply kept_trans.
      * right. exists m. split_and!; [set_solver | done |].
        destruct Hk as [->|[? _]]; congruence.
    + right. exists m'. split_and!; [set_solver | done..].
  - destruct Hstep as [Hk0|([=] & _)]. by left.
Qed.

Lemma last_written_cons dest m ms p :
  last_written dest (m :: ms) p =
  match last_written dest ms p with
  | Some m' => Some m'
  | None => if decide (destination dest m = Some p) then Some m else None
  end.
Proof.
  unfold last_written. rewrite filter_cons.
  destruct (decide (destination dest m = Some p)).
  - by rewrite last_cons.
  - by destruct (last _).
Qed.

(** When the loop runs to its end, each path holds the payload of the last
    member sent there, and what it held before (or a new directory) when no
    member was. *)
Lemma loop_last dest ms fs fs' p :
  for_each ms (extract_member_if_wanted dest) fs = Return tt fs' →
  match last_written dest ms p with
  | Some m => fs' !! p = Some (File (Bytes (payload m)))
  | None => kept fs fs' p
  end.
Proof.
  revert fs. induction ms as [|m ms IH]; intros fs.
  { intros [= <-]. apply kept_refl. }
  rewrite for_each_cons, last_written_cons.
  pose proof (step_at dest m fs p) as Hstep. simpl in Hstep.
  destruct (extract_member_if_wanted dest m fs) as [[] fs1|e fs1] eqn:E;
    [|done].
  intros Hrest. specialize (IH _ Hrest). simpl in Hstep.
  destruct (last_written dest ms p) as [m'|]; [done|].
  destruct (decide (destination dest m = Some p)) as [Hd|Hd].
  - pose proof (step_returns_written _ _ _ _ _ Hd E) as Hl.
    destruct IH as [->|[? _]]; congruence.
  - destruct Hstep as [Hk|(_ & ? & _)]; [|done]. by eapply kept_trans.
Qed.

End loop_facts.

(** ** Where the extracted files go *)

Section target_facts.

Implicit Types s t u b dest p : string.

Local Arguments String.append !_ _ / : simpl nomatch.

Lemma endswith_app_nonempty s t :
  t ≠ "" → Str.endswith (s +:+ t) "/" = Str.endswith t "/".
Proof.
  intros Ht. induction s as [|c s IH]; [done|].
  change (String c s +:+ t) with (String c (s +:+ t)).
  cbn [Str.endswith]. rewrite IH.
  destruct (String.eqb_spec (String c (s +:+ t)) "/") as [E|E]; [|done].
  injection E as _ E. destruct s; simpl in E; [done | discriminate].
Qed.

Lemma rstrip_length s :
  (String.length (Str.rstrip_slash s) ≤ String.length s)%nat.
Proof.
  induction s as [|c s IH]; simpl; [done|].
  destruct (Str.rstrip_slash s); simpl in *; [|lia].
  destruct (Ascii.eqb c "/"); simpl; lia.
Qed.

Lemma dirname_shorter t :
  os_path.basename t ≠ "" →
  (String.length (os_path.dirname t) < String.length t)%nat.
Proof.
  unfold os_path.basename, os_path.dirname. intros Hb.
  pose proof (rpartition_spec t) as (Heq & _ & _).
  destruct (os_path.rpartition t) as [h tl]; simpl in *.
  assert (String.length t = String.length h + String.length tl) as Hl
    by (by rewrite Heq at 1; rewrite append_length).
  assert (0 < String.length tl)%nat by (destruct tl; simpl; [done | lia]).
  pose proof (rstrip_length h).
  destruct (Str.rstrip_slash h); simpl in *; lia.
Qed.

Lemma dirname_ne t : os_path.basename t ≠ "" → os_path.dirname t ≠ t.
Proof. intros Hb E. apply dirname_shorter in Hb. rewrite E in Hb. lia. Qed.

(** The name a clip ends up with, once trailing slashes are gone. *)
Lemma rstrip_clips b :
  Str.slash_free b →
  Str.rstrip_slash ("clips/" +:+ b) = if decide (b = "") then "clips" else "clips/" +:+ b.
Proof.
  intros Hb. destruct (decide (b = "")) as [->|Hne]; [done|].
  rewrite rstrip_app_nonempty; rewrite rstrip_slash_free by done; done.
Qed.

Lemma validated_target_eq dest :
  validated_target dest = join_prefix dest +:+ "validated.tsv".
Proof.
  unfold validated_target, tarfile.target_path.
  rewrite join_relative by done. by rewrite rstrip_app_nonempty.
Qed.

Lemma clip_target_eq dest b :
  Str.slash_free b →
  clip_target dest b =
  join_prefix dest +:+ (if decide (b = "") then "clips" else "clips/" +:+ b).
Proof.
  intros Hb. unfold clip_target, tarfile.target_path.
  rewrite join_clips by done. rewrite join_relative by done.
  rewrite rstrip_app_nonempty; rewrite rstrip_clips by done; [done|].
  by destruct (decide (b = "")).
Qed.

Lemma clip_target_ne_validated dest b :
  Str.slash_free b → clip_target dest b ≠ validated_target dest.
Proof.
  intros Hb. rewrite clip_target_eq, validated_target_eq by done.
  intros E%append_cancel_l. by destruct (decide (b = "")).
Qed.

Lemma clip_target_inj dest b1 b2 :
  Str.slash_free b1 → Str.slash_free b2 →
  clip_target dest b1 = clip_target dest b2 → b1 = b2.
Proof.
  intros H1 H2. rewrite !clip_target_eq by done. intros E%append_cancel_l.
  destruct (decide (b1 = "")) as [->|], (decide (b2 = "")) as [->|];
    simplify_eq/=; done.
Qed.

Lemma clips_dir_slash dest :
  os_path.join (clips_dir dest) "" = join_prefix dest +:+ "clips/".
Proof.
  unfold clips_dir.
  rewrite (join_relative (os_path.join dest "clips") "") by done.
  rewrite (join_relative dest "clips") by done.
  rewrite append_nil_r. unfold join_prefix at 1.
  rewrite endswith_app_nonempty by done.
  destruct (String.eqb_spec (join_prefix dest +:+ "clips") "") as [E|_].
  { destruct (join_prefix dest); discriminate. }
  simpl. by rewrite !append_assoc.
Qed.

Lemma validated_not_under_clips dest :
  under (clips_dir dest) (validated_target dest) = false.
Proof.
  unfold under. by rewrite clips_dir_slash, validated_target_eq, prefix_app.
Qed.

Lemma clip_under_clips dest b :
  Str.slash_free b → b ≠ "" → under (clips_dir dest) (clip_target dest b) = true.
Proof.
  intros Hb Hne. unfold under. rewrite clips_dir_slash, clip_target_eq by done.
  rewrite decide_False by done. rewrite prefix_app.
  apply prefix_spec. by exists b.
Qed.

(** *** Containment in the destination directory *)

Lemma split_nonempty s : Str.split "/" s ≠ [].
Proof.
  destruct s as [|c s]; [done|]. simpl.
  destruct (Ascii.eqb c "/"); [done|]. by destruct (Str.split "/" s).
Qed.

Lemma split_app_slash s t :
  Str.split "/" (s +:+ "/" +:+ t) = (Str.split "/" s ++ Str.split "/" t)%list.
Proof.
  induction s as [|c s IH]; [done|].
  simpl in *. rewrite IH.
  destruct (Ascii.eqb c "/"); [done|].
  pose proof (split_nonempty s). by destruct (Str.split "/" s).
Qed.

Lemma split_slash_free b : Str.slash_free b → Str.split "/" b = [b].
Proof.
  induction b as [|c b IH]; [done|].
  intros [Hc Hb]%slash_free_cons. simpl. rewrite (IH Hb).
  destruct (Ascii.eqb c "/") eqn:E; [|done]. by apply ascii_eqb_true in E.
Qed.

Lemma resolve_app a st cs1 cs2 :
  Lexical.resolve a st (cs1 ++ cs2)%list
  = Lexical.resolve a (Lexical.resolve a st cs1) cs2.
Proof. apply fold_left_app. Qed.

Lemma isabs_app s t : s ≠ "" → Lexical.isabs (s +:+ t) = Lexical.isabs s.
Proof.
  destruct s as [|c s]; [done|]. intros _.
  unfold Lexical.isabs, Str.startswith.
  change (String c s +:+ t) with (String c (s +:+ t)).
  cbn [String.prefix]. destruct (ascii_dec "/" c); [|done].
  by rewrite !prefix_nil.
Qed.

Lemma resolve_trailing_slash a st u :
  Lexical.resolve a st (Str.split "/" (u +:+ "/"))
  = Lexical.resolve a st (Str.split "/" u).
Proof.
  change (u +:+ "/") with (u +:+ "/" +:+ "").
  by rewrite (split_app_slash u ""), resolve_app.
Qed.

(** Joining a relative name onto [dest] resolves the name from [dest]. *)
Lemma norm_join dest n :
  n ≠ "" → Str.startswith n "/" = false →
  Lexical.isabs (join_prefix dest +:+ n) = Lexical.isabs dest
  ∧ Lexical.norm (join_prefix dest +:+ n)
    = Lexical.resolve (Lexical.isabs dest) (Lexical.norm dest) (Str.split "/" n).
Proof.
  intros Hn Hrel. unfold join_prefix.
  destruct (String.eqb_spec dest "") as [->|Hd]; cbn [orb].
  { change ("" +:+ n) with n. split; [exact Hrel|].
    unfold Lexical.norm. change (Lexical.isabs n) with (Str.startswith n "/").
    by rewrite Hrel. }
  destruct (Str.endswith dest "/") eqn:He.
  - apply endswith_spec in He as [u ->].
    assert (Lexical.isabs ((u +:+ "/") +:+ n) = Lexical.isabs (u +:+ "/")) as Ha.
    { apply isabs_app. by destruct u. }
    split; [done|]. unfold Lexical.norm. rewrite Ha.
    rewrite append_assoc. rewrite (split_app_slash u n), resolve_app.
    by rewrite resolve_trailing_slash.
  - assert (Lexical.isabs ((dest +:+ "/") +:+ n) = Lexical.isabs dest) as Ha.
    { rewrite append_assoc. by apply isabs_app. }
    split; [done|]. unfold Lexical.norm. rewrite Ha.
    rewrite append_assoc. by rewrite (split_app_slash dest n), resolve_app.
Qed.

Lemma within_intro dest p extra :
  Lexical.isabs p = Lexical.isabs dest →
  Lexical.norm p = (extra ++ Lexical.norm dest)%list →
  ".." ∉ extra →
  Lexical.within dest p = true.
Proof.
  intros Ha Hn Hx. unfold Lexical.within. rewrite Ha, Hn.
  rewrite length_app.
  replace (length extra + length (Lexical.norm dest)
           - length (Lexical.norm dest)) with (length extra) by lia.
  rewrite drop_app_length, take_app_length.
  rewrite Bool.eqb_reflx. simpl.
  rewrite bool_decide_eq_true_2 by done. by rewrite bool_decide_eq_true_2.
Qed.

Lemma resolve_clips a st b :
  Str.slash_free b →
  Lexical.resolve a st (Str.split "/" ("clips/" +:+ b))
  = Lexical.push a ("clips" :: st) b.
Proof.
  intros Hb. change ("clips/" +:+ b) with ("clips" +:+ "/" +:+ b).
  by rewrite (split_app_slash "clips" b), (split_slash_free b).
Qed.

Lemma validated_target_within dest :
  Lexical.within dest (validated_target dest) = true.
Proof.
  rewrite validated_target_eq.
  destruct (norm_join dest "validated.tsv") as [Ha Hn]; [done..|].
  apply (within_intro _ _ ["validated.tsv"]); [done | by rewrite Hn | set_solver].
Qed.

Lemma clip_target_within dest b :
  Str.slash_free b → Lexical.within dest (clip_target dest b) = true.
Proof.
  intros Hb. rewrite clip_target_eq by done.
  destruct (decide (b = "")) as [->|Hne].
  { destruct (norm_join dest "clips") as [Ha Hn]; [done..|].
    apply (within_intro _ _ ["clips"]); [done | by rewrite Hn | set_solver]. }
  destruct (norm_join dest ("clips/" +:+ b)) as [Ha Hn]; [done..|].
  rewrite (resolve_clips _ _ b Hb) in Hn. unfold Lexical.push in Hn.
  destruct (String.eqb_spec b "") as [?|_]; [done|].
  destruct (String.eqb_spec b ".") as [->|Hdot]; cbn [orb] in Hn.
  { apply (within_intro _ _ ["clips"]); [exact Ha | exact Hn | set_solver]. }
  destruct (String.eqb_spec b "..") as [->|Hdd].
  { apply (within_intro _ _ []); [exact Ha | exact Hn | set_solver]. }
  apply (within_intro _ _ [b; "clips"]); [exact Ha | exact Hn | set_solver].
Qed.

(** *** Path segments *)

Lemma split_cons_inv n c rest :
  Str.split "/" n = c :: rest → rest ≠ [] →
  ∃ n', n = c +:+ "/" +:+ n' ∧ Str.split "/" n' = rest.
Proof.
  revert c rest. induction n as [|a n IH]; intros c rest.
  { by intros [= <- <-]. }
  cbn [Str.split]. destruct (Ascii.eqb a "/") eqn:Ea.
  - apply ascii_eqb_true in Ea as ->. intros [= <- <-] _. by exists n.
  - destruct (Str.split "/" n) as [|w ws] eqn:Es.
    { by intros [= <- <-]. }
    intros [= <- <-] Hne. destruct (IH w ws eq_refl Hne) as (n' & -> & Hn').
    by exists n'.
Qed.

Lemma component_then_slash n pre c post :
  Str.split "/" n = (pre ++ c :: post)%list → post ≠ [] →
  Str.contains (c +:+ "/") n = true.
Proof.
  revert n. induction pre as [|d pre IH]; intros n Hs Hpost.
  - apply split_cons_inv in Hs as (n' & -> & _); [|done].
    apply contains_spec. exists "", n'. by rewrite append_assoc.
  - apply split_cons_inv in Hs as (n' & -> & Hn'); [|by destruct pre].
    apply IH in Hn' as (u & v & ->)%contains_spec; [|done].
    apply contains_spec. exists (d +:+ "/" +:+ u), v.
    by rewrite !append_assoc.
Qed.

(** A name with a [clips] directory on its way contains [clips/]. *)
Lemma clips_segment_contains n :
  has_clips_segment n = true → Str.contains "clips/" n = true.
Proof.
  unfold has_clips_segment.
  destruct (reverse (Str.split "/" n)) as [|final dirs] eqn:Er; [done|].
  intros Hin%bool_decide_eq_true.
  apply (f_equal reverse) in Er. rewrite reverse_involutive, reverse_cons in Er.
  apply elem_of_reverse, list_elem_of_split in Hin as (pre & post & Hd).
  rewrite Hd, <-app_assoc in Er. simpl in Er.
  apply (component_then_slash n pre "clips" (post ++ [final])); [done|].
  by destruct post.
Qed.

End target_facts.

(** ** The extractor as a whole *)

Section extractor_facts.

Implicit Types fs : filesystem.
Implicit Types m : TarInfo.

Lemma open_inv file_path fs :
  (∃ ms, fs !! file_path = Some (File (TarArchive ms))
         ∧ tarfile.open file_path fs = Return ms fs)
  ∨ ((∀ ms, fs !! file_path ≠ Some (File (TarArchive ms)))
     ∧ ∃ e, tarfile.open file_path fs = Raise e fs).
Proof.
  unfold tarfile.open. destruct (fs !! file_path) as [[|[b|ms]|]|]; eauto.
Qed.

Lemma extract_members_archive file_path dest fs ms :
  fs !! file_path = Some (File (TarArchive ms)) →
  extract_members file_path dest fs
  = for_each ms (extract_member_if_wanted dest) fs.
Proof. intros H. unfold extract_members, bind, tarfile.open. by rewrite H. Qed.

Lemma extract_members_no_archive file_path dest fs :
  (∀ ms, fs !! file_path ≠ Some (File (TarArchive ms))) →
  ∃ e, extract_members file_path dest fs = Raise e fs.
Proof.
  intros H. destruct (open_inv file_path fs) as [(ms & E & _)|[_ [e E]]].
  - by destruct (H ms).
  - exists e. unfold extract_members, bind. by rewrite E.
Qed.

(** The members that are not wanted can be struck from the archive: the
    loop does the same with and without them. *)
Lemma loop_skips dest ms fs :
  for_each ms (extract_member_if_wanted dest) fs
  = for_each (filter (λ m, is_Some (destination dest m)) ms)
      (extract_member_if_wanted dest) fs.
Proof.
  revert fs. induction ms as [|m ms IH]; intros fs; [done|].
  rewrite filter_cons. destruct (decide (is_Some (destination dest m))) as [|Hn].
  - rewrite !for_each_cons. by destruct (extract_member_if_wanted dest m fs).
  - rewrite for_each_cons, step_skip; [done|]. by apply eq_None_not_Some.
Qed.

(** The loop never removes an entry, and never turns a file into anything
    but a file. *)
Lemma loop_keeps_files dest ms fs p c :
  fs !! p = Some (File c) →
  ∃ c', final_fs (for_each ms (extract_member_if_wanted dest) fs) !! p
        = Some (File c').
Proof.
  intros Hp. destruct (loop_at dest ms fs p) as [[E|[E _]]|(m & _ & _ & E)].
  - exists c. congruence.
  - congruence.
  - eauto.
Qed.

Lemma loop_keeps_entries dest ms fs p :
  is_Some (fs !! p) →
  is_Some (final_fs (for_each ms (extract_member_if_wanted dest) fs) !! p).
Proof.
  intros Hp. destruct (loop_at dest ms fs p) as [[E|[E _]]|(m & _ & _ & E)].
  - by rewrite E.
  - rewrite E in Hp. by destruct Hp.
  - by rewrite E.
Qed.

(** How a call ends: the members are extracted and the container removed,
    or an exception of the [with] block propagates and nothing is removed. *)
Lemma extract_cases file_path dest fs :
  (∃ ms fs1,
      fs !! file_path = Some (File (TarArchive ms))
      ∧ for_each ms (extract_member_if_wanted dest) fs = Return tt fs1
      ∧ extract_validated_and_clips_from_tar file_path dest fs
        = Return tt (delete file_path fs1))
  ∨ (∃ e fs1,
      extract_members file_path dest fs = Raise e fs1
      ∧ extract_validated_and_clips_from_tar file_path dest fs = Raise e fs1).
Proof.
  unfold extract_validated_and_clips_from_tar, bind.
  destruct (open_inv file_path fs) as [(ms & Hms & _)|[Hno _]].
  - rewrite (extract_members_archive _ _ _ _ Hms).
    pose proof (loop_keeps_files dest ms fs file_path _ Hms) as [c' Hc'].
    destruct (for_each ms _ fs) as [[] fs1|e fs1] eqn:Eloop; simpl in Hc'.
    + left. exists ms, fs1. split; [done|]. split; [done|].
      unfold os.remove. by rewrite Hc'.
    + right. by exists e, fs1.
  - destruct (extract_members_no_archive file_path dest fs Hno) as [e E].
    rewrite E. right. by exists e, fs.
Qed.

Lemma extract_returns_inv file_path dest fs fs' :
  extract_validated_and_clips_from_tar file_path dest fs = Return tt fs' →
  ∃ ms fs1,
    fs !! file_path = Some (File (TarArchive ms))
    ∧ for_each ms (extract_member_if_wanted dest) fs = Return tt fs1
    ∧ fs' = delete file_path fs1.
Proof.
  intros H.
  destruct (extract_cases file_path dest fs)
    as [(ms & fs1 & ? & ? & E)|(e & fs1 & _ & E)]; rewrite E in H; [|done].
  injection H as <-. eauto.
Qed.

(** A wanted member goes to the metadata path or to a clip path, both
    within the destination. *)
Lemma destination_cases dest m p :
  destination dest m = Some p →
  (is_metadata m = true ∧ p = validated_target dest)
  ∨ (is_clip m = true ∧ p = clip_target dest (os_path.basename (name m))).
Proof.
  unfold destination. destruct (is_metadata m); [naive_solver|].
  destruct (is_clip m); naive_solver.
Qed.

Lemma destination_within dest m p :
  destination dest m = Some p → Lexical.within dest p = true.
Proof.
  intros [[_ ->]|[_ ->]]%destination_cases.
  - apply validated_target_within.
  - apply clip_target_within, basename_slash_free.
Qed.

Lemma is_metadata_not_clip m : is_metadata m = true → is_clip m = false.
Proof.
  unfold is_metadata, is_clip. destruct (isfile m); [|done]. simpl.
  by intros ->.
Qed.

Lemma destination_validated dest m :
  destination dest m = Some (validated_target dest) ↔ is_metadata m = true.
Proof.
  split; [|apply destination_metadata].
  intros [[? _]|[_ E]]%destination_cases; [done|].
  symmetry in E. by apply clip_target_ne_validated in E;
    [|apply basename_slash_free].
Qed.

Lemma destination_clip_iff dest m b :
  Str.slash_free b →
  destination dest m = Some (clip_target dest b)
  ↔ is_clip m = true ∧ os_path.basename (name m) = b.
Proof.
  intros Hb. split.
  - intros [[_ E]|[? E]]%destination_cases.
    + by apply clip_target_ne_validated in E.
    + split; [done|]. symmetry.
      by apply clip_target_inj in E; [| |apply basename_slash_free].
  - intros [Hc <-]. by apply destination_clip.
Qed.

End extractor_facts.

(** * The claims about the archive extractor *)

(** ** The extraction policy and path confinement *)


(** A file system without links, devices and pipes: the empty one, and one
    that gains a directory or a regular file. *)
Lemma link_free_empty : link_free ∅.
Proof. intros q. by rewrite lookup_empty. Qed.

Lemma link_free_insert (fs : filesystem) p x :
  x ≠ Special → link_free fs → link_free (<[p := x]> fs).
Proof.
  intros Hx Hfs q. destruct (decide (p = q)) as [->|Hne].
  - rewrite lookup_insert_eq. congruence.
  - rewrite lookup_insert_ne by done. apply Hfs.
Qed.



(** ** Deleting the container *)

(** C5, as stated, fails: when extracting a member raises, the container is
    not deleted.  Here a directory stands at [out/validated.tsv]; extracting
    [en/validated.tsv] raises [IsADirectoryError], the exception leaves the
    function, and [cv.tar] is still there. *)
Lemma container_survives_failed_member :
  let members := [regular "en/validated.tsv" "V"] in
  let o := extract_validated_and_clips_from_tar "cv.tar" "out"
             (staged_blocked members) in
  o = Raise IsADirectoryError (staged_blocked members)
  ∧ final_fs o !! "cv.tar" = Some (File (TarArchive members)).
Proof. by vm_compute. Qed.

(** C5, amended: the deletion is the last statement of the function, after
    the [with] block and under no exception handler.  When the block runs
    to its end the container is deleted and the function returns; when
    opening the archive or extracting a member raises, that exception is the
    outcome of the function, the deletion is not reached, and every entry of
    the file system, the container included, is still there. *)
Theorem container_deleted_iff_extraction_completes
    file_path extract_path (fs : filesystem) :
  match extract_validated_and_clips_from_tar file_path extract_path fs with
  | Return _ fs' =>
      returns (extract_members file_path extract_path fs) = true
      ∧ fs' !! file_path = None
  | Raise e fs' =>
      extract_members file_path extract_path fs = Raise e fs'
      ∧ ∀ p, is_Some (fs !! p) → is_Some (fs' !! p)
  end.
Proof.
  destruct (extract_cases file_path extract_path fs)
    as [(ms & fs1 & Hms & Hl & ->)|(e & fs1 & Hm & ->)].
  - rewrite (extract_members_archive _ _ _ _ Hms), Hl.
    split; [done|]. apply lookup_delete_eq.
  - split; [done|]. intros p Hp.
    destruct (open_inv file_path fs) as [(ms & Hms & _)|[Hno _]].
    + rewrite (extract_members_archive _ _ _ _ Hms) in Hm.
      pose proof (loop_keeps_entries extract_path ms fs p Hp) as H.
      by rewrite Hm in H.
    + destruct (extract_members_no_archive _ extract_path fs Hno) as [e' E].
      rewrite E in Hm. by injection Hm as _ <-.
Qed.

(** ** The metadata file *)

Section metadata_file.

Implicit Types fs : filesystem.

Lemma last_written_validated dest ms :
  last_written dest ms (validated_target dest)
  = last (filter (λ m, is_metadata m = true) ms).
Proof.
  unfold last_written. f_equal. apply list_filter_iff.
  intros m. apply destination_validated.
Qed.

Lemma last_written_clip dest ms b :
  Str.slash_free b →
  last_written dest ms (clip_target dest b)
  = last (filter (λ m, is_clip m = true ∧ os_path.basename (name m) = b) ms).
Proof.
  intros Hb. unfold last_written. f_equal. apply list_filter_iff.
  intros m. by apply destination_clip_iff.
Qed.

End metadata_file.




(** ** The clips directory *)

Section clips.

Implicit Types fs : filesystem.
Implicit Types m : TarInfo.

Lemma size_list_to_set_le (l : list string) :
  (size (list_to_set l : gset string) ≤ length l)%nat.
Proof.
  induction l as [|x l IH].
  { rewrite list_to_set_nil, size_empty. done. }
  rewrite list_to_set_cons, size_union_alt, size_singleton. simpl.
  assert (size (list_to_set l ∖ {[x]} : gset string)
          ≤ size (list_to_set l : gset string))%nat
    by (apply subseteq_size; set_solver).
  lia.
Qed.

Lemma length_filter_mono {A} (P Q : A → Prop)
    `{!∀ x, Decision (P x), !∀ x, Decision (Q x)} (l : list A) :
  (∀ x, P x → Q x) → (length (filter P l) ≤ length (filter Q l))%nat.
Proof.
  intros HPQ. induction l as [|x l IH]; [done|].
  rewrite !filter_cons.
  destruct (decide (P x)) as [HP|HP].
  - rewrite decide_True by auto. simpl. lia.
  - destruct (decide (Q x)); simpl; lia.
Qed.

Lemma is_clip_regular_with_clips m :
  is_clip m = true → isfile m && Str.contains "clips/" (name m) = true.
Proof.
  unfold is_clip. destruct (isfile m); [|done].
  by destruct (Str.endswith _ _).
Qed.

(** A file that is new after the loop, below the clips directory, is the
    clip of some member. *)
Lemma new_clip_has_member dest ms fs fs1 p :
  for_each ms (extract_member_if_wanted dest) fs = Return tt fs1 →
  (∃ x, fs1 !! p = Some x ∧ is_file x = true ∧ fs !! p ≠ Some x) →
  under (clips_dir dest) p = true →
  ∃ m, m ∈ ms ∧ is_clip m = true
       ∧ p = clip_target dest (os_path.basename (name m)).
Proof.
  intros Hloop (x & Hx & Hfile & Hnew) Hunder.
  pose proof (loop_at dest ms fs p) as H. rewrite Hloop in H. simpl in H.
  destruct H as [[E|[_ E]]|(m & Hin & Hd & _)].
  - congruence.
  - rewrite E in Hx. by injection Hx as <-.
  - apply destination_cases in Hd as [[_ ->]|[Hc ->]].
    + by rewrite validated_not_under_clips in Hunder.
    + eauto.
Qed.

(** The extractor's step, seen as the library call it makes. *)
Lemma step_as_extract dest m t :
  destination dest m = Some t →
  ∃ n, extract_member_if_wanted dest m
       = tarfile.extract (set_name m n) dest tarfile.fully_trusted
       ∧ tarfile.target_path dest n = t ∧ isreg m = true.
Proof.
  unfold destination, extract_member_if_wanted, is_metadata, is_clip, isfile.
  destruct (isreg m); [|done]. simpl.
  destruct (Str.endswith (name m) "validated.tsv"); simpl.
  - intros [= <-]. by eexists.
  - destruct (Str.contains "clips/" (name m)); [|done].
    intros [= <-]. by eexists.
Qed.

Lemma writable_parent_exists fs t :
  writable fs t →
  negb (String.eqb (os_path.dirname t) "")
  && negb (os.path_exists fs (os_path.dirname t)) = false.
Proof.
  intros (_ & _ & _ & Hp). unfold os.parent in Hp.
  destruct (String.eqb (os_path.dirname t) ""); [done|]. simpl in *.
  unfold os.path_exists.
  destruct (os.is_root (os_path.dirname t)); [done|]. simpl.
  by destruct (fs !! os_path.dirname t) as [[| |]|] eqn:E.
Qed.

(** Where a file can be written, extracting a regular member writes it. *)
Lemma extract_regular_writable m dest fs :
  isreg m = true →
  writable fs (tarfile.target_path dest (name m)) →
  tarfile.extract m dest tarfile.fully_trusted fs
  = Return tt (<[tarfile.target_path dest (name m)
                 := File (Bytes (payload m))]> fs).
Proof.
  intros Hreg Hw. unfold tarfile.extract, tarfile.apply_filter,
    tarfile.extract_member, bind.
  fold (tarfile.target_path dest (name m)).
  rewrite (writable_parent_exists _ _ Hw), Hreg.
  by destruct (write_file_spec (tarfile.target_path dest (name m))
                 (payload m) fs) as [[-> _]|[_ ?]].
Qed.

Lemma writable_after_write fs t c :
  writable fs t → writable (<[t := File c]> fs) t.
Proof.
  intros (Ht & Hb & _ & Hp). split_and!; [done | done | |].
  - by rewrite lookup_insert_eq.
  - assert (os_path.dirname t ≠ t) as Hne.
    { apply dirname_ne. intros E. apply Hb. rewrite E. set_solver. }
    unfold os.parent in *. by rewrite lookup_insert_ne.
Qed.

(** Writing to a path a second time is not an error. *)
Lemma second_write_returns dest m1 m2 t fs fs1 :
  destination dest m1 = Some t → destination dest m2 = Some t →
  extract_member_if_wanted dest m1 fs = Return tt fs1 →
  extract_member_if_wanted dest m2 fs1
  = Return tt (<[t := File (Bytes (payload m2))]> fs1).
Proof.
  intros Hd1 Hd2 Hret.
  destruct (step_write dest m1 t fs Hd1) as (fs0 & _ & [[E Hw]|[e E]]);
    rewrite E in Hret; [|done].
  injection Hret as <-.
  destruct (step_as_extract dest m2 t Hd2) as (n & -> & <- & Hreg).
  apply (extract_regular_writable (set_name m2 n)); [done|].
  by apply writable_after_write.
Qed.

End clips.

(** What the call leaves below the [clips] directory when it returns, in
    the file system without permission bits. *)
Lemma clips_after_return
    file_path extract_path (fs fs' : filesystem) members :
  fs !! file_path = Some (File (TarArchive members)) →
  extract_validated_and_clips_from_tar file_path extract_path fs
    = Return tt fs' →
  (size (filter (λ p, under (clips_dir extract_path) p = true)
                (new_files fs fs'))
     ≤ length (filter (λ m, isfile m && Str.contains "clips/" (name m) = true)
                      members))%nat
  ∧ (∀ b member,
       last (filter (λ m, is_clip m = true ∧ os_path.basename (name m) = b)
                    members) = Some member →
       file_path ≠ clip_target extract_path b →
       fs' !! clip_target extract_path b
         = Some (File (Bytes (payload member)))).
Proof.
  intros Hms Hret.
  apply extract_returns_inv in Hret as (ms & fs1 & Hms' & Hloop & ->).
  rewrite Hms in Hms'. injection Hms' as <-.
  split.
  - set (targets := (λ m, clip_target extract_path (os_path.basename (name m)))
                      <$> filter (λ m, is_clip m = true) members).
    trans (length targets).
    + etrans; [|apply size_list_to_set_le]. apply subseteq_size.
      intros p [Hunder Hnew]%elem_of_filter. unfold new_files in Hnew.
      apply elem_of_dom in Hnew as [x Hx].
      apply map_lookup_filter_Some in Hx as [Hx [Hfile Hne]]. simpl in *.
      apply lookup_delete_Some in Hx as [_ Hx].
      destruct (new_clip_has_member extract_path members fs fs1 p Hloop)
        as (m & Hin & Hclip & ->); [by eauto | done |].
      apply elem_of_list_to_set, list_elem_of_fmap. exists m.
      split; [done|]. by apply list_elem_of_filter.
    + subst targets. rewrite length_fmap. apply length_filter_mono.
      apply is_clip_regular_with_clips.
  - intros b member Hlast Hne.
    assert (Str.slash_free b) as Hb.
    { apply last_Some_elem_of, list_elem_of_filter in Hlast as [[_ <-] _].
      apply basename_slash_free. }
    rewrite lookup_delete_ne by done.
    pose proof (loop_last _ _ _ _ (clip_target extract_path b) Hloop) as H.
    rewrite last_written_clip in H by done. by rewrite Hlast in H.
Qed.

(** ** The extractor with permission bits

    With the bits, a call ends earlier with [PermissionError] or goes as it
    does without them: where it returns, the file system is the same. *)

Lemma modes_extract_returns privileged m path locked locked' fs fs' :
  Modes.extract privileged m path locked fs = Return locked' fs' →
  tarfile.extract m path tarfile.fully_trusted fs = Return tt fs'.
Proof.
  unfold Modes.extract.
  destruct (isreg m && negb privileged && _ && _); [done|].
  destruct (tarfile.extract m path tarfile.fully_trusted fs) as [[] fs1|e fs1];
    [|done].
  by intros [= _ ->].
Qed.

Lemma modes_step_returns privileged dest m locked locked' fs fs' :
  Modes.extract_member_if_wanted privileged dest m locked fs
    = Return locked' fs' →
  extract_member_if_wanted dest m fs = Return tt fs'.
Proof.
  unfold Modes.extract_member_if_wanted, extract_member_if_wanted.
  destruct (isfile m); [|by intros [= _ ->]].
  destruct (Str.endswith (name m) "validated.tsv");
    [apply modes_extract_returns|].
  destruct (Str.contains "clips/" (name m));
    [apply modes_extract_returns|by intros [= _ ->]].
Qed.

Lemma modes_loop_returns privileged dest ms locked locked' fs fs' :
  Modes.extract_each privileged dest ms locked fs = Return locked' fs' →
  for_each ms (extract_member_if_wanted dest) fs = Return tt fs'.
Proof.
  revert locked fs. induction ms as [|m ms IH]; intros locked fs.
  { by intros [= _ ->]. }
  cbn [Modes.extract_each]. unfold bind at 1. rewrite for_each_cons.
  destruct (Modes.extract_member_if_wanted privileged dest m locked fs)
    as [locked1 fs1|e fs1] eqn:E; [|done].
  rewrite (modes_step_returns _ _ _ _ _ _ _ E). apply IH.
Qed.

Lemma modes_call_returns privileged file_path dest locked locked' fs fs' :
  Modes.extract_validated_and_clips_from_tar privileged file_path dest locked
    fs = Return locked' fs' →
  extract_validated_and_clips_from_tar file_path dest fs = Return tt fs'.
Proof.
  unfold Modes.extract_validated_and_clips_from_tar,
    extract_validated_and_clips_from_tar, extract_members, bind.
  destruct (tarfile.open file_path fs) as [ms fs0|e fs0]; [|done].
  destruct (Modes.extract_each privileged dest ms locked fs0)
    as [locked1 fs1|e fs1] eqn:E; [|done].
  rewrite (modes_loop_returns _ _ _ _ _ _ _ E).
  destruct (os.remove file_path fs1) as [[] fs2|e fs2]; [|done].
  by intros [= _ ->].
Qed.

Lemma modes_step_clip privileged dest m locked :
  is_clip m = true →
  Modes.extract_member_if_wanted privileged dest m locked
  = Modes.extract privileged
      (set_name m (os_path.join "clips" (os_path.basename (name m))))
      dest locked.
Proof.
  unfold is_clip, Modes.extract_member_if_wanted.
  intros [[-> ->%negb_true_iff]%andb_true_iff ->]%andb_true_iff. done.
Qed.

Lemma is_clip_isreg m : is_clip m = true → isreg m = true.
Proof.
  unfold is_clip, isfile.
  by intros [[-> _]%andb_true_iff _]%andb_true_iff.
Qed.



(** ** Precedence of the metadata rule *)



(** ** Which members count as clips *)

(** A regular-file member with a [clips] directory on its way, and a name
    that does not end with [validated.tsv], is extracted as
    [clips/<basename>]; when that returns, its content is at the clip path
    of the destination. *)
Lemma clips_segment_member_extracted extract_path member (fs : filesystem) :
  isfile member = true →
  Str.endswith (name member) "validated.tsv" = false →
  has_clips_segment (name member) = true →
  extract_member_if_wanted extract_path member fs
  = tarfile.extract
      (set_name member (os_path.join "clips" (os_path.basename (name member))))
      extract_path tarfile.fully_trusted fs
  ∧ ∀ fs', extract_member_if_wanted extract_path member fs = Return tt fs' →
      fs' !! clip_target extract_path (os_path.basename (name member))
      = Some (File (Bytes (payload member))).
Proof.
  intros Hfile Hend Hseg%clips_segment_contains. split.
  - unfold extract_member_if_wanted. by rewrite Hfile, Hend, Hseg.
  - intros fs' Hret. eapply step_returns_written; [|done].
    apply destination_clip. unfold is_clip. by rewrite Hfile, Hend, Hseg.
Qed.

(** C2 does not hold of the code.  The test [ "clips/" in member.name ]
    looks for the six characters anywhere in the name, so a regular file in
    a directory [myclips], which no [clips] directory contains, is extracted
    to [clips/a.mp3] all the same. *)
Theorem clips_test_matches_inside_a_component :
  let member := regular "myclips/a.mp3" "A" in
  has_clips_segment (name member) = false
  ∧ Str.contains "clips/" (name member) = true
  ∧ extract_validated_and_clips_from_tar "cv.tar" "out" (staged [member])
    = Return tt (<["out/clips/a.mp3" := File (Bytes "A")]>
                   (<["out/clips" := Dir]> (<["out" := Dir]> ∅)))
  ∧ under (clips_dir "out") "out/clips/a.mp3" = true.
Proof. by vm_compute. Qed.

(** ** What extraction leaves alone *)

(** C9 does not hold of the code.  A regular-file member whose name ends
    with a slash after [clips] has an empty basename; it is renamed
    [clips/], and tarfile, which strips trailing slashes from the target
    path, writes it as a regular file [clips] directly in the destination:
    a new file that is neither the metadata file nor below the [clips]
    directory. *)
Theorem empty_basename_written_beside_clips :
  let member := regular "en/clips/" "X" in
  let fs' := final_fs (extract_validated_and_clips_from_tar
                         "cv.tar" "out" (staged [member])) in
  os_path.join "clips" (os_path.basename (name member)) = "clips/"
  ∧ extract_validated_and_clips_from_tar "cv.tar" "out" (staged [member])
    = Return tt fs'
  ∧ fs' !! "out/clips" = Some (File (Bytes "X"))
  ∧ new_files (staged [member]) fs' = {["out/clips"]}
  ∧ "out/clips" ≠ validated_target "out"
  ∧ under (clips_dir "out") "out/clips" = false.
Proof.
  intros member fs'. split_and!; by vm_compute.
Qed.

(** * The tokenizer on plain text *)

Section tokenizer_facts.

Local Arguments String.append !_ _ / : simpl nomatch.

Implicit Types p : pd.parser.
Implicit Types L : list (list string).

Lemma split_nonempty_any c s : Str.split c s ≠ [].
Proof.
  destruct s as [|a s]; [done|]. simpl.
  destruct (Ascii.eqb a c); [done|]. by destruct (Str.split c s).
Qed.

Lemma tokenize_app sep p s1 s2 :
  pd.tokenize_bytes sep p (s1 +:+ s2)
  = pd.tokenize_bytes sep (pd.tokenize_bytes sep p s1) s2.
Proof. revert p. induction s1 as [|c s1 IH]; intros p; [done|]. apply IH. Qed.

Lemma append_nil_right (s : string) : s +:+ "" = s.
Proof. induction s as [|c s IH]; [done|]. simpl. by rewrite IH. Qed.

Lemma append_assoc_string (s t u : string) : (s +:+ t) +:+ u = s +:+ (t +:+ u).
Proof. induction s as [|c s IH]; [done|]. simpl. by rewrite IH. Qed.

(** *** Inside a line *)

Lemma line_body_cons at_start c b :
  line_body at_start (String c b) = true →
  c ≠ pd.newline ∧ c ≠ pd.carriage_return
  ∧ (at_start = true → c ≠ pd.quotechar)
  ∧ line_body (Ascii.eqb c tab) b = true.
Proof.
  cbn [line_body]. rewrite !andb_true_iff, !negb_true_iff.
  intros [[[H1 H2] H3] H4].
  split_and!; [by intros ->..| |done].
  intros -> ->. by rewrite Ascii.eqb_refl in H3.
Qed.

Lemma line_body_weaken at_start b :
  line_body at_start b = true → line_body false b = true.
Proof.
  destruct b as [|c b]; [done|]. cbn [line_body].
  rewrite !andb_true_iff. by intros [[[? ?] _] ?].
Qed.

Lemma eqb_false (c d : ascii) : c ≠ d → Ascii.eqb c d = false.
Proof. intros H. by apply Ascii.eqb_neq. Qed.

(** The fields read from the inside of a line are the pieces between its
    tabs. *)
Lemma tokenize_body b p :
  in_line p →
  line_body (at_field_start p) b = true →
  let p' := pd.tokenize_bytes tab p b in
  in_line p' ∧ pd.lines p' = pd.lines p
  ∧ (pd.words p' ++ [pd.word p'] = pd.words p
       ++ attach (pd.word p) (Str.split tab b))%list.
Proof.
  revert p. induction b as [|c b IH]; intros p Hp Hb; cbn zeta.
  { cbn [pd.tokenize_bytes Str.split attach]. by rewrite append_nil_right. }
  apply line_body_cons in Hb as (Hlf & Hcr & Hq & Hb).
  cbn [pd.tokenize_bytes Str.split].
  assert (pd.tokenize_byte tab p c
          = if Ascii.eqb c tab
            then pd.set_state pd.START_FIELD (pd.end_field p)
            else pd.set_state pd.IN_FIELD (pd.push_char c p)) as Hstep.
  { unfold pd.tokenize_byte, pd.start_field, pd.in_field.
    rewrite (eqb_false _ _ Hlf), (eqb_false _ _ Hcr).
    destruct p as [st w ws L]. unfold in_line in Hp. cbn [pd.state] in *.
    unfold at_field_start in Hq. cbn [pd.state] in Hq.
    destruct Hp as [-> | ->].
    - rewrite (eqb_false c pd.quotechar) by (by apply Hq).
      by destruct (Ascii.eqb c tab).
    - by destruct (Ascii.eqb c tab). }
  rewrite Hstep. destruct (Ascii.eqb c tab).
  - destruct (IH (pd.set_state pd.START_FIELD (pd.end_field p)))
      as (Hin & Hl & Hw); [by left|done|].
    split; [done|]. split; [done|]. rewrite Hw. cbn.
    rewrite append_nil_right, <-(assoc_L (++)). f_equal.
    pose proof (split_nonempty_any tab b).
    by destruct (Str.split tab b).
  - destruct (IH (pd.set_state pd.IN_FIELD (pd.push_char c p)))
      as (Hin & Hl & Hw); [by right|done|].
    split; [done|]. split; [done|]. rewrite Hw. cbn. f_equal.
    pose proof (split_nonempty_any tab b).
    destruct (Str.split tab b) as [|f fs]; [done|]. cbn.
    by rewrite append_assoc_string.
Qed.

(** The end of a line that was being read: a line feed, a carriage return
    and a line feed, or the end of the text. *)
Lemma in_line_newline p :
  in_line p →
  pd.tokenize_byte tab p pd.newline
  = at_record (pd.lines p ++ [pd.words p ++ [pd.word p]])%list.
Proof. by intros [H|H]; unfold pd.tokenize_byte; rewrite H. Qed.

Lemma in_line_crlf p :
  in_line p →
  pd.tokenize_byte tab (pd.tokenize_byte tab p pd.carriage_return) pd.newline
  = at_record (pd.lines p ++ [pd.words p ++ [pd.word p]])%list.
Proof. by intros [H|H]; unfold pd.tokenize_byte; rewrite H. Qed.

Lemma in_line_eof p :
  in_line p →
  pd.handle_eof p = Some (pd.lines p ++ [pd.words p ++ [pd.word p]])%list.
Proof. by intros [H|H]; unfold pd.handle_eof; rewrite H. Qed.

(** *** At the start of a line *)

Lemma is_blank_cons c b :
  is_blank (String c b) = (Ascii.eqb c " " && is_blank b).
Proof. done. Qed.

Lemma space_is_whitespace : pd.is_whitespace tab " " = true.
Proof. done. Qed.

Lemma other_is_not_whitespace c :
  Ascii.eqb c " " = false → pd.is_whitespace tab c = false.
Proof.
  intros H. unfold pd.is_whitespace. rewrite H. cbn [orb].
  by destruct (Ascii.eqb c (ascii_of_nat 9)) eqn:E;
    [apply Ascii.eqb_eq in E as ->|].
Qed.

(** A line of spaces is passed over. *)
Lemma tokenize_blank b p L :
  is_blank b = true → idle p L → idle (pd.tokenize_bytes tab p b) L.
Proof.
  revert p. induction b as [|c b IH]; intros p Hb Hp; [done|].
  rewrite is_blank_cons in Hb.
  apply andb_true_iff in Hb as [->%Ascii.eqb_eq Hb].
  cbn [pd.tokenize_bytes]. apply IH; [done|].
  destruct Hp as ([Hs|[sp Hs]] & Hw & Hws & Hl);
    unfold pd.tokenize_byte, pd.start_record; rewrite Hs;
    change (Ascii.eqb " " pd.newline) with false;
    change (Ascii.eqb " " pd.carriage_return) with false;
    rewrite space_is_whitespace; (split; [right; by eexists|done]).
Qed.

Lemma idle_newline p L :
  idle p L → pd.tokenize_byte tab p pd.newline = at_record L.
Proof.
  intros ([Hs|[sp Hs]] & Hw & Hws & Hl); unfold pd.tokenize_byte;
    rewrite Hs; unfold pd.start_record, pd.set_state, at_record; cbn;
    by rewrite Hw, Hws, Hl.
Qed.

Lemma idle_crlf p L :
  idle p L →
  pd.tokenize_byte tab (pd.tokenize_byte tab p pd.carriage_return) pd.newline
  = at_record L.
Proof.
  intros ([Hs|[sp Hs]] & Hw & Hws & Hl); unfold pd.tokenize_byte;
    rewrite Hs; unfold pd.start_record, pd.set_state, at_record; cbn;
    by rewrite Hw, Hws, Hl.
Qed.

Lemma idle_eof p L : idle p L → pd.handle_eof p = Some L.
Proof.
  intros ([Hs|[sp Hs]] & Hw & Hws & Hl); unfold pd.handle_eof;
    by rewrite Hs, Hl.
Qed.

Lemma at_record_idle L : idle (at_record L) L.
Proof. split; [by left|done]. Qed.

(** A line with something on it is read as fields from its first
    character on, leading spaces included: they begin its first field, in
    which a double quote is then a character like another. *)
Lemma tokenize_after_spaces b sp ws L :
  line_body false b = true → is_blank b = false →
  pd.tokenize_bytes tab
    {| pd.state := pd.WHITESPACE_LINE sp; pd.word := ""; pd.words := ws;
       pd.lines := L |} b
  = pd.tokenize_bytes tab
      {| pd.state := pd.IN_FIELD; pd.word := sp; pd.words := ws;
         pd.lines := L |} b.
Proof.
  revert sp. induction b as [|c b IH]; intros sp Hb Hn; [done|].
  apply line_body_cons in Hb as (Hlf & Hcr & _ & Hb).
  rewrite is_blank_cons in Hn. cbn [pd.tokenize_bytes].
  unfold pd.tokenize_byte. cbn [pd.state].
  rewrite (eqb_false _ _ Hlf), (eqb_false _ _ Hcr).
  destruct (Ascii.eqb c " ") eqn:E.
  - apply Ascii.eqb_eq in E as ->. rewrite space_is_whitespace.
    unfold pd.in_field.
    change (Ascii.eqb " " pd.newline) with false.
    change (Ascii.eqb " " pd.carriage_return) with false.
    change (Ascii.eqb " " tab) with false. cbn [andb] in Hn.
    apply (IH _ Hb Hn).
  - by rewrite (other_is_not_whitespace _ E).
Qed.

Lemma tokenize_line b L :
  line_body true b = true → is_blank b = false →
  pd.tokenize_bytes tab (at_record L) b
  = pd.tokenize_bytes tab
      {| pd.state := pd.START_FIELD; pd.word := ""; pd.words := [];
         pd.lines := L |} b.
Proof.
  destruct b as [|c b]; [done|]. intros Hb Hn.
  pose proof Hb as (Hlf & Hcr & Hq & Hb')%line_body_cons.
  rewrite is_blank_cons in Hn. cbn [pd.tokenize_bytes].
  unfold pd.tokenize_byte. cbn [pd.state at_record].
  unfold pd.start_record.
  rewrite (eqb_false _ _ Hlf), (eqb_false _ _ Hcr).
  destruct (Ascii.eqb c " ") eqn:E.
  - apply Ascii.eqb_eq in E as ->. rewrite space_is_whitespace.
    cbn [andb] in Hn. unfold pd.set_state. cbn.
    apply (tokenize_after_spaces b " " [] L Hb' Hn).
  - by rewrite (other_is_not_whitespace _ E).
Qed.

(** A whole line, from the start of a record to the start of the next
    one. *)
Lemma tokenize_record b L :
  line_body true b = true →
  let L' := if is_blank b then L else (L ++ [Str.split tab b])%list in
  pd.tokenize_bytes tab (at_record L) (b +:+ String pd.newline "")
    = at_record L'
  ∧ pd.tokenize_bytes tab (at_record L)
      (b +:+ String pd.carriage_return (String pd.newline ""))
    = at_record L'
  ∧ pd.handle_eof (pd.tokenize_bytes tab (at_record L) b) = Some L'.
Proof.
  intros Hb. cbn zeta. rewrite !tokenize_app. cbn [pd.tokenize_bytes].
  destruct (is_blank b) eqn:Hblank.
  - pose proof (tokenize_blank b _ L Hblank (at_record_idle L)) as Hidle.
    split_and!; [by apply idle_newline|by apply idle_crlf|by apply idle_eof].
  - rewrite (tokenize_line b L Hb Hblank).
    destruct (tokenize_body b
                {| pd.state := pd.START_FIELD; pd.word := ""; pd.words := [];
                   pd.lines := L |}) as (Hin & Hl & Hw); [by left|done|].
    cbn [pd.words pd.word pd.lines app] in Hw, Hl.
    assert (attach "" (Str.split tab b) = Str.split tab b) as Hattach.
    { pose proof (split_nonempty_any tab b).
      by destruct (Str.split tab b). }
    rewrite Hattach in Hw.
    rewrite (in_line_newline _ Hin), (in_line_crlf _ Hin),
      (in_line_eof _ Hin), Hl, Hw.
    done.
Qed.

(** *** The pieces of a text *)

Lemma chomp_body at_start b : line_body at_start b = true → chomp b = b.
Proof.
  revert at_start. induction b as [|c b IH]; intros at_start; [done|].
  intros (_ & Hcr & _ & Hb)%line_body_cons. cbn [chomp].
  rewrite (eqb_false _ _ Hcr). cbn [andb]. by rewrite (IH _ Hb).
Qed.

Lemma chomp_cases at_start s :
  line_body at_start (chomp s) = true →
  s = chomp s ∨ s = chomp s +:+ String pd.carriage_return "".
Proof.
  revert at_start. induction s as [|c s IH]; intros at_start; [by left|].
  cbn [chomp].
  destruct (Ascii.eqb c pd.carriage_return && String.eqb s "") eqn:E.
  - apply andb_true_iff in E as [->%Ascii.eqb_eq ->%String.eqb_eq].
    by right.
  - intros (_ & _ & _ & Hb)%line_body_cons.
    destruct (IH _ Hb) as [H|H]; [left|right]; cbn; by rewrite <-H.
Qed.

Lemma unlines_cons s t rest :
  unlines (s :: t :: rest) = s +:+ String pd.newline (unlines (t :: rest)).
Proof. done. Qed.

(** The lines the tokenizer makes of the pieces of a plain text. *)
Lemma tokenize_pieces pieces L :
  pieces_of_plain_text true pieces →
  pd.handle_eof (pd.tokenize_bytes tab (at_record L) (unlines pieces))
  = Some (L ++ (Str.split tab
                  <$> filter (λ l, is_blank l = false) (chomp <$> pieces)))%list.
Proof.
  revert L. induction pieces as [|s pieces IH]; intros L; [done|].
  destruct pieces as [|t rest].
  - cbn [pieces_of_plain_text unlines]. intros Hs.
    destruct (tokenize_record s L Hs) as (_ & _ & ->).
    rewrite fmap_cons, fmap_nil, (chomp_body _ s Hs), filter_cons, filter_nil.
    destruct (is_blank s); cbn.
    + by rewrite app_nil_r.
    + done.
  - intros [Hs Hrest]. rewrite unlines_cons, fmap_cons, filter_cons.
    destruct (tokenize_record (chomp s) L Hs) as (Hlf & Hcrlf & _).
    assert (pd.tokenize_bytes tab (at_record L) (s +:+ String pd.newline "")
            = at_record (if is_blank (chomp s) then L
                         else (L ++ [Str.split tab (chomp s)])%list))
      as Hline.
    { destruct (chomp_cases _ s Hs) as [H|H]; rewrite H at 1; [done|].
      by rewrite append_assoc_string. }
    change (String pd.newline (unlines (t :: rest)))
      with (String pd.newline "" +:+ unlines (t :: rest)).
    rewrite <-append_assoc_string, tokenize_app, Hline, (IH _ Hrest).
    destruct (is_blank (chomp s)); cbn; [done|].
    by rewrite <-(assoc_L (++)).
Qed.

Lemma plain_byte_inv c :
  plain_byte c = true → c ≠ ascii_of_nat 239 ∧ c ≠ ascii_of_nat 0.
Proof.
  unfold plain_byte. intros Hn%bool_decide_eq_true.
  split; intros ->; vm_compute in Hn; lia.
Qed.

Lemma unlines_split text : unlines (Str.split pd.newline text) = text.
Proof.
  induction text as [|c text IH]; [done|]. cbn [Str.split].
  pose proof (split_nonempty_any pd.newline text) as Hne.
  destruct (Ascii.eqb c pd.newline) eqn:E.
  - apply Ascii.eqb_eq in E as ->.
    destruct (Str.split pd.newline text) as [|w ws]; [done|].
    rewrite unlines_cons, IH. done.
  - destruct (Str.split pd.newline text) as [|w ws]; [done|].
    destruct ws as [|w' ws].
    + cbn [unlines] in *. by rewrite IH.
    + rewrite <-IH, !unlines_cons. done.
Qed.

Lemma pieces_tail at_start s t rest :
  pieces_of_plain_text at_start (s :: t :: rest) →
  pieces_of_plain_text true (t :: rest).
Proof. by intros [_ ?]. Qed.

Lemma split_pieces at_start text :
  plain_from at_start text = true →
  pieces_of_plain_text at_start (Str.split pd.newline text).
Proof.
  revert at_start. induction text as [|c text IH]; intros at_start; [done|].
  cbn [plain_from]. rewrite !andb_true_iff.
  intros [[[_ Hq] Hcr] Htext]. specialize (IH _ Htext).
  pose proof (split_nonempty_any pd.newline text) as Hne.
  cbn [Str.split]. destruct (Ascii.eqb c pd.newline) eqn:Elf.
  { rewrite orb_true_r in IH.
    destruct (Str.split pd.newline text) as [|w ws]; [done|]. by split. }
  rewrite orb_false_r in IH.
  destruct (Ascii.eqb c pd.carriage_return) eqn:Ecr.
  - apply Ascii.eqb_eq in Ecr as ->.
    destruct text as [|d text]; [done|].
    assert (d = pd.newline) as ->.
    { unfold Str.startswith in Hcr. cbn [String.prefix] in Hcr.
      by destruct (ascii_dec _ d) as [<-|] in Hcr. }
    cbn [Str.split] in *. rewrite Ascii.eqb_refl in *.
    pose proof (split_nonempty_any pd.newline text) as Hne'.
    destruct (Str.split pd.newline text) as [|w ws]; [done|].
    split; [done|]. by apply pieces_tail in IH.
  - destruct (Str.split pd.newline text) as [|w ws]; [done|].
    assert (∀ b, line_body (Ascii.eqb c tab) b = true →
                 line_body at_start (String c b) = true) as Hbody.
    { intros b Hb. cbn [line_body]. by rewrite Elf, Ecr, Hq, Hb. }
    destruct ws as [|w' ws].
    + apply Hbody, IH.
    + destruct IH as [Hw Hrest]. split; [|done].
      cbn [chomp]. rewrite Ecr. cbn [andb]. by apply Hbody.
Qed.

Lemma skip_bom_plain text : plain_text text = true → pd.skip_bom text = text.
Proof.
  destruct text as [|b1 [|b2 [|b3 rest]]]; try done.
  unfold plain_text. cbn [plain_from]. rewrite !andb_true_iff.
  intros [[[[Hb _]%plain_byte_inv _] _] _].
  unfold pd.skip_bom, pd.byte_order_mark. cbn [String.eqb].
  by rewrite (eqb_false _ _ Hb).
Qed.

(** On a plain text the tokenizer gives the records of the
    specification. *)
Lemma tokenize_plain text :
  plain_text text = true →
  pd.handle_eof (pd.tokenize_bytes tab pd.parser_new (pd.skip_bom text))
  = Some (tsv_records text).
Proof.
  intros Hplain. rewrite (skip_bom_plain _ Hplain).
  rewrite <-(unlines_split text) at 1.
  apply (tokenize_pieces _ [] (split_pieces _ _ Hplain)).
Qed.

End tokenizer_facts.

(** *** Quoted fields

    A file with carriage returns, with a tab and a line feed inside quoted
    fields and with a doubled quote; a file that ends inside a quoted
    field; a file that begins with a byte order mark. *)

Example read_csv_quoted :
  pd.read_csv "validated.tsv" tab ["path"; "gender"]
    (only_file "validated.tsv" sample_tsv_quoted)
  = Return sample_frame_quoted (only_file "validated.tsv" sample_tsv_quoted)
  ∧ (pd.handle_eof (pd.tokenize_bytes tab pd.parser_new sample_tsv_quoted)
       ≫= last)
    = Some ["female";
            "six " +:+ String pd.quotechar "seven";
            "d.mp3"].
Proof. by vm_compute. Qed.

Example tsv_records_inner_quote :
  plain_text sample_tsv_inner_quote = true
  ∧ tsv_records sample_tsv_inner_quote
    = [["path"; "sentence"; "gender"];
       ["a.mp3"; "say " +:+ quoted "hi"; "male"]]
  ∧ plain_text sample_tsv_quoted = false.
Proof. by vm_compute. Qed.

Example read_csv_unterminated :
  pd.read_csv "validated.tsv" tab ["path"; "gender"]
    (only_file "validated.tsv" sample_tsv_unterminated)
  = Raise ParserError (only_file "validated.tsv" sample_tsv_unterminated).
Proof. by vm_compute. Qed.

Example read_csv_byte_order_mark :
  result_of (pd.read_csv "validated.tsv" tab ["path"; "gender"]
               (only_file "validated.tsv"
                  (pd.byte_order_mark +:+ sample_tsv)))
  = inr sample_frame.
Proof. by vm_compute. Qed.
(** * The metadata loader *)

Section loader_facts.

Implicit Types fs : filesystem.
Implicit Types l : list string.

Lemma index_of_Some x l j : pd.index_of x l = Some j → l !! j = Some x.
Proof.
  revert j. induction l as [|y l IH]; intros j; simpl; [done|].
  destruct (String.eqb_spec x y) as [->|Hne].
  - by intros [= <-].
  - destruct (pd.index_of x l); simpl; [|done].
    intros [= <-]. by apply IH.
Qed.

Lemma index_of_elem x l : x ∈ l → is_Some (pd.index_of x l).
Proof.
  induction 1 as [y l|y z l _ IH]; simpl.
  - by rewrite String.eqb_refl.
  - destruct (String.eqb y z); [done|]. destruct IH as [j ->]. by eexists.
Qed.

Lemma lookup_enumerate_from {A} (xs : list A) s k :
  zip (seq s (length xs)) xs !! k = (λ x, ((s + k)%nat, x)) <$> xs !! k.
Proof.
  revert s k. induction xs as [|x xs IH]; intros s k; [done|].
  destruct k as [|k]; simpl.
  - by rewrite Nat.add_0_r.
  - rewrite IH. by replace (S s + k)%nat with (s + S k)%nat by lia.
Qed.

Lemma lookup_enumerate {A} (xs : list A) k :
  pd.enumerate xs !! k = (λ x, (k, x)) <$> xs !! k.
Proof. apply (lookup_enumerate_from xs 0). Qed.

Lemma elem_of_enumerate {A} (xs : list A) i x :
  (i, x) ∈ pd.enumerate xs ↔ xs !! i = Some x.
Proof.
  rewrite list_elem_of_lookup. split.
  - intros [k Hk]. rewrite lookup_enumerate in Hk.
    destruct (xs !! k) eqn:E; simplify_eq/=. done.
  - intros Hi. exists i. by rewrite lookup_enumerate, Hi.
Qed.

(** A column that [usecols] names and the header has is kept, at the
    position of its first occurrence in the header. *)
Lemma kept_columns_lookup header usecols c i :
  c ∈ usecols → pd.index_of c header = Some i →
  ∃ j, pd.index_of c (snd <$> pd.kept_columns header usecols) = Some j
       ∧ pd.kept_columns header usecols !! j = Some (i, c).
Proof.
  intros Hc Hi.
  assert ((i, c) ∈ pd.kept_columns header usecols) as Hin.
  { apply list_elem_of_filter. split; [done|].
    by apply elem_of_enumerate, index_of_Some. }
  assert (c ∈ snd <$> pd.kept_columns header usecols) as Hcol.
  { apply list_elem_of_fmap. by exists (i, c). }
  destruct (index_of_elem _ _ Hcol) as [j Hj]. exists j. split; [done|].
  apply index_of_Some in Hj. apply list_lookup_fmap_Some in Hj
    as ([i' c'] & Heq & Hk). simpl in Heq. subst c'.
  assert ((i', c) ∈ pd.kept_columns header usecols) as Hin'
    by (by eapply list_elem_of_lookup_2).
  apply list_elem_of_filter in Hin' as [[_ Hi'] _]. simpl in Hi'.
  congruence.
Qed.

Lemma kept_columns_names header usecols c :
  c ∈ snd <$> pd.kept_columns header usecols → c ∈ usecols.
Proof.
  intros ([i c'] & -> & Hin)%list_elem_of_fmap.
  by apply list_elem_of_filter in Hin as [[? _] _].
Qed.

(** The value of a parsed record in a kept column is the field at the
    column's position in the header. *)
Lemma parse_fields_lookup kept fields j i c :
  kept !! j = Some (i, c) →
  mjoin (pd.parse_fields kept fields !! j) = pd.parse_cell (fields !! i).
Proof.
  intros Hj. unfold pd.parse_fields. by rewrite list_lookup_fmap, Hj.
Qed.

(** Selecting by a mask computed row by row is filtering the rows. *)
Lemma select_rows {A} (f : A → bool) (xs : list A) :
  fst <$> filter (λ rb, rb.2 = true) (zip xs (f <$> xs))
  = filter (λ r, f r = true) xs.
Proof.
  induction xs as [|x xs IH]; [done|].
  change (zip (x :: xs) (f <$> x :: xs)) with ((x, f x) :: zip xs (f <$> xs)).
  rewrite !filter_cons. cbn [snd].
  destruct (decide (f x = true)); [rewrite fmap_cons|]; by rewrite IH.
Qed.

Lemma zip_with_fmap_same {A B C} (g : A → B → C) (h : A → B) (xs : list A) :
  zip_with g xs (h <$> xs) = (λ x, g x (h x)) <$> xs.
Proof.
  induction xs as [|x xs IH]; [done|].
  rewrite !fmap_cons. cbn [zip_with]. by rewrite IH.
Qed.

(** The loader on a frame that has a [gender] column at position [j]. *)
Lemma load_after_read file_path fs table j :
  pd.read_csv file_path tab ["path"; "gender"] fs = Return table fs →
  pd.index_of "gender" (pd.columns table) = Some j →
  load_validated_data file_path fs
  = Return {| pd.columns := pd.columns table;
              pd.rows :=
                (λ r, (r.1, <[j := simplify_gender (mjoin (r.2 !! j))]> r.2))
                  <$> filter (λ r, is_Some (mjoin (r.2 !! j))) (pd.rows table)
           |} fs.
Proof.
  intros Hread Hj. unfold load_validated_data, bind. rewrite Hread.
  unfold pd.getitem at 1. rewrite Hj. unfold ret.
  unfold pd.getitem, pd.select. simpl. rewrite Hj. unfold ret.
  unfold pd.setitem. simpl. rewrite Hj. unfold ret, pd.notna, pd.apply.
  f_equal. f_equal.
  set (cell_j := λ r : nat * list pd.cell, mjoin (r.2 !! j)).
  rewrite <-(list_fmap_compose cell_j (λ v, bool_decide (is_Some v))).
  rewrite (select_rows ((λ v, bool_decide (is_Some v)) ∘ cell_j)).
  rewrite <-(list_fmap_compose cell_j simplify_gender).
  rewrite (zip_with_fmap_same (λ r v, (r.1, <[j:=v]> r.2))
             (simplify_gender ∘ cell_j)).
  f_equal. apply list_filter_iff. intros r. apply bool_decide_eq_true.
Qed.

(** What [read_csv] returns when it returns: the file system as it was, and
    a frame made of the records that follow a header that has every name
    of [usecols]. *)
Lemma read_csv_inv file_path sep usecols fs table fs' :
  pd.read_csv file_path sep usecols fs = Return table fs' →
  fs' = fs
  ∧ ∃ header records,
      Forall (λ c, c ∈ header) usecols
      ∧ table
        = {| pd.columns := snd <$> pd.kept_columns header usecols;
             pd.rows :=
               (λ kr, (kr.1, pd.parse_fields
                               (pd.kept_columns header usecols) kr.2))
                 <$> pd.enumerate records |}.
Proof.
  unfold pd.read_csv. destruct (fs !! file_path) as [[|[text|]|]|]; try done.
  destruct (pd.handle_eof _) as [[|header records]|].
  - done.
  - destruct (bool_decide _) eqn:E; [|done].
    apply bool_decide_eq_true in E. intros [= <- <-]. split; [done|].
    by exists header, records.
  - destruct (pd.lines _) as [|header [|? ?]]; try done.
    by destruct (bool_decide _).
Qed.

Lemma read_csv_state file_path sep usecols fs table fs' :
  pd.read_csv file_path sep usecols fs = Return table fs' → fs' = fs.
Proof. by intros [? _]%read_csv_inv. Qed.

Lemma simplify_gender_category g :
  simplify_gender (Some g) = category g.
Proof.
  unfold simplify_gender, category.
  destruct (decide (g = "male")) as [->|?]; [done|].
  destruct (decide (g = "male_masculine")) as [->|?]; [done|].
  destruct (decide (g = "female")) as [->|?]; [done|].
  destruct (decide (g = "female_feminine")) as [->|?]; [done|].
  rewrite (bool_decide_eq_false_2 (Some g ∈ _)) by set_solver.
  rewrite (bool_decide_eq_false_2 (Some g ∈ _)) by set_solver.
  rewrite (bool_decide_eq_false_2 (g = "male" ∨ _)) by naive_solver.
  by rewrite (bool_decide_eq_false_2 (g = "female" ∨ _)) by naive_solver.
Qed.

End loader_facts.

Section loader_spec.

Implicit Types fs : filesystem.

Lemma filter_fmap {A B} (f : A → B) (P : B → Prop)
    `{!∀ y, Decision (P y)} (xs : list A) :
  filter P (f <$> xs) = f <$> filter (λ x, P (f x)) xs.
Proof.
  induction xs as [|x xs IH]; [done|].
  rewrite fmap_cons, !filter_cons.
  destruct (decide (P (f x))); [rewrite fmap_cons|]; by rewrite IH.
Qed.

Lemma fst_enumerate {A} (xs : list A) :
  fst <$> pd.enumerate xs = seq 0 (length xs).
Proof. unfold pd.enumerate. apply fst_zip. by rewrite length_seq. Qed.

(** On a plain text [read_csv] goes by the records of the
    specification. *)
Lemma read_csv_plain file_path usecols fs text :
  fs !! file_path = Some (File (Bytes text)) →
  plain_text text = true →
  pd.read_csv file_path tab usecols fs
  = match tsv_records text with
    | [] => Raise EmptyDataError fs
    | header :: records =>
        if bool_decide (Forall (λ c, c ∈ header) usecols) then
          Return {| pd.columns := snd <$> pd.kept_columns header usecols;
                    pd.rows :=
                      (λ kr, (kr.1, pd.parse_fields
                                      (pd.kept_columns header usecols) kr.2))
                        <$> pd.enumerate records |} fs
        else Raise ValueError fs
    end.
Proof.
  intros Hf Hp. unfold pd.read_csv. rewrite Hf. cbv zeta.
  by rewrite (tokenize_plain _ Hp).
Qed.

(** The value of a row of the frame read is the field of its record. *)
Lemma read_frame_field header usecols rs k fields label :
  label ∈ usecols → label ∈ header →
  field {| pd.columns := snd <$> pd.kept_columns header usecols;
           pd.rows := rs |}
        (k, pd.parse_fields (pd.kept_columns header usecols) fields) label
  = raw_field header fields label.
Proof.
  intros Hu Hh. destruct (index_of_elem _ _ Hh) as [i Hi].
  destruct (kept_columns_lookup header usecols label i Hu Hi)
    as (j & Hj & Hk).
  unfold field, raw_field. cbn [pd.columns snd]. rewrite Hj, Hi.
  by apply parse_fields_lookup with label.
Qed.

(** What the loader returns, row by row, in terms of the frame that
    [read_csv] returned. *)
Lemma load_frame_spec file_path fs fs' table :
  pd.read_csv file_path tab ["path"; "gender"] fs = Return table fs' →
  ∃ out,
    load_validated_data file_path fs = Return out fs'
    ∧ pd.columns out = pd.columns table
    ∧ (∀ c, c ∈ pd.columns table ↔ c = "path" ∨ c = "gender")
    ∧ NoDup (fst <$> pd.rows table)
    ∧ (λ r, (r.1, field out r "path", field out r "gender")) <$> pd.rows out
      = (λ r, (r.1, field table r "path",
               simplify_gender (field table r "gender")))
          <$> filter (λ r, is_Some (field table r "gender")) (pd.rows table).
Proof.
  intros Hread.
  destruct (read_csv_inv _ _ _ _ _ _ Hread)
    as (-> & header & records & Hall & Htable).
  set (usecols := ["path"; "gender"]) in *.
  set (kept := pd.kept_columns header usecols) in *.
  apply Forall_cons in Hall as [Hp Hall].
  apply Forall_cons in Hall as [Hg _].
  destruct (index_of_elem _ _ Hp) as [ip Hip].
  destruct (index_of_elem _ _ Hg) as [ig Hig].
  destruct (kept_columns_lookup header usecols "path" ip)
    as (jp & Hjp & Hkp); [set_solver | done |].
  destruct (kept_columns_lookup header usecols "gender" ig)
    as (jg & Hjg & Hkg); [set_solver | done |].
  fold kept in Hjp, Hkp, Hjg, Hkg.
  assert (jg ≠ jp) as Hne by (intros ->; congruence).
  assert (pd.index_of "gender" (pd.columns table) = Some jg) as Hjg'
    by by rewrite Htable.
  eexists. split; [apply (load_after_read _ _ _ jg Hread Hjg')|].
  cbn [pd.columns pd.rows]. split; [done|]. split; [|split].
  - rewrite Htable. cbn [pd.columns]. intros c. split.
    + intros Hc%kept_columns_names. set_solver.
    + intros [->| ->]; eapply list_elem_of_lookup_2, index_of_Some; eauto.
  - rewrite Htable. cbn [pd.rows]. rewrite <-list_fmap_compose.
    change (fst ∘ _) with (@fst nat (list string)).
    rewrite fst_enumerate. apply NoDup_seq.
  - rewrite <-list_fmap_compose.
    assert (∀ r, field table r "gender" = mjoin (r.2 !! jg)) as Hgender
      by (intros r; unfold field; by rewrite Hjg').
    rewrite (list_filter_iff (λ r, is_Some (mjoin (r.2 !! jg)))
               (λ r, is_Some (field table r "gender")))
      by (intros r; by rewrite Hgender).
    apply list_fmap_ext. intros i r Hr. apply list_elem_of_lookup_2 in Hr.
    apply list_elem_of_filter in Hr as [_ Hr].
    assert (jg < length r.2)%nat as Hlen.
    { rewrite Htable in Hr. cbn [pd.rows] in Hr.
      apply list_elem_of_fmap in Hr as ([k fields] & -> & _). cbn [snd].
      unfold pd.parse_fields. rewrite length_fmap.
      by eapply lookup_lt_Some. }
    unfold field. cbn [pd.columns fst snd compose]. rewrite Hjg'.
    assert (pd.index_of "path" (pd.columns table) = Some jp) as ->
      by by rewrite Htable.
    rewrite list_lookup_insert_ne by done.
    by rewrite list_lookup_insert_eq by done.
Qed.

(** What the loader returns, row by row, in terms of the records of a
    plain text. *)
Lemma load_spec file_path fs text header records :
  fs !! file_path = Some (File (Bytes text)) →
  plain_text text = true →
  tsv_records text = header :: records →
  "path" ∈ header →
  "gender" ∈ header →
  ∃ out,
    load_validated_data file_path fs = Return out fs
    ∧ (∀ c, c ∈ pd.columns out ↔ c = "path" ∨ c = "gender")
    ∧ (λ r, (r.1, field out r "path", field out r "gender")) <$> pd.rows out
      = (λ kr, (kr.1, raw_field header kr.2 "path",
                simplify_gender (raw_field header kr.2 "gender")))
          <$> filter (λ kr, is_Some (raw_field header kr.2 "gender"))
                     (pd.enumerate records).
Proof.
  intros Hf Hplain Hrecords Hp Hg.
  pose proof (read_csv_plain file_path ["path"; "gender"] fs text Hf Hplain)
    as Hread.
  rewrite Hrecords, bool_decide_eq_true_2 in Hread
    by (by repeat constructor).
  destruct (load_frame_spec _ _ _ _ Hread)
    as (out & Hload & Hcols & Hnames & _ & Hrows).
  exists out. split; [done|]. split; [by rewrite Hcols|].
  rewrite Hrows. cbn [pd.rows].
  set (usecols := ["path"; "gender"]).
  set (kept := pd.kept_columns header usecols).
  set (table := {| pd.columns := snd <$> kept; pd.rows := _ |}).
  assert (∀ k fields label, label ∈ usecols → label ∈ header →
            field table (k, pd.parse_fields kept fields) label
            = raw_field header fields label) as Hfield.
  { intros k fields label. apply read_frame_field. }
  rewrite filter_fmap, <-list_fmap_compose.
  rewrite (list_filter_iff _ (λ kr, is_Some (raw_field header kr.2 "gender")))
    by (intros [k fields]; cbn [fst snd]; rewrite Hfield; set_solver).
  apply list_fmap_ext. intros _ [k fields] _. cbn [compose fst snd].
  rewrite !Hfield; [done|set_solver..].
Qed.

End loader_spec.
(** * The claims about the metadata loader *)

Section loader_rows.

Implicit Types fs : filesystem.

Lemma index_of_None x (l : list string) : x ∉ l → pd.index_of x l = None.
Proof.
  intros Hx. destruct (pd.index_of x l) as [j|] eqn:E; [|done].
  apply index_of_Some, list_elem_of_lookup_2 in E. done.
Qed.

(** Rows with different labels: a row is known by its label. *)
Lemma row_by_label {A} (rows : list (nat * A)) r r' :
  NoDup (fst <$> rows) → r ∈ rows → r' ∈ rows → r.1 = r'.1 → r = r'.
Proof.
  induction rows as [|x rows IH]; [by intros _ ?%elem_of_nil|].
  rewrite fmap_cons. intros [Hx Hnd]%NoDup_cons.
  intros [->|Hr]%elem_of_cons [->|Hr']%elem_of_cons Heq; [done|..].
  - destruct Hx. rewrite Heq. apply list_elem_of_fmap. eauto.
  - destruct Hx. rewrite <-Heq. apply list_elem_of_fmap. eauto.
  - by apply IH.
Qed.

End loader_rows.

(** C6: whenever the file is read, as a frame [table], the loader returns a
    frame every row of which comes from a row of [table] whose raw gender
    is present, and its category is [male] when the raw gender is [male] or
    [male_masculine], [female] when it is [female] or [female_feminine],
    and undefined for every other raw value. *)
Theorem category_of_each_output_row
    file_path (fs fs' : filesystem) table :
  pd.read_csv file_path tab ["path"; "gender"] fs = Return table fs' →
  ∃ out,
    load_validated_data file_path fs = Return out fs'
    ∧ ∀ row, row ∈ pd.rows out →
        ∃ source raw,
          source ∈ pd.rows table
          ∧ source.1 = row.1
          ∧ field table source "gender" = Some raw
          ∧ field out row "gender" = simplify_gender (Some raw)
          ∧ (raw = "male" ∨ raw = "male_masculine" →
             field out row "gender" = Some "male")
          ∧ (raw = "female" ∨ raw = "female_feminine" →
             field out row "gender" = Some "female")
          ∧ (raw ∉ ["male"; "male_masculine"; "female"; "female_feminine"] →
             field out row "gender" = None).
Proof.
  intros Hread.
  destruct (load_frame_spec _ _ _ _ Hread)
    as (out & Hload & _ & _ & _ & Hrows).
  exists out. split; [done|]. intros row Hrow.
  assert ((row.1, field out row "path", field out row "gender")
          ∈ (λ r, (r.1, field out r "path", field out r "gender"))
              <$> pd.rows out) as Hin
    by (apply list_elem_of_fmap; eauto).
  rewrite Hrows in Hin.
  apply list_elem_of_fmap in Hin as (source & [= Hlabel _ Hgender] & Hin).
  apply list_elem_of_filter in Hin as [[raw Hraw] Hin].
  exists source, raw. rewrite Hgender, Hraw.
  rewrite simplify_gender_category. unfold category.
  split_and!; [done..| | |].
  - intros H. by rewrite bool_decide_eq_true_2.
  - intros H. rewrite bool_decide_eq_false_2 by naive_solver.
    by rewrite bool_decide_eq_true_2.
  - intros H. rewrite !bool_decide_eq_false_2; [done|set_solver..].
Qed.

Lemma category_of_each_output_row_witness :
  ∃ out,
    load_validated_data "validated.tsv" (only_file "validated.tsv" sample_tsv)
      = Return out (only_file "validated.tsv" sample_tsv)
    ∧ (λ r, (r.1, field out r "gender")) <$> pd.rows out
      = [(0, Some "male"); (1, Some "female"); (3, None)]%nat.
Proof.
  destruct (category_of_each_output_row "validated.tsv"
              (only_file "validated.tsv" sample_tsv)
              (only_file "validated.tsv" sample_tsv) sample_frame)
    as (out & Hload & _).
  - vm_compute. reflexivity.
  - exists out. split; [exact Hload|].
    vm_compute in Hload. injection Hload as <-. vm_compute. reflexivity.
Defined.

(** C7: whenever the file is read, as a frame [table], the loader returns,
    in their order, the rows of [table] whose raw gender is present, each
    with its index label and its path; a row of [table] is in the output
    exactly when its raw gender is present, whatever category that gender
    is given. *)
Theorem output_rows_are_the_rows_with_gender
    file_path (fs fs' : filesystem) table :
  pd.read_csv file_path tab ["path"; "gender"] fs = Return table fs' →
  ∃ out,
    load_validated_data file_path fs = Return out fs'
    ∧ (λ r, (r.1, field out r "path")) <$> pd.rows out
      = (λ r, (r.1, field table r "path"))
          <$> filter (λ r, is_Some (field table r "gender")) (pd.rows table)
    ∧ ∀ r, r ∈ pd.rows table →
        (r.1 ∈ fst <$> pd.rows out ↔ is_Some (field table r "gender")).
Proof.
  intros Hread.
  destruct (load_frame_spec _ _ _ _ Hread)
    as (out & Hload & _ & _ & Hnodup & Hrows).
  exists out. split; [done|].
  assert (fst <$> pd.rows out
          = fst <$> filter (λ r, is_Some (field table r "gender"))
                           (pd.rows table)) as Hlabels.
  { apply (f_equal (fmap (λ t, t.1.1))) in Hrows.
    by rewrite <-!list_fmap_compose in Hrows. }
  split.
  - apply (f_equal (fmap (λ t, (t.1.1, t.1.2)))) in Hrows.
    by rewrite <-!list_fmap_compose in Hrows.
  - intros r Hr. rewrite Hlabels, list_elem_of_fmap. split.
    + intros (r' & Heq & [Hg Hr']%list_elem_of_filter).
      by rewrite (row_by_label _ r r' Hnodup Hr Hr' Heq).
    + intros Hg. exists r. split; [done|]. by apply list_elem_of_filter.
Qed.

Lemma output_rows_are_the_rows_with_gender_witness :
  ∃ out,
    load_validated_data "validated.tsv"
      (only_file "validated.tsv" sample_tsv_quoted)
      = Return out (only_file "validated.tsv" sample_tsv_quoted)
    ∧ (λ r, (r.1, field out r "path")) <$> pd.rows out
      = [(0, Some "a.mp3"); (2, Some "c.mp3"); (3, Some "d.mp3")]%nat.
Proof.
  destruct (output_rows_are_the_rows_with_gender "validated.tsv"
              (only_file "validated.tsv" sample_tsv_quoted)
              (only_file "validated.tsv" sample_tsv_quoted)
              sample_frame_quoted)
    as (out & Hload & Hrows & _).
  - vm_compute. reflexivity.
  - exists out. split; [exact Hload|]. rewrite Hrows.
    vm_compute. reflexivity.
Defined.


(** * Further properties of the extractor *)

(** X2.  An archive none of whose members is a regular file with a name
    that ends with [validated.tsv] or contains [clips/] is extracted to
    nothing: the call returns, and its only effect is that the container is
    gone.  No directory is created, not even for directory members named
    [clips/]. *)
Theorem archive_without_wanted_members
    file_path extract_path (fs : filesystem) members :
  fs !! file_path = Some (File (TarArchive members)) →
  (∀ m, m ∈ members →
     isfile m = false
     ∨ (Str.endswith (name m) "validated.tsv" = false
        ∧ Str.contains "clips/" (name m) = false)) →
  extract_validated_and_clips_from_tar file_path extract_path fs
  = Return tt (delete file_path fs).
Proof.
  intros Hms Hskip.
  assert (for_each members (extract_member_if_wanted extract_path) fs
          = Return tt fs) as Hloop.
  { clear Hms. induction members as [|m ms IH]; [done|].
    rewrite for_each_cons, step_skip.
    - apply IH. intros m' Hm'. apply Hskip. by right.
    - apply destination_None. unfold is_metadata, is_clip.
      destruct (Hskip m) as [->|[-> ->]]; [by left|done|].
      by rewrite !andb_false_r. }
  unfold extract_validated_and_clips_from_tar, bind.
  rewrite (extract_members_archive _ _ _ _ Hms), Hloop.
  unfold os.remove. by rewrite Hms.
Qed.

Lemma archive_without_wanted_members_witness :
  let members := [mkTarInfo "en/clips/" DIRTYPE "";
                  mkTarInfo "en/clips/link.mp3" SYMTYPE "";
                  regular "en/README.txt" "r"] in
  extract_validated_and_clips_from_tar "cv.tar" "out" (staged members)
  = Return tt (delete "cv.tar" (staged members)).
Proof.
  intros members.
  apply (archive_without_wanted_members "cv.tar" "out" (staged members)
           members).
  - reflexivity.
  - intros m Hm. unfold members in Hm.
    repeat (apply elem_of_cons in Hm as [->|Hm]);
      [by left|by left|by right|].
    by apply elem_of_nil in Hm.
Defined.

(** X3.  The extractor cannot be run twice on the same container: after a
    call that returned, a second call with the same arguments raises
    [FileNotFoundError] and changes nothing. *)
Theorem extraction_cannot_be_repeated
    file_path extract_path (fs fs' : filesystem) :
  extract_validated_and_clips_from_tar file_path extract_path fs
    = Return tt fs' →
  extract_validated_and_clips_from_tar file_path extract_path fs'
    = Raise FileNotFoundError fs'.
Proof.
  intros (ms & fs1 & _ & _ & ->)%extract_returns_inv.
  unfold extract_validated_and_clips_from_tar, extract_members, bind,
    tarfile.open.
  by rewrite lookup_delete_eq.
Qed.

Lemma extraction_cannot_be_repeated_witness :
  let fs := staged [regular "en/validated.tsv" "V"] in
  let fs' := final_fs (extract_validated_and_clips_from_tar "cv.tar" "out" fs) in
  extract_validated_and_clips_from_tar "cv.tar" "out" fs'
  = Raise FileNotFoundError fs'.
Proof.
  intros fs fs'.
  apply (extraction_cannot_be_repeated "cv.tar" "out" fs fs').
  vm_compute. reflexivity.
Defined.

(** With permission bits a step that raises is the step without them, or
    it raised [PermissionError] before anything was done. *)
Lemma modes_step_raises privileged dest m locked e fs fs1 :
  Modes.extract_member_if_wanted privileged dest m locked fs = Raise e fs1 →
  fs1 = fs ∨ extract_member_if_wanted dest m fs = Raise e fs1.
Proof.
  assert (∀ m', Modes.extract privileged m' dest locked fs = Raise e fs1 →
                fs1 = fs
                ∨ tarfile.extract m' dest tarfile.fully_trusted fs
                  = Raise e fs1) as Hextract.
  { intros m'. unfold Modes.extract.
    destruct (isreg m' && negb privileged && _ && _).
    - intros [= _ <-]. by left.
    - destruct (tarfile.extract m' dest tarfile.fully_trusted fs)
        as [[] fs2|e2 fs2]; [done|].
      intros [= -> ->]. by right. }
  unfold Modes.extract_member_if_wanted, extract_member_if_wanted.
  destruct (isfile m); [|done].
  destruct (Str.endswith (name m) "validated.tsv"); [apply Hextract|].
  destruct (Str.contains "clips/" (name m)); [apply Hextract|done].
Qed.

(** The loop with permission bits stops where the loop without them stops,
    or earlier: it leaves the file system that the loop without them leaves
    after some of the first members. *)
Lemma modes_loop_prefix privileged dest ms locked fs :
  ∃ ms1 ms2,
    ms = (ms1 ++ ms2)%list
    ∧ final_fs (Modes.extract_each privileged dest ms locked fs)
      = final_fs (for_each ms1 (extract_member_if_wanted dest) fs).
Proof.
  revert locked fs. induction ms as [|m ms IH]; intros locked fs.
  { by exists [], []. }
  cbn [Modes.extract_each]. unfold bind at 1.
  destruct (Modes.extract_member_if_wanted privileged dest m locked fs)
    as [locked1 fs1|e fs1] eqn:E.
  - destruct (IH locked1 fs1) as (ms1 & ms2 & -> & H).
    exists (m :: ms1), ms2. split; [done|].
    by rewrite for_each_cons, (modes_step_returns _ _ _ _ _ _ _ E).
  - destruct (modes_step_raises _ _ _ _ _ _ _ E) as [->|E'].
    + by exists [], (m :: ms).
    + exists [m], ms. split; [done|]. by rewrite for_each_cons, E'.
Qed.

(** X4.  What a call can change, however it ends and whether or not the
    process may write every file, in a file system without links where the
    container is not itself the destination of one of its members.  At a
    path other than the container's, the file system afterwards has what it
    had before, or a new directory where there was nothing, or the content
    of a member of the archive whose destination is that path.  Nothing else
    is removed, replaced or created. *)
Theorem extraction_frame
    privileged file_path extract_path locked (fs : filesystem) p :
  p ≠ file_path →
  link_free fs →
  (∀ members member,
     fs !! file_path = Some (File (TarArchive members)) →
     member ∈ members →
     destination extract_path member ≠ Some file_path) →
  let fs' := final_fs (Modes.extract_validated_and_clips_from_tar
                         privileged file_path extract_path locked fs) in
  fs' !! p = fs !! p
  ∨ (fs !! p = None ∧ fs' !! p = Some Dir)
  ∨ ∃ members member,
      fs !! file_path = Some (File (TarArchive members))
      ∧ member ∈ members
      ∧ destination extract_path member = Some p
      ∧ fs' !! p = Some (File (Bytes (payload member))).
Proof.
  intros Hne _ _ fs'. subst fs'.
  unfold Modes.extract_validated_and_clips_from_tar, bind.
  destruct (open_inv file_path fs) as [(ms & Hms & ->)|[_ [e ->]]];
    [|by left].
  destruct (modes_loop_prefix privileged extract_path ms locked fs)
    as (ms1 & ms2 & -> & Hfinal).
  pose proof (loop_at extract_path ms1 fs p) as Hat. simpl in Hat.
  rewrite <-Hfinal in Hat.
  assert (∀ fs1, final_fs (Modes.extract_each privileged extract_path
                             (ms1 ++ ms2) locked fs) = fs1 →
          ∀ x, fs1 !! p = x →
          x = fs !! p ∨ (fs !! p = None ∧ x = Some Dir)
          ∨ ∃ members member,
              fs !! file_path = Some (File (TarArchive members))
              ∧ member ∈ members
              ∧ destination extract_path member = Some p
              ∧ x = Some (File (Bytes (payload member)))) as Hp.
  { intros fs1 <- x <-.
    destruct Hat as [[H|H]|(m & Hin & Hd & Hp)]; [by left|by right; left|].
    right; right. exists (ms1 ++ ms2)%list, m.
    split_and!; [done| |done..]. apply elem_of_app. by left. }
  destruct (Modes.extract_each privileged extract_path (ms1 ++ ms2)%list
              locked fs) as [locked1 fs1|e fs1]; simpl in *.
  - unfold os.remove.
    destruct (fs1 !! file_path) as [[| |]|]; simpl;
      rewrite ?lookup_delete_ne by done; by apply (Hp fs1).
  - by apply (Hp fs1).
Qed.

Lemma extraction_frame_witness :
  let fs := <["notes" := File (Bytes "n")]>
              (staged [regular "en/clips/1.mp3" "c"]) in
  let fs' := final_fs (Modes.extract_validated_and_clips_from_tar false
                         "cv.tar" "out" ∅ fs) in
  fs' !! "notes" = Some (File (Bytes "n"))
  ∧ fs' !! "out/clips" = Some Dir
  ∧ fs' !! "out/clips/1.mp3" = Some (File (Bytes "c")).
Proof.
  intros fs fs'.
  assert ("notes" ≠ "cv.tar") as Hne by discriminate.
  assert (link_free fs) as Hfree
    by (repeat apply link_free_insert; try done; apply link_free_empty).
  assert (∀ members member,
            fs !! "cv.tar" = Some (File (TarArchive members)) →
            member ∈ members →
            destination "out" member ≠ Some "cv.tar") as Hcontainer.
  { intros members member _ _ Hd. apply destination_within in Hd.
    vm_compute in Hd. discriminate. }
  pose proof (extraction_frame false "cv.tar" "out" ∅ fs "notes"
                Hne Hfree Hcontainer) as H.
  split; [|split; vm_compute; reflexivity].
  destruct H as [H|[[H _]|(ms & m & _ & _ & Hd & _)]].
  - exact H.
  - vm_compute in H. discriminate.
  - exfalso. apply destination_within in Hd. vm_compute in Hd. discriminate.
Defined.
(** ** When the extraction returns *)

Section into_a_directory.

Local Arguments String.append !_ _ / : simpl nomatch.

Lemma rstrip_app_slash s : Str.rstrip_slash (s +:+ "/") = Str.rstrip_slash s.
Proof.
  induction s as [|c s IH]; [done|].
  change (String c s +:+ "/") with (String c (s +:+ "/")).
  cbn [Str.rstrip_slash]. by rewrite IH.
Qed.

Lemma rstrip_no_trailing s :
  Str.endswith s "/" = false → Str.rstrip_slash s = s.
Proof.
  induction s as [|c s IH]; [done|].
  cbn [Str.endswith Str.rstrip_slash].
  destruct (String.eqb_spec (String c s) "/") as [|Hne]; [done|].
  intros He. rewrite (IH He).
  destruct s as [|c' s']; [|done].
  destruct (Ascii.eqb_spec c "/") as [->|]; [by destruct Hne|done].
Qed.

Lemma mkdir_new d fs :
  d ≠ "" → os.path_exists fs d = false → os.parent fs d = os.ParentIsDir →
  os.mkdir d fs = Return tt (<[d := Dir]> fs).
Proof.
  intros Hd He Hp. unfold os.mkdir. rewrite He, Hp.
  by destruct (String.eqb_spec d "").
Qed.

Lemma makedirs_below_existing d fs :
  d ≠ "" → os.path_exists fs d = false → os.parent fs d = os.ParentIsDir →
  os.path_exists fs (os_path.dirname d) = true →
  os.makedirs d fs = Return tt (<[d := Dir]> fs).
Proof.
  intros Hd He Hp Hh. unfold os.makedirs.
  destruct (String.length d); cbn [os.makedirs_from];
    rewrite ?Hh, ?andb_false_r; by rewrite (mkdir_new d fs).
Qed.

(** Extracting a regular member whose directory is missing and can be made
    in one step. *)
Lemma extract_regular_makes_parent m dst fs :
  isreg m = true →
  let t := tarfile.target_path dst (name m) in
  let d := os_path.dirname t in
  d ≠ "" → os.path_exists fs d = false →
  os.makedirs d fs = Return tt (<[d := Dir]> fs) →
  writable (<[d := Dir]> fs) t →
  tarfile.extract m dst tarfile.fully_trusted fs
  = Return tt (<[t := File (Bytes (payload m))]> (<[d := Dir]> fs)).
Proof.
  intros Hreg t d Hd He Hmk Hw. unfold tarfile.extract, tarfile.apply_filter,
    tarfile.extract_member, bind.
  fold (tarfile.target_path dst (name m)). fold t. fold d.
  rewrite He, Hmk, Hreg. destruct (String.eqb_spec d "") as [|_]; [done|].
  simpl.
  by destruct (write_file_spec t (payload m) (<[d := Dir]> fs))
    as [[-> _]|[_ ?]].
Qed.

Lemma dirname_below d x :
  d ≠ "" → Str.endswith d "/" = false → Str.slash_free x →
  os_path.dirname (d +:+ "/" +:+ x) = d.
Proof.
  intros Hd Hs Hx. unfold os_path.dirname.
  rewrite (rpartition_app_slash_free d x Hx). cbn [fst].
  rewrite rstrip_app_slash, (rstrip_no_trailing _ Hs).
  by destruct d.
Qed.

Context (dest : string).
Context (Hdest : dest ≠ "") (Hslash : Str.endswith dest "/" = false).

Lemma join_prefix_plain : join_prefix dest = dest +:+ "/".
Proof.
  unfold join_prefix. rewrite Hslash.
  by destruct (String.eqb_spec dest "").
Qed.

Lemma validated_target_plain :
  validated_target dest = dest +:+ "/" +:+ "validated.tsv".
Proof. by rewrite validated_target_eq, join_prefix_plain, append_assoc. Qed.

Lemma clips_dir_plain : clips_dir dest = dest +:+ "/" +:+ "clips".
Proof.
  unfold clips_dir. rewrite join_relative by done.
  by rewrite join_prefix_plain, append_assoc.
Qed.

Lemma clip_target_plain b :
  Str.slash_free b → b ≠ "" →
  clip_target dest b = clips_dir dest +:+ "/" +:+ b.
Proof.
  intros Hb Hne. rewrite clip_target_eq, join_prefix_plain, clips_dir_plain by done.
  destruct (decide (b = "")); [done|]. by rewrite !append_assoc.
Qed.

Lemma app_ne_self s x : x ≠ "" → s +:+ x ≠ s.
Proof.
  intros Hx E. apply (f_equal String.length) in E.
  rewrite append_length in E. destruct x; [done|]. simpl in E. lia.
Qed.

Lemma clips_dir_no_trailing : Str.endswith (clips_dir dest) "/" = false.
Proof.
  rewrite clips_dir_plain, <-append_assoc.
  by rewrite endswith_app_nonempty.
Qed.

Lemma clips_dir_nonempty : clips_dir dest ≠ "".
Proof. rewrite clips_dir_plain. by destruct dest. Qed.

Lemma path_exists_lookup (fs : filesystem) p x :
  fs !! p = Some x → os.path_exists fs p = true.
Proof.
  intros H. unfold os.path_exists. rewrite H.
  rewrite bool_decide_eq_true_2 by eauto. apply orb_true_r.
Qed.

Lemma parent_dir (fs : filesystem) t d :
  os_path.dirname t = d → fs !! d = Some Dir →
  os.parent fs t = os.ParentIsDir.
Proof.
  intros Hd Hl. unfold os.parent. rewrite Hd, Hl.
  by destruct (String.eqb d "" || os.is_root d).
Qed.

Lemma is_root_app s x :
  Str.rstrip_slash x ≠ "" → os.is_root (s +:+ x) = false.
Proof.
  intros Hx. unfold os.is_root. rewrite rstrip_app_nonempty by done.
  apply andb_false_iff. right. apply string_eqb_false.
  destruct s; [done|]. done.
Qed.

Lemma step_metadata_returns m fs :
  is_metadata m = true → fs !! dest = Some Dir →
  fs !! validated_target dest ≠ Some Dir →
  extract_member_if_wanted dest m fs
  = Return tt (<[validated_target dest := File (Bytes (payload m))]> fs).
Proof.
  intros Hm Hd Ht.
  destruct (step_as_extract dest m _ (destination_metadata dest m Hm))
    as (n & -> & Hn & Hreg).
  rewrite <-Hn.
  apply (extract_regular_writable (set_name m n) dest fs Hreg).
  cbn [name set_name]. rewrite Hn. clear n Hn.
  rewrite validated_target_plain in *. split_and!.
  - by destruct dest.
  - rewrite basename_app_slash_free by done. set_solver.
  - done.
  - apply (parent_dir fs _ dest); [by apply dirname_below|done].
Qed.

Lemma step_clip_returns m fs :
  is_clip m = true →
  (os_path.basename (name m) ∉ [""; "."; ".."]) →
  fs !! dest = Some Dir →
  fs !! clips_dir dest = None ∨ fs !! clips_dir dest = Some Dir →
  fs !! clip_target dest (os_path.basename (name m)) ≠ Some Dir →
  extract_member_if_wanted dest m fs
  = Return tt (<[clip_target dest (os_path.basename (name m))
                 := File (Bytes (payload m))]>
                 (<[clips_dir dest := Dir]> fs)).
Proof.
  intros Hm Hb Hd Hc Ht.
  destruct (step_as_extract dest m _ (destination_clip dest m Hm))
    as (n & -> & Hn & Hreg).
  set (b := os_path.basename (name m)) in *.
  assert (Str.slash_free b) as Hsf by apply basename_slash_free.
  assert (b ≠ "") as Hbne by set_solver.
  assert (os_path.dirname (clip_target dest b) = clips_dir dest) as Hdir.
  { rewrite clip_target_plain by done.
    apply dirname_below;
      [apply clips_dir_nonempty|apply clips_dir_no_trailing|done]. }
  assert (clip_target dest b ≠ clips_dir dest) as Hne.
  { rewrite clip_target_plain by done. apply app_ne_self.
    by destruct b. }
  assert (clip_target dest b ≠ "") as Hne'.
  { rewrite clip_target_plain by done. pose proof clips_dir_nonempty.
    by destruct (clips_dir dest). }
  assert (os_path.basename (clip_target dest b) = b) as Hbase.
  { rewrite clip_target_plain by done. by apply basename_app_slash_free. }
  destruct Hc as [Hc|Hc].
  - pose proof (extract_regular_makes_parent (set_name m n) dest fs Hreg)
      as H.
    cbn [name set_name payload] in H. rewrite Hn, Hdir in H. apply H.
    + apply clips_dir_nonempty.
    + unfold os.path_exists. rewrite Hc.
      rewrite clips_dir_plain, is_root_app by done.
      by rewrite bool_decide_eq_false_2 by (by intros [??]).
    + apply makedirs_below_existing.
      * apply clips_dir_nonempty.
      * unfold os.path_exists. rewrite Hc.
        rewrite clips_dir_plain, is_root_app by done.
        by rewrite bool_decide_eq_false_2 by (by intros [??]).
      * apply (parent_dir fs _ dest); [|done].
        rewrite clips_dir_plain. by apply dirname_below.
      * rewrite clips_dir_plain, dirname_below by done.
        by eapply path_exists_lookup.
    + split_and!.
      * done.
      * rewrite Hbase. done.
      * by rewrite lookup_insert_ne.
      * apply (parent_dir _ _ (clips_dir dest)); [done|].
        by rewrite lookup_insert_eq.
  - rewrite (insert_id fs (clips_dir dest) Dir) by done.
    rewrite <-Hn.
    apply (extract_regular_writable (set_name m n) dest fs Hreg).
    cbn [name set_name]. rewrite Hn. split_and!.
    + done.
    + by rewrite Hbase.
    + done.
    + by apply (parent_dir _ _ (clips_dir dest)).
Qed.

(** With nothing in the way, the loop returns. *)
Lemma loop_returns ms fs :
  (∀ m, m ∈ ms → is_clip m = true →
        os_path.basename (name m) ∉ [""; "."; ".."]) →
  unobstructed fs dest ms →
  ∃ fs', for_each ms (extract_member_if_wanted dest) fs = Return tt fs'
         ∧ fs' !! dest = Some Dir.
Proof.
  revert fs. induction ms as [|m ms IH]; intros fs Hgood (Hd & Hc & Hfree).
  { by exists fs. }
  rewrite for_each_cons.
  assert (∀ fs1 t c,
            extract_member_if_wanted dest m fs = Return tt fs1 →
            fs1 = <[t := File c]> fs
            ∨ fs1 = <[t := File c]> (<[clips_dir dest := Dir]> fs) →
            t ≠ dest → t ≠ clips_dir dest →
            ∃ fs', (match extract_member_if_wanted dest m fs with
                    | Return _ fs1 =>
                        for_each ms (extract_member_if_wanted dest) fs1
                    | Raise e fs1 => Raise e fs1
                    end) = Return tt fs'
                   ∧ fs' !! dest = Some Dir) as Hnext.
  { intros fs1 t c -> Hfs1 Ht1 Ht2. apply IH.
    - intros m' Hm'. apply Hgood. by right.
    - assert (clips_dir dest ≠ dest) as Hcd.
      { rewrite clips_dir_plain. by apply app_ne_self. }
      split_and!.
      + destruct Hfs1 as [->| ->]; by rewrite !lookup_insert_ne.
      + destruct Hfs1 as [->| ->].
        * by rewrite !lookup_insert_ne.
        * right. by rewrite lookup_insert_ne, lookup_insert_eq.
      + intros m' t' Hm' Hdest'.
        assert (t' ≠ clips_dir dest) as Ht'.
        { apply destination_cases in Hdest' as [[_ ->]|[Hclip ->]].
          - rewrite validated_target_plain, clips_dir_plain.
            intros E%append_cancel_l. discriminate.
          - assert (os_path.basename (name m') ≠ "") as Hb.
            { assert (os_path.basename (name m') ∉ [""; "."; ".."]) as Hg
                by (apply Hgood; [by right|done]).
              set_solver. }
            rewrite clip_target_plain by (by try apply basename_slash_free).
            apply app_ne_self. by destruct (os_path.basename (name m')). }
        destruct (decide (t' = t)) as [->|Hne].
        * destruct Hfs1 as [->| ->]; by rewrite lookup_insert_eq.
        * destruct Hfs1 as [->| ->]; rewrite !lookup_insert_ne by done;
            apply (Hfree m' t'); by try right. }
  destruct (destination dest m) as [t|] eqn:Hdm.
  - assert (fs !! t ≠ Some Dir) as Ht by (apply (Hfree m t); by try left).
    destruct (destination_cases _ _ _ Hdm) as [[Hmeta ->]|[Hclip ->]].
    + pose proof (step_metadata_returns m fs Hmeta Hd Ht) as Hstep.
      eapply Hnext; [exact Hstep|by left|..].
      * rewrite validated_target_plain. by apply app_ne_self.
      * rewrite validated_target_plain, clips_dir_plain.
        intros E%append_cancel_l. discriminate.
    + assert (os_path.basename (name m) ∉ [""; "."; ".."]) as Hb
        by (apply Hgood; [by left|done]).
      pose proof (step_clip_returns m fs Hclip Hb Hd Hc Ht) as Hstep.
      assert (os_path.basename (name m) ≠ "") as Hbne by set_solver.
      eapply Hnext; [exact Hstep|by right|..].
      * rewrite clip_target_plain, clips_dir_plain
          by (by try apply basename_slash_free).
        rewrite !append_assoc. by apply app_ne_self.
      * rewrite clip_target_plain by (by try apply basename_slash_free).
        apply app_ne_self. by destruct (os_path.basename (name m)).
  - rewrite step_skip by done. apply IH.
    + intros m' Hm'. apply Hgood. by right.
    + split_and!; [done..|]. intros m' t' Hm'. apply Hfree. by right.
Qed.

End into_a_directory.

(** For the superuser the permission bits change nothing: the call ends as
    it does without them. *)
Lemma modes_privileged_extract m path locked fs :
  match tarfile.extract m path tarfile.fully_trusted fs with
  | Return _ fs' =>
      ∃ locked', Modes.extract true m path locked fs = Return locked' fs'
  | Raise e fs' => Modes.extract true m path locked fs = Raise e fs'
  end.
Proof.
  unfold Modes.extract. cbn [negb]. rewrite andb_false_r. cbn [andb].
  destruct (tarfile.extract m path tarfile.fully_trusted fs) as [[] fs'|e fs'];
    [by eexists|done].
Qed.

Lemma modes_privileged_step dest m locked fs :
  match extract_member_if_wanted dest m fs with
  | Return _ fs' =>
      ∃ locked', Modes.extract_member_if_wanted true dest m locked fs
                 = Return locked' fs'
  | Raise e fs' =>
      Modes.extract_member_if_wanted true dest m locked fs = Raise e fs'
  end.
Proof.
  unfold Modes.extract_member_if_wanted, extract_member_if_wanted.
  destruct (isfile m); [|by eexists].
  destruct (Str.endswith (name m) "validated.tsv");
    [apply modes_privileged_extract|].
  destruct (Str.contains "clips/" (name m));
    [apply modes_privileged_extract|by eexists].
Qed.

Lemma modes_privileged_loop dest ms locked fs :
  match for_each ms (extract_member_if_wanted dest) fs with
  | Return _ fs' =>
      ∃ locked', Modes.extract_each true dest ms locked fs = Return locked' fs'
  | Raise e fs' => Modes.extract_each true dest ms locked fs = Raise e fs'
  end.
Proof.
  revert locked fs. induction ms as [|m ms IH]; intros locked fs.
  { by eexists. }
  rewrite for_each_cons. cbn [Modes.extract_each]. unfold bind at 1 2.
  pose proof (modes_privileged_step dest m locked fs) as Hstep.
  destruct (extract_member_if_wanted dest m fs) as [[] fs1|e fs1].
  - destruct Hstep as [locked1 ->]. apply IH.
  - by rewrite Hstep.
Qed.

Lemma modes_privileged_call file_path dest locked fs :
  match extract_validated_and_clips_from_tar file_path dest fs with
  | Return _ fs' =>
      ∃ locked', Modes.extract_validated_and_clips_from_tar true file_path
                   dest locked fs = Return locked' fs'
  | Raise e fs' =>
      Modes.extract_validated_and_clips_from_tar true file_path dest locked fs
      = Raise e fs'
  end.
Proof.
  unfold Modes.extract_validated_and_clips_from_tar,
    extract_validated_and_clips_from_tar, extract_members, bind.
  destruct (tarfile.open file_path fs) as [ms fs0|e fs0]; [|done].
  pose proof (modes_privileged_loop dest ms locked fs0) as Hloop.
  destruct (for_each ms (extract_member_if_wanted dest) fs0) as [[] fs1|e fs1].
  - destruct Hloop as [locked1 ->].
    destruct (os.remove file_path fs1) as [[] fs2|e fs2]; [by eexists|done].
  - by rewrite Hloop.
Qed.


(** * Further properties of the loader *)

(** The loader looks at nothing but the file it is given. *)
Lemma load_depends_on_the_file p1 (fs1 : filesystem) p2 (fs2 : filesystem) :
  fs1 !! p1 = fs2 !! p2 →
  result_of (load_validated_data p1 fs1)
  = result_of (load_validated_data p2 fs2).
Proof.
  intros H. unfold load_validated_data, bind, pd.read_csv. rewrite H.
  destruct (fs2 !! p2) as [[|[text|]|]|]; try done. cbv zeta.
  destruct (pd.handle_eof _) as [[|header records]|].
  - done.
  - destruct (bool_decide _); [|done].
    unfold pd.getitem, pd.setitem, pd.select, ret, raise. cbn [pd.columns].
    by destruct (pd.index_of "gender" _).
  - destruct (pd.lines _) as [|header [|? ?]]; try done.
    by destruct (bool_decide _).
Qed.


(** * The directory helpers *)

Example plain_examples :
  plain "data" = true ∧ plain "/srv/data/raw" = true
  ∧ plain "" = false ∧ plain "/" = false ∧ plain "data/" = false
  ∧ plain "data//raw" = false ∧ plain "./data" = false
  ∧ plain "data/../raw" = false.
Proof. by vm_compute. Qed.

Section plain_paths.

Local Arguments String.append !_ _ / : simpl nomatch.

Lemma slash_free_not_endswith t :
  Str.slash_free t → Str.endswith t "/" = false.
Proof.
  intros Hsf. destruct (Str.endswith t "/") eqn:E; [|done].
  apply endswith_spec in E as [u ->].
  assert (Str.contains "/" (u +:+ "/") = true) as Hc.
  { apply contains_spec. by exists u, "". }
  unfold Str.slash_free in Hsf. congruence.
Qed.

Lemma split_rpartition p :
  (Str.slash_free p ∧ os_path.rpartition p = ("", p))
  ∨ ∃ h t, p = h +:+ "/" +:+ t ∧ Str.slash_free t
           ∧ os_path.rpartition p = (h +:+ "/", t).
Proof.
  destruct (rpartition_spec p) as (Hp & Hsf & [Hh|[h Hh]]).
  - left. rewrite Hh in Hp. simpl in Hp. rewrite <-Hp in Hsf.
    split; [done|]. destruct (os_path.rpartition p) as [a b].
    simpl in *. by subst.
  - right. exists h, (snd (os_path.rpartition p)).
    rewrite Hh, append_assoc in Hp. split; [done|]. split; [done|].
    rewrite Hp at 1. by apply rpartition_app_slash_free.
Qed.

Lemma plain_cases p :
  plain p = true →
  (Str.slash_free p ∧ p ∉ [""; "."; ".."])
  ∨ (∃ t, p = "/" +:+ t ∧ Str.slash_free t ∧ t ∉ [""; "."; ".."])
  ∨ (∃ h t, p = h +:+ "/" +:+ t ∧ plain h = true ∧ Str.slash_free t
            ∧ t ∉ [""; "."; ".."]).
Proof.
  intros Hp. unfold plain in Hp.
  destruct (split_rpartition p) as [[Hsf _]|(h & t & -> & Hsf & _)].
  - unfold Lexical.isabs in Hp.
    rewrite startswith_slash_free, split_slash_free in Hp by done.
    cbn [forallb] in Hp. rewrite andb_true_r in Hp.
    apply bool_decide_eq_true in Hp. by left.
  - destruct (decide (h = "")) as [->|Hh].
    + change ("" +:+ "/" +:+ t) with (String "/"%char t) in Hp.
      assert (Lexical.isabs (String "/"%char t) = true) as Habs.
      { apply prefix_spec. by exists t. }
      rewrite Habs in Hp.
      change (Str.split "/" (String "/"%char t))
        with ("" :: Str.split "/" t) in Hp.
      rewrite split_slash_free in Hp by done. cbn [tail forallb] in Hp.
      rewrite andb_true_r in Hp. apply bool_decide_eq_true in Hp.
      right; left. by exists t.
    + rewrite isabs_app in Hp by done.
      rewrite split_app_slash, (split_slash_free t) in Hp by done.
      assert (tail (Str.split "/" h ++ [t])%list
              = (tail (Str.split "/" h) ++ [t])%list) as Htail.
      { pose proof (split_nonempty h). by destruct (Str.split "/" h). }
      rewrite Htail in Hp.
      right; right. exists h, t. split; [done|]. unfold plain.
      destruct (Lexical.isabs h); rewrite forallb_app in Hp;
        apply andb_true_iff in Hp as [H1 H2]; cbn [forallb] in H2;
        rewrite andb_true_r in H2; apply bool_decide_eq_true in H2; done.
Qed.

Lemma plain_nonempty p : plain p = true → p ≠ "".
Proof. by intros H ->. Qed.

Lemma plain_no_trailing p : plain p = true → Str.endswith p "/" = false.
Proof.
  intros [[Hsf _]|[(t & -> & Hsf & Ht)|(h & t & -> & _ & Hsf & Ht)]]%plain_cases.
  - by apply slash_free_not_endswith.
  - rewrite endswith_app_nonempty by set_solver.
    by apply slash_free_not_endswith.
  - rewrite <-append_assoc, endswith_app_nonempty by set_solver.
    by apply slash_free_not_endswith.
Qed.

Lemma plain_not_root p : plain p = true → os.is_root p = false.
Proof.
  intros H. unfold os.is_root.
  rewrite (rstrip_no_trailing _ (plain_no_trailing _ H)).
  apply plain_nonempty in H. apply andb_false_iff. right.
  by apply string_eqb_false.
Qed.

Lemma plain_basename p :
  plain p = true → os_path.basename p ∉ [""; "."; ".."].
Proof.
  intros [[Hsf Hg]|[(t & -> & Hsf & Ht)|(h & t & -> & _ & Hsf & Ht)]]%plain_cases.
  - by rewrite basename_of_slash_free.
  - change ("/" +:+ t) with ("" +:+ "/" +:+ t).
    by rewrite basename_app_slash_free.
  - by rewrite basename_app_slash_free.
Qed.

(** The directory of a plain path is the current one, the root, or a
    plain path itself. *)
Lemma plain_dirname p :
  plain p = true →
  os_path.dirname p = "" ∨ os_path.dirname p = "/"
  ∨ (plain (os_path.dirname p) = true
     ∧ p = os_path.dirname p +:+ "/" +:+ os_path.basename p).
Proof.
  intros Hp.
  destruct (plain_cases p Hp)
    as [[Hsf Hg]|[(t & -> & Hsf & Ht)|(h & t & -> & Hh & Hsf & Ht)]].
  - left. destruct (split_rpartition p) as [[_ E]|(h & t & E & _ & _)].
    + unfold os_path.dirname. by rewrite E.
    + exfalso. assert (Str.contains "/" p = true) as Hc.
      { apply contains_spec. by exists h, t. }
      unfold Str.slash_free in Hsf. congruence.
  - right; left. unfold os_path.dirname.
    change ("/" +:+ t) with ("" +:+ "/" +:+ t).
    by rewrite rpartition_app_slash_free.
  - right; right.
    rewrite dirname_below, basename_app_slash_free;
      auto using plain_nonempty, plain_no_trailing.
Qed.

Lemma under_dirname p :
  plain (os_path.dirname p) = true →
  p = os_path.dirname p +:+ "/" +:+ os_path.basename p →
  under (os_path.dirname p) p = true.
Proof.
  intros Hd Hp. unfold under. rewrite join_relative by done.
  unfold join_prefix. rewrite (plain_no_trailing _ Hd).
  destruct (String.eqb_spec (os_path.dirname p) "") as [E|_].
  { by apply plain_nonempty in Hd. }
  cbn [orb]. apply prefix_spec. exists (os_path.basename p).
  by rewrite append_nil_r, append_assoc.
Qed.

Lemma under_trans a b c :
  under a b = true → String.prefix b c = true → under a c = true.
Proof. unfold under. apply prefix_trans. Qed.

End plain_paths.

(** ** [ensure_directory_exists] *)

Section ensure.

Local Arguments String.append !_ _ / : simpl nomatch.

Lemma make_leaf_strict name fs : os.make_leaf false name fs = os.mkdir name fs.
Proof. unfold os.make_leaf. by destruct (os.mkdir name fs). Qed.

Lemma under_length q d :
  under q d = true → (String.length q ≤ String.length d)%nat.
Proof.
  unfold under. rewrite join_relative by done.
  intros [v ->]%prefix_spec. rewrite !append_length.
  unfold join_prefix.
  destruct (String.eqb q "" || Str.endswith q "/");
    rewrite ?append_length; lia.
Qed.

Lemma created_by_insert (fs : filesystem) p :
  fs !! p = None → created_towards fs (<[p := Dir]> fs) p.
Proof.
  intros Hp q. destruct (decide (q = p)) as [->|Hne].
  - right. rewrite lookup_insert_eq. split_and!; [done|done|by left].
  - left. by rewrite lookup_insert_ne.
Qed.

Lemma parent_top (fs : filesystem) p :
  os_path.dirname p = "" ∨ os_path.dirname p = "/" →
  os.parent fs p = os.ParentIsDir.
Proof. unfold os.parent. by intros [-> | ->]. Qed.

(** [mkdir] of a missing plain path, below a directory. *)
Lemma mkdir_below_directory p (fs : filesystem) :
  plain p = true → os.path_exists fs p = false →
  os.parent fs p = os.ParentIsDir →
  ∃ fs', os.mkdir p fs = Return tt fs'
         ∧ fs' = <[p := Dir]> fs
         ∧ fs' !! p = Some Dir ∧ os.parent fs' p = os.ParentIsDir.
Proof.
  intros Hp Hmiss Hpar. exists (<[p := Dir]> fs).
  split; [by apply mkdir_new; [apply plain_nonempty|..]|].
  split; [done|]. split; [by rewrite lookup_insert_eq|].
  unfold os.parent in *.
  destruct (String.eqb (os_path.dirname p) "" || os.is_root (os_path.dirname p));
    [done|].
  rewrite lookup_insert_ne; [done|].
  intros E. symmetry in E. revert E. apply dirname_ne.
  pose proof (plain_basename p Hp). set_solver.
Qed.

(** The fuel of [os.makedirs_with]: each call on an ancestor is on a
    shorter name, so the length of the name is enough, and more changes
    nothing. *)
Lemma makedirs_with_fuel exist_ok n m name (fs : filesystem) :
  (String.length name ≤ n)%nat → (String.length name ≤ m)%nat →
  os.makedirs_with_from exist_ok n name fs
  = os.makedirs_with_from exist_ok m name fs.
Proof.
  revert m name fs. induction n as [|n IH]; intros m name fs Hn Hm.
  { destruct name; [|simpl in Hn; lia]. by destruct m. }
  destruct m as [|m].
  { destruct name; [done|simpl in Hm; lia]. }
  cbn [os.makedirs_with_from]. cbv zeta.
  set (tail := os_path.basename name).
  set (head := os_path.dirname name).
  set (head' := if String.eqb tail "" then os_path.dirname head else head).
  set (tail' := if String.eqb tail "" then os_path.basename head else tail).
  destruct (String.eqb_spec head' "") as [|_]; [done|].
  destruct (String.eqb_spec tail' "") as [|Htail]; [done|].
  cbn [negb andb].
  destruct (os.path_exists fs head'); [done|]. cbn [negb].
  assert (String.length head' < String.length name)%nat as Hshort.
  { unfold head', tail' in *. destruct (String.eqb_spec tail "") as [E|E].
    - pose proof (dirname_shorter head Htail).
      pose proof (dirname_prefix name) as [v Hv]%prefix_spec.
      apply (f_equal String.length) in Hv. rewrite append_length in Hv.
      fold head in Hv. lia.
    - by apply dirname_shorter. }
  by rewrite (IH m head' fs) by lia.
Qed.

Lemma makedirs_strict_spec n p (fs : filesystem) :
  plain p = true → (String.length p ≤ n)%nat →
  os.path_exists fs p = false →
  (∃ fs', os.makedirs_with_from false n p fs = Return tt fs'
          ∧ fs' !! p = Some Dir ∧ os.parent fs' p = os.ParentIsDir
          ∧ created_towards fs fs' p)
  ∨ (os.makedirs_with_from false n p fs = Raise NotADirectoryError fs
     ∧ ∃ a x, under a p = true ∧ fs !! a = Some x ∧ x ≠ Dir).
Proof.
  revert p fs. induction n as [|n IH]; intros p fs Hp Hlen Hmiss.
  { apply plain_nonempty in Hp. destruct p; simpl in Hlen; [done|lia]. }
  pose proof (plain_basename p Hp) as Hb.
  assert (os_path.basename p ≠ "") as Hb0 by set_solver.
  assert (os_path.basename p ≠ ".") as Hb1 by set_solver.
  assert (fs !! p = None) as Hnone by by apply path_exists_false.
  assert (String.eqb (os_path.basename p) "" = false) as E0
    by by apply string_eqb_false.
  assert (String.eqb (os_path.basename p) "." = false) as E1
    by by apply string_eqb_false.
  cbn [os.makedirs_with_from]. cbv zeta. rewrite !E0, E1.
  cbn [negb]. rewrite andb_true_r, !make_leaf_strict.
  assert (os.parent fs p = os.ParentIsDir →
          ∃ fs', os.mkdir p fs = Return tt fs'
                 ∧ fs' !! p = Some Dir ∧ os.parent fs' p = os.ParentIsDir
                 ∧ created_towards fs fs' p) as Hleaf.
  { intros Hpar.
    destruct (mkdir_below_directory p fs Hp Hmiss Hpar)
      as (fs' & E & -> & H1 & H2).
    exists (<[p := Dir]> fs). split_and!; [done..|].
    by apply created_by_insert. }
  destruct (plain_dirname p Hp) as [Hd|[Hd|[Hd Hsplit]]].
  - rewrite Hd. cbn [String.eqb negb andb]. left.
    apply Hleaf, parent_top. by left.
  - rewrite Hd. change (os.path_exists fs "/") with true.
    cbn [negb]. rewrite andb_false_r. left.
    apply Hleaf, parent_top. by right.
  - pose proof (plain_nonempty _ Hd) as Hdne.
    destruct (String.eqb_spec (os_path.dirname p) "") as [|_]; [done|].
    cbn [negb andb].
    destruct (os.path_exists fs (os_path.dirname p)) eqn:Hex; cbn [negb].
    + unfold os.path_exists in Hex. rewrite (plain_not_root _ Hd) in Hex.
      cbn [orb] in Hex. apply bool_decide_eq_true in Hex as [x Hx].
      destruct (decide (x = Dir)) as [->|Hx'].
      * left. apply Hleaf. by apply (parent_dir fs p (os_path.dirname p)).
      * right. split.
        -- unfold os.mkdir. rewrite Hmiss.
           destruct (String.eqb_spec p "") as [E|_];
             [by apply plain_nonempty in Hp|].
           unfold os.parent. rewrite Hx, (plain_not_root _ Hd).
           destruct (String.eqb_spec (os_path.dirname p) "") as [|_]; [done|].
           cbn [orb]. by destruct x.
        -- exists (os_path.dirname p), x. split; [|done].
           by apply under_dirname.
    + assert (String.length (os_path.dirname p) < String.length p)%nat
        as Hshort by by apply dirname_shorter.
      destruct (IH (os_path.dirname p) fs Hd ltac:(lia) Hex)
        as [(fs1 & -> & Hd1 & _ & Hc1)|[-> (a & x & Ha & Hx & Hx')]].
      * left.
        assert (fs1 !! p = None) as Hp1.
        { destruct (Hc1 p) as [->|(_ & _ & [E|Hu])]; [done|..].
          - apply (f_equal String.length) in E. lia.
          - apply under_length in Hu. lia. }
        assert (os.path_exists fs1 p = false) as Hmiss1.
        { unfold os.path_exists. rewrite (plain_not_root _ Hp), Hp1.
          by rewrite bool_decide_eq_false_2 by (by intros [??]). }
        destruct (mkdir_below_directory p fs1 Hp Hmiss1)
          as (fs' & E & -> & H1 & H2).
        { by apply (parent_dir fs1 p (os_path.dirname p)). }
        exists (<[p := Dir]> fs1). split_and!;
          [by rewrite make_leaf_strict|done|done|].
        intros q. destruct (decide (q = p)) as [->|Hne].
        -- right. rewrite lookup_insert_eq. split_and!; [done|done|by left].
        -- rewrite lookup_insert_ne by done.
           destruct (Hc1 q) as [->|(Hq & Hq1 & Hwhere)]; [by left|].
           right. split_and!; [done..|]. right.
           destruct Hwhere as [->|Hu].
           ++ by apply under_dirname.
           ++ eapply under_trans; [exact Hu|apply dirname_prefix].
      * right. split; [done|]. exists a, x. split; [|done].
        eapply under_trans; [exact Ha|apply dirname_prefix].
Qed.

Lemma makedirs_strict_one_level p (fs : filesystem) :
  plain p = true → os.path_exists fs p = false →
  os.parent fs p = os.ParentIsDir →
  os.makedirs_with false p fs = Return tt (<[p := Dir]> fs).
Proof.
  intros Hp Hmiss Hpar.
  pose proof (plain_basename p Hp) as Hb.
  assert (String.eqb (os_path.basename p) "" = false) as E0
    by (apply string_eqb_false; set_solver).
  assert (negb (String.eqb (os_path.dirname p) "")
          && negb (os.path_exists fs (os_path.dirname p)) = false) as Hcond.
  { unfold os.parent in Hpar. unfold os.path_exists.
    destruct (String.eqb (os_path.dirname p) ""); [done|].
    destruct (os.is_root (os_path.dirname p)); [done|]. cbn [negb orb andb] in *.
    by destruct (fs !! os_path.dirname p) as [[| |]|]. }
  unfold os.makedirs_with.
  destruct (String.length p); cbn [os.makedirs_with_from]; cbv zeta;
    rewrite ?E0; cbn [negb]; rewrite ?andb_true_r, ?Hcond, make_leaf_strict;
    apply mkdir_new; auto using plain_nonempty.
Qed.

End ensure.

(** The two ways a call of [ensure_directory_exists] on a plain path can
    end. *)
Lemma ensure_cases path (fs : filesystem) :
  plain path = true →
  (∃ fs', ensure_directory_exists path fs = Return tt fs'
          ∧ (is_Some (fs !! path) → fs' = fs)
          ∧ (fs !! path = None →
             fs' !! path = Some Dir ∧ os.parent fs' path = os.ParentIsDir)
          ∧ created_towards fs fs' path)
  ∨ (ensure_directory_exists path fs = Raise NotADirectoryError fs
     ∧ fs !! path = None
     ∧ ∃ a x, under a path = true ∧ fs !! a = Some x ∧ x ≠ Dir).
Proof.
  intros Hp. unfold ensure_directory_exists.
  destruct (os.path_exists fs path) eqn:Hex; cbn [negb].
  - left. exists fs. unfold os.path_exists in Hex.
    rewrite (plain_not_root _ Hp) in Hex.
    apply bool_decide_eq_true in Hex as [x Hx].
    split_and!; [done|done|by rewrite Hx|by left].
  - pose proof (path_exists_false _ _ Hex) as Hnone.
    unfold os.makedirs_with.
    destruct (makedirs_strict_spec (String.length path) path fs Hp
                ltac:(lia) Hex)
      as [(fs' & -> & Hd & Hpar & Hc)|[-> Hblock]].
    + left. exists fs'. split_and!; [done| |done..].
      rewrite Hnone. by intros [??].
    + by right.
Qed.



(** ** [delete_directory_if_exists] *)

Lemma rmtree_lookup (fs : filesystem) path q :
  filter (λ kv : string * node, kv.1 ≠ path ∧ under path kv.1 = false) fs !! q
  = if bool_decide (q = path ∨ under path q = true) then None else fs !! q.
Proof.
  case_bool_decide as Hq.
  - apply map_lookup_filter_None. right. intros x _ [H1 H2]. cbn [fst] in *.
    destruct Hq as [->|Hq]; [done|congruence].
  - destruct (fs !! q) as [x|] eqn:E.
    + apply map_lookup_filter_Some. split; [done|]. cbn [fst]. split.
      * intros ->. apply Hq. by left.
      * destruct (under path q) eqn:Hu; [|done]. destruct Hq. by right.
    + apply map_lookup_filter_None. by left.
Qed.

(** X10.  [delete_directory_if_exists] on a plain path (its components are
    names: no empty one, no [.] and no [..], so no slash at its end), by
    what is at the path.  Nothing there: the call returns and changes
    nothing.  A directory: the call returns; the directory and all that is
    below it are gone, and every other entry is as before.  A regular file:
    the call raises [NotADirectoryError] and the file stays.  Anything else
    (a link, a device, a pipe) stays as it is, however the call ends. *)
Theorem delete_directory_if_exists_by_cases path (fs : filesystem) :
  plain path = true →
  match fs !! path with
  | None => delete_directory_if_exists path fs = Return tt fs
  | Some Dir =>
      ∃ fs', delete_directory_if_exists path fs = Return tt fs'
             ∧ ∀ q, fs' !! q = if bool_decide (q = path ∨ under path q = true)
                               then None else fs !! q
  | Some (File _) =>
      delete_directory_if_exists path fs = Raise NotADirectoryError fs
  | Some Special => final_fs (delete_directory_if_exists path fs) = fs
  end.
Proof.
  intros Hroot%plain_not_root.
  unfold delete_directory_if_exists, os.path_exists, shutil.rmtree.
  rewrite Hroot. cbn [orb].
  destruct (fs !! path) as [[| |]|] eqn:E.
  - rewrite bool_decide_eq_true_2 by eauto.
    eexists. split; [done|]. apply rmtree_lookup.
  - by rewrite bool_decide_eq_true_2 by eauto.
  - by rewrite bool_decide_eq_true_2 by eauto.
  - by rewrite bool_decide_eq_false_2 by (by intros [??]).
Qed.

Lemma delete_directory_if_exists_by_cases_witness :
  (∃ fs', delete_directory_if_exists "data" sample_tree = Return tt fs'
          ∧ fs' !! "data" = None ∧ fs' !! "data/sub/b.txt" = None
          ∧ fs' !! "notes" = Some (File (Bytes "n")))
  ∧ delete_directory_if_exists "notes" sample_tree
    = Raise NotADirectoryError sample_tree
  ∧ delete_directory_if_exists "tmp" sample_tree = Return tt sample_tree.
Proof.
  pose proof (delete_directory_if_exists_by_cases "data" sample_tree eq_refl)
    as H1.
  pose proof (delete_directory_if_exists_by_cases "notes" sample_tree eq_refl)
    as H2.
  pose proof (delete_directory_if_exists_by_cases "tmp" sample_tree eq_refl)
    as H3.
  split; [|split; [exact H2|exact H3]].
  change (sample_tree !! "data") with (Some Dir) in H1.
  destruct H1 as (fs' & E & Hl). exists fs'. split; [exact E|].
  rewrite !Hl. clear. vm_compute. repeat split.
Defined.

(** ** The two helpers together *)

Section helpers_together.

Local Arguments String.append !_ _ / : simpl nomatch.

Lemma under_plain_longer p q :
  plain p = true → under p q = true →
  (String.length p < String.length q)%nat.
Proof.
  intros Hp. unfold under. rewrite join_relative by done.
  unfold join_prefix. rewrite (plain_no_trailing _ Hp).
  destruct (String.eqb_spec p "") as [E|_];
    [by apply plain_nonempty in Hp|].
  cbn [orb]. intros [v ->]%prefix_spec. rewrite !append_length. simpl. lia.
Qed.

Lemma not_above_and_below p q :
  plain p = true → under p q = true → q = p ∨ under q p = true → False.
Proof.
  intros Hp Hu%under_plain_longer [->|Hq%under_length]; [lia|lia|done].
Qed.

Lemma delete_cases path (fs : filesystem) :
  os.is_root path = false →
  (fs !! path = None ∧ delete_directory_if_exists path fs = Return tt fs)
  ∨ (fs !! path = Some Dir
     ∧ ∃ fs', delete_directory_if_exists path fs = Return tt fs'
              ∧ ∀ q, fs' !! q
                     = if bool_decide (q = path ∨ under path q = true)
                       then None else fs !! q)
  ∨ (∃ x e, fs !! path = Some x ∧ x ≠ Dir
            ∧ delete_directory_if_exists path fs = Raise e fs
            ∧ ∀ c, x = File c → e = NotADirectoryError).
Proof.
  intros Hroot.
  unfold delete_directory_if_exists, os.path_exists, shutil.rmtree.
  rewrite Hroot. cbn [orb].
  destruct (fs !! path) as [[| |]|] eqn:E.
  - right; left. split; [done|]. rewrite bool_decide_eq_true_2 by eauto.
    eexists. split; [done|]. apply rmtree_lookup.
  - right; right. eexists _, _. split; [done|]. split; [done|].
    by rewrite bool_decide_eq_true_2 by eauto.
  - right; right. eexists _, _. split; [done|]. split; [done|].
    by rewrite bool_decide_eq_true_2 by eauto.
  - left. split; [done|].
    by rewrite bool_decide_eq_false_2 by (by intros [??]).
Qed.

Lemma ensure_when_present path (fs : filesystem) :
  is_Some (fs !! path) → ensure_directory_exists path fs = Return tt fs.
Proof.
  intros [x Hx]. unfold ensure_directory_exists.
  by rewrite (path_exists_lookup fs path x Hx).
Qed.

Lemma delete_when_missing path (fs : filesystem) :
  os.is_root path = false → fs !! path = None →
  delete_directory_if_exists path fs = Return tt fs.
Proof.
  intros Hroot Hnone. unfold delete_directory_if_exists, os.path_exists.
  rewrite Hroot, Hnone.
  by rewrite bool_decide_eq_false_2 by (by intros [??]).
Qed.

End helpers_together.

(** X11.  Each helper can be called again: calling it twice in a row on a
    plain path does what calling it once does, to the file system and to
    the outcome. *)
Theorem directory_helpers_are_idempotent path (fs : filesystem) :
  plain path = true →
  (ensure_directory_exists path ;; ensure_directory_exists path) fs
    = ensure_directory_exists path fs
  ∧ (delete_directory_if_exists path ;; delete_directory_if_exists path) fs
    = delete_directory_if_exists path fs.
Proof.
  intros Hp. split; unfold bind.
  - destruct (ensure_cases path fs Hp)
      as [(fs' & -> & Hsame & Hnew & _)|(-> & _)]; [|done].
    apply ensure_when_present.
    destruct (fs !! path) as [x|] eqn:E.
    + rewrite Hsame by eauto. eauto.
    + destruct Hnew as [-> _]; eauto.
  - destruct (delete_cases path fs (plain_not_root _ Hp))
      as [[Hn ->]|[(Hd & fs' & -> & Hl)|(x & e & Hx & Hne & -> & _)]].
    + by apply delete_when_missing; [apply plain_not_root|].
    + apply delete_when_missing; [by apply plain_not_root|].
      rewrite Hl. by rewrite bool_decide_eq_true_2 by (by left).
    + done.
Qed.

Lemma directory_helpers_are_idempotent_witness :
  (ensure_directory_exists "data/raw" ;; ensure_directory_exists "data/raw")
    sample_tree
    = ensure_directory_exists "data/raw" sample_tree
  ∧ (delete_directory_if_exists "data/raw" ;;
     delete_directory_if_exists "data/raw") sample_tree
    = delete_directory_if_exists "data/raw" sample_tree.
Proof.
  apply (directory_helpers_are_idempotent "data/raw" sample_tree eq_refl).
Defined.



(** X13.  Making a directory and taking it away again: on a plain path
    with nothing at it or below it, inside an existing directory,
    [ensure_directory_exists] followed by [delete_directory_if_exists]
    returns, and the file system is the one before. *)
Theorem ensure_then_delete_restores path (fs : filesystem) :
  plain path = true →
  fs !! path = None →
  (∀ q, under path q = true → fs !! q = None) →
  os.parent fs path = os.ParentIsDir →
  (ensure_directory_exists path ;; delete_directory_if_exists path) fs
  = Return tt fs.
Proof.
  intros Hp Hnone Hbelow Hpar. unfold bind, ensure_directory_exists.
  assert (os.path_exists fs path = false) as Hmiss.
  { unfold os.path_exists. rewrite (plain_not_root _ Hp), Hnone.
    by rewrite bool_decide_eq_false_2 by (by intros [??]). }
  rewrite Hmiss. cbn [negb].
  rewrite makedirs_strict_one_level by done.
  unfold delete_directory_if_exists.
  rewrite (path_exists_lookup _ path Dir) by by rewrite lookup_insert_eq.
  unfold shutil.rmtree. rewrite lookup_insert_eq. f_equal.
  apply map_eq. intros q. rewrite rmtree_lookup.
  case_bool_decide as Hq.
  - destruct Hq as [->|Hq]; [done|]. symmetry. by apply Hbelow.
  - rewrite lookup_insert_ne; [done|]. intros <-. apply Hq. by left.
Qed.

Lemma ensure_then_delete_restores_witness :
  (ensure_directory_exists "data/raw" ;; delete_directory_if_exists "data/raw")
    sample_tree
  = Return tt sample_tree.
Proof.
  apply (ensure_then_delete_restores "data/raw" sample_tree eq_refl).
  - reflexivity.
  - intros q Hq.
    destruct (sample_tree !! q) as [x|] eqn:E; [|reflexivity].
    exfalso. apply (elem_of_dom_2 sample_tree) in E.
    assert (dom sample_tree
            = ({["data"; "data/a.txt"; "data/sub"; "data/sub/b.txt"; "notes"]}
                 : gset string)) as Hdom by (clear; by vm_compute).
    rewrite Hdom in E. clear Hdom.
    repeat (apply elem_of_union in E as [E|E]);
      apply elem_of_singleton in E; subst q; clear -Hq;
      vm_compute in Hq; discriminate.
  - clear. vm_compute. reflexivity.
Defined.
(** * The downloader *)

Section splitting.

Local Arguments String.append !_ _ / : simpl nomatch.

Lemma free_cons c a s :
  Str.contains (String c "") (String a s) = false
  ↔ a ≠ c ∧ Str.contains (String c "") s = false.
Proof.
  cbn [Str.contains String.prefix].
  destruct (ascii_dec c a) as [<-|Hne].
  - rewrite prefix_nil. split; [done | by intros [? _]].
  - split; [intros ?; split; [congruence | done] | by intros [_ ?]].
Qed.

Lemma split_app_sep c s t :
  Str.split c (s +:+ String c t) = (Str.split c s ++ Str.split c t)%list.
Proof.
  induction s as [|a s IH].
  - change ("" +:+ String c t) with (String c t). cbn [Str.split].
    by rewrite Ascii.eqb_refl.
  - change (String a s +:+ String c t) with (String a (s +:+ String c t)).
    cbn [Str.split]. rewrite IH.
    destruct (Ascii.eqb a c); [done|].
    pose proof (split_nonempty_any c s). by destruct (Str.split c s).
Qed.

Lemma split_free c s :
  Str.contains (String c "") s = false → Str.split c s = [s].
Proof.
  induction s as [|a s IH]; [done|].
  intros [Ha Hs]%free_cons. cbn [Str.split]. rewrite (IH Hs).
  destruct (Ascii.eqb a c) eqn:E; [|done]. by apply ascii_eqb_true in E.
Qed.

(** No piece of a split has the separator in it. *)
Lemma split_all_free c s :
  Forall (λ x, Str.contains (String c "") x = false) (Str.split c s).
Proof.
  induction s as [|a s IH]; [by repeat constructor|].
  cbn [Str.split]. destruct (Ascii.eqb a c) eqn:E.
  - by constructor.
  - destruct (Str.split c s) as [|w ws] eqn:Es.
    { by destruct (split_nonempty_any c s). }
    inversion_clear IH as [|?? Hw Hws]. constructor; [|done].
    apply free_cons. split; [|done]. intros ->.
    by rewrite Ascii.eqb_refl in E.
Qed.

(** The first piece of a split is the beginning of the string. *)
Lemma split_head_prefix c s :
  ∃ w ws v, Str.split c s = w :: ws ∧ s = w +:+ v.
Proof.
  induction s as [|a s (w & ws & v & Hs & Hv)]; [by exists "", [], ""|].
  cbn [Str.split]. destruct (Ascii.eqb a c).
  - by exists "", (Str.split c s), (String a s).
  - rewrite Hs. exists (String a w), ws, v. split; [done|]. by rewrite Hv at 1.
Qed.

Lemma contains_false_prefix x w v :
  Str.contains x (w +:+ v) = false → Str.contains x w = false.
Proof.
  intros H. destruct (Str.contains x w) eqn:E; [|done].
  apply contains_spec in E as (u & v' & ->).
  assert (Str.contains x ((u +:+ x +:+ v') +:+ v) = true) as Hc.
  { apply contains_spec. exists u, (v' +:+ v). by rewrite !append_assoc. }
  congruence.
Qed.

Lemma last_split_slash base t :
  Str.slash_free t →
  last (Str.split "/" (base +:+ "/" +:+ t)) = Some t.
Proof.
  intros Ht. rewrite split_app_slash, (split_slash_free t Ht).
  apply last_snoc.
Qed.

End splitting.

(** X14.  The name [download_file] shows for a URL.  It never has a slash
    or a question mark in it.  It is what stands between the last slash of
    the URL and the first question mark after it: for a URL that ends with
    [/name], or with [/name?query] where the query has no slash, it is
    [name].  What comes before the last slash does not count, also when
    that slash is inside the query. *)
Theorem download_file_name_of_url :
  (∀ url, Str.slash_free (download_file_name url)
          ∧ Str.contains "?" (download_file_name url) = false)
  ∧ (∀ base name rest,
       Str.slash_free name → Str.contains "?" name = false →
       rest = "" ∨ (∃ query, rest = "?" +:+ query ∧ Str.slash_free query) →
       download_file_name (base +:+ "/" +:+ name +:+ rest) = name)
  ∧ (∀ before after,
       Str.slash_free after →
       download_file_name (before +:+ "/" +:+ after)
       = download_file_name after).
Proof.
  assert (∀ before after, Str.slash_free after →
            download_file_name (before +:+ "/" +:+ after)
            = default "" (head (Str.split "?" after))) as Hlast.
  { intros before after Ha. unfold download_file_name.
    by rewrite last_split_slash. }
  split_and!.
  - intros url. unfold download_file_name.
    destruct (last (Str.split "/" url)) as [t|] eqn:Et.
    + assert (Str.slash_free t) as Ht.
      { pose proof (split_all_free "/" url) as Hall.
        rewrite Forall_forall in Hall. apply Hall.
        by apply last_Some_elem_of. }
      change (default "" (Some t)) with t.
      destruct (split_head_prefix "?" t) as (w & ws & v & Hs & Hv).
      rewrite Hs. change (default "" (head (w :: ws))) with w. split.
      * unfold Str.slash_free in *. rewrite Hv in Ht.
        by apply contains_false_prefix in Ht.
      * pose proof (split_all_free "?" t) as Hall. rewrite Hs in Hall.
        by inversion_clear Hall.
    + by apply last_None in Et; destruct (split_nonempty_any "/" url).
  - intros base name rest Hn Hq Hrest.
    assert (Str.slash_free (name +:+ rest)) as Hfree.
    { destruct Hrest as [->|(query & -> & Hquery)].
      - by rewrite append_nil_r.
      - unfold Str.slash_free in *. clear Hq.
        induction name as [|a name IH].
        + change ("" +:+ "?" +:+ query) with (String "?"%char query).
          by apply (free_cons "/").
        + change (String a name +:+ "?" +:+ query)
            with (String a (name +:+ "?" +:+ query)).
          apply (free_cons "/") in Hn as [Ha Hn].
          apply (free_cons "/"). split; [done|]. by apply IH. }
    rewrite Hlast by done.
    destruct Hrest as [->|(query & -> & Hquery)].
    + by rewrite append_nil_r, split_free.
    + change ("?" +:+ query) with (String "?"%char query).
      by rewrite split_app_sep, split_free.
  - intros before after Ha. rewrite Hlast by done.
    unfold download_file_name. by rewrite split_slash_free.
Qed.

Lemma download_file_name_of_url_witness :
  download_file_name "https://host.example/corpus/cv-en.tar.gz?token=abc"
    = "cv-en.tar.gz"
  ∧ download_file_name "https://host.example/get?file=/corpus/cv-en.tar.gz"
    = download_file_name "cv-en.tar.gz".
Proof.
  destruct download_file_name_of_url as (_ & Hname & Hlast).
  split.
  - apply (Hname "https://host.example/corpus" "cv-en.tar.gz" "?token=abc").
    + reflexivity.
    + reflexivity.
    + right. exists "token=abc". split; reflexivity.
  - apply (Hlast "https://host.example/get?file=/corpus" "cv-en.tar.gz").
    reflexivity.
Defined.

Section saving.

Local Arguments String.append !_ _ / : simpl nomatch.

(** Writing the pieces one after the other to an open file. *)
Lemma write_chunks p acc chunks (fs : filesystem) :
  fs !! p = Some (File (Bytes acc)) →
  for_each chunks (λ data, os.write_more p data) fs
  = Return tt (<[p := File (Bytes (acc +:+ concat_bytes chunks))]> fs).
Proof.
  revert acc fs. induction chunks as [|c chunks IH]; intros acc fs Hp.
  - cbn [for_each concat_bytes foldr]. rewrite append_nil_r.
    by rewrite insert_id.
  - rewrite for_each_cons. unfold os.write_more at 1. rewrite Hp.
    rewrite (IH (acc +:+ c)) by by rewrite lookup_insert_eq.
    rewrite insert_insert_eq. cbn [concat_bytes foldr].
    by rewrite append_assoc.
Qed.

Context (requests_get : string → exn + requests.Response).
Context (int : string → option Z).

Lemma content_length_cases response (fs : filesystem) :
  (∃ n, content_length int response fs = Return n fs
        ∧ ∀ value, requests.headers response !! "content-length" = Some value →
                   is_Some (int value))
  ∨ (content_length int response fs = Raise ValueError fs
     ∧ ∃ value, requests.headers response !! "content-length" = Some value
                ∧ int value = None).
Proof.
  unfold content_length.
  destruct (requests.headers response !! "content-length") as [value|].
  - destruct (int value) as [n|] eqn:E.
    + left. exists n. split; [done|]. intros ? [= <-]. eauto.
    + right. split; [done|]. eauto.
  - left. exists 0%Z. split; [done|]. done.
Qed.

Lemma download_after_headers url save_path (fs : filesystem) response :
  requests_get url = inr response →
  (∀ value, requests.headers response !! "content-length" = Some value →
            is_Some (int value)) →
  download_file requests_get int url save_path fs
  = (os.write_file save_path "" ;;
     for_each (requests.iter_content response 1024).1
       (λ data, os.write_more save_path data) ;;
     match (requests.iter_content response 1024).2 with
     | Some e => raise e
     | None => ret tt
     end) fs.
Proof.
  intros Hget Hlen. unfold download_file. rewrite Hget.
  unfold bind at 1. unfold ret at 1. unfold bind at 1.
  destruct (content_length_cases response fs)
    as [(n & -> & _)|(_ & value & Hv & Hnone)]; [done|].
  destruct (Hlen value Hv) as [n Hn]. congruence.
Qed.

End saving.




(** * The helpers and the extractor together *)

Section prepared_destination.

Local Arguments String.append !_ _ / : simpl nomatch.

Lemma under_below d x :
  d ≠ "" → Str.endswith d "/" = false → under d (d +:+ "/" +:+ x) = true.
Proof.
  intros Hd Hs. unfold under. rewrite join_relative by done.
  rewrite join_prefix_plain by done. rewrite append_nil_r.
  apply prefix_spec. exists x. by rewrite append_assoc.
Qed.

Lemma destination_below dest m t :
  plain dest = true →
  (is_clip m = true → os_path.basename (name m) ≠ "") →
  destination dest m = Some t → under dest t = true.
Proof.
  intros Hp Hb Hd.
  pose proof (plain_nonempty _ Hp) as Hne.
  pose proof (plain_no_trailing _ Hp) as Hs.
  apply destination_cases in Hd as [[_ ->]|[Hclip ->]].
  - rewrite validated_target_plain by done. by apply under_below.
  - rewrite clip_target_plain, clips_dir_plain
      by auto using basename_slash_free.
    rewrite append_assoc. by apply under_below.
Qed.

End prepared_destination.


